(** * nevergrad: parameter transforms and the ask/tell protocol

    A shallow embedding of [nevergrad/parametrization/transforms.py] and of
    the optimizer scenarios of [nevergrad/optimization/test_base.py].

    Numbers.  A Python/numpy float is modelled at two levels.  In [Float]
    it is an [fnum]: a real number, one of the two infinities, or NaN;
    arithmetic on finite values is the exact arithmetic of [R] (rounding and
    signed zeros are not modelled) and the special values follow the IEEE
    tables numpy uses.  This level settles what depends on comparisons,
    selections, shapes and exceptions.  What depends on the rounding of a
    sum, a product or a quotient is settled in [Float64], on IEEE binary64
    numbers, where [TanhBound] is run again.

    Arrays.  An [ndarray] is a one-dimensional array, a list of [fnum]; the
    shape [(n,)] is the length [n].  Elementwise operations broadcast the
    way numpy does for such arrays and raise [ValueError] when the two
    shapes are incompatible.

    Exceptions.  A call returns a [result]: a value or the exception
    raised.  The [name] strings of the transforms and the messages of the
    exceptions are left out. *)

From Stdlib Require Import String DecimalString.
From Stdlib Require Import Reals Lra ZArith QArith Bool Arith Lia List.
From Stdlib Require PrimFloat.
Import ListNotations.

(** ** Exceptions and results *)

Inductive exn : Type :=
| ValueError
| TypeError
| NotImplementedError.

Inductive result (A : Type) : Type :=
| Ok (a : A)
| Raise (e : exn).
Arguments Ok {A} a.
Arguments Raise {A} e.

Definition bind {A B : Type} (r : result A) (k : A -> result B) : result B :=
  match r with
  | Ok a => k a
  | Raise e => Raise e
  end.

Notation "x <- e ;; k" := (bind e (fun x => k))
  (at level 61, e at next level, right associativity).
Notation "e ;;; k" := (bind e (fun _ => k))
  (at level 61, right associativity).

Definition raises {A : Type} (r : result A) (e : exn) : Prop := r = Raise e.

Definition succeeds {A : Type} (r : result A) : Prop := exists a, r = Ok a.

(** ** Floats *)

Module Float.
Local Open Scope R_scope.

Inductive fnum : Type :=
| Fin (r : R)
| PInf
| NInf
| NaN.

Definition is_fin (x : fnum) : Prop :=
  match x with Fin _ => True | _ => False end.

Definition is_nan (x : fnum) : bool :=
  match x with NaN => true | _ => false end.

Definition fneg (x : fnum) : fnum :=
  match x with
  | Fin r => Fin (- r)
  | PInf => NInf
  | NInf => PInf
  | NaN => NaN
  end.

(** [inf_scaled r i]: the infinity [i] multiplied by the finite [r]. *)
Definition inf_scaled (r : R) (i : fnum) : fnum :=
  if Rlt_dec 0 r then i
  else if Rlt_dec r 0 then fneg i
  else NaN.

Definition fadd (x y : fnum) : fnum :=
  match x, y with
  | NaN, _ | _, NaN => NaN
  | Fin a, Fin b => Fin (a + b)
  | PInf, NInf | NInf, PInf => NaN
  | PInf, _ | _, PInf => PInf
  | NInf, _ | _, NInf => NInf
  end.

Definition fsub (x y : fnum) : fnum := fadd x (fneg y).

Definition fmul (x y : fnum) : fnum :=
  match x, y with
  | NaN, _ | _, NaN => NaN
  | Fin a, Fin b => Fin (a * b)
  | Fin a, i | i, Fin a => inf_scaled a i
  | PInf, PInf | NInf, NInf => PInf
  | PInf, NInf | NInf, PInf => NInf
  end.

(** numpy division: a finite value divided by zero is an infinity (NaN for
    0/0), no exception is raised. *)
Definition fdiv (x y : fnum) : fnum :=
  match x, y with
  | NaN, _ | _, NaN => NaN
  | Fin a, Fin b => if Req_dec_T b 0 then inf_scaled a PInf else Fin (a / b)
  | Fin _, _ => Fin 0
  | i, Fin b => if Req_dec_T b 0 then i else inf_scaled b i
  | _, _ => NaN
  end.

(** Comparisons: every comparison with NaN is false. *)
Definition f_lt (x y : fnum) : bool :=
  match x, y with
  | Fin a, Fin b => if Rlt_dec a b then true else false
  | Fin _, PInf | NInf, Fin _ | NInf, PInf => true
  | _, _ => false
  end.

Definition f_le (x y : fnum) : bool :=
  match x, y with
  | NaN, _ | _, NaN => false
  | Fin a, Fin b => if Rle_dec a b then true else false
  | NInf, _ | _, PInf => true
  | _, _ => false
  end.

Definition f_gt (x y : fnum) : bool := f_lt y x.
Definition f_ge (x y : fnum) : bool := f_le y x.

(** Truth value of a float ([not a] is [negb (f_truth a)]): only zero is
    false, NaN is true. *)
Definition f_truth (x : fnum) : bool :=
  match x with
  | Fin r => if Req_dec_T r 0 then false else true
  | _ => true
  end.

(** [np.maximum] and [np.minimum] propagate NaN. *)
Definition fmaximum (x y : fnum) : fnum :=
  if is_nan x || is_nan y then NaN else if f_lt x y then y else x.

Definition fminimum (x y : fnum) : fnum :=
  if is_nan x || is_nan y then NaN else if f_lt y x then y else x.

Definition is_int (r : R) : bool :=
  if Req_dec_T (IZR (Int_part r)) r then true else false.

Definition odd_int (r : R) : bool := is_int r && Z.odd (Int_part r).

(** [base ** e] for finite [base] and finite non-zero [e]. *)
Definition Rpow (b e : R) : fnum :=
  if Rlt_dec 0 b then Fin (Rpower b e)
  else if Req_dec_T b 0 then (if Rlt_dec 0 e then Fin 0 else PInf)
  else if is_int e then
    Fin ((if Z.odd (Int_part e) then -1 else 1) * Rpower (- b) e)
  else NaN.

(** [base ** e] for finite [base] other than 1 and an infinite exponent;
    [up] tells whether the exponent is [+inf]. *)
Definition Rpow_inf (b : R) (up : bool) : fnum :=
  if Rlt_dec (Rabs b) 1 then (if up then Fin 0 else PInf)
  else if Rlt_dec 1 (Rabs b) then (if up then PInf else Fin 0)
  else Fin 1.

Definition fpow (x y : fnum) : fnum :=
  match x, y with
  | _, Fin e =>
      if Req_dec_T e 0 then Fin 1
      else match x with
           | Fin b => Rpow b e
           | PInf => if Rlt_dec 0 e then PInf else Fin 0
           | NInf => if Rlt_dec 0 e
                     then (if odd_int e then NInf else PInf)
                     else Fin 0
           | NaN => NaN
           end
  | Fin b, _ =>
      if Req_dec_T b 1 then Fin 1
      else match y with
           | PInf => Rpow_inf b true
           | NInf => Rpow_inf b false
           | _ => NaN
           end
  | NaN, _ | _, NaN => NaN
  | _, PInf => PInf
  | _, NInf => Fin 0
  end.

Definition flog (x : fnum) : fnum :=
  match x with
  | Fin r => if Rlt_dec 0 r then Fin (ln r)
             else if Req_dec_T r 0 then NInf
             else NaN
  | PInf => PInf
  | _ => NaN
  end.

Definition ftanh (x : fnum) : fnum :=
  match x with
  | Fin r => Fin (tanh r)
  | PInf => Fin 1
  | NInf => Fin (-1)
  | NaN => NaN
  end.

Definition arctanh (x : R) : R := / 2 * ln ((1 + x) / (1 - x)).

Definition farctanh (x : fnum) : fnum :=
  match x with
  | Fin r => if Req_dec_T r 1 then PInf
             else if Req_dec_T r (-1) then NInf
             else if Rlt_dec (-1) r then
               (if Rlt_dec r 1 then Fin (arctanh r) else NaN)
             else NaN
  | _ => NaN
  end.

Definition farctan (x : fnum) : fnum :=
  match x with
  | Fin r => Fin (atan r)
  | PInf => Fin (PI / 2)
  | NInf => Fin (- (PI / 2))
  | NaN => NaN
  end.

Definition ftan (x : fnum) : fnum :=
  match x with
  | Fin r => Fin (tan r)
  | _ => NaN
  end.

End Float.
Export Float.

(** ** One-dimensional numpy arrays *)

Module Numpy.

Definition ndarray : Type := list fnum.

(** [ashape x] stands for the tuple [(len(x),)]. *)
Definition ashape {A : Type} (x : list A) : nat := length x.

(** Every element is a real number (no infinity, no NaN). *)
Definition finite (x : ndarray) : Prop := Forall is_fin x.

(** Elementwise binary operation with numpy's broadcasting: equal shapes
    are combined pointwise, a shape [(1,)] operand is stretched, anything
    else does not broadcast. *)
Definition broadcast2 {A B C : Type} (f : A -> B -> C)
    (x : list A) (y : list B) : result (list C) :=
  if Nat.eqb (length x) (length y)
  then Ok (map (fun p => f (fst p) (snd p)) (combine x y))
  else match x, y with
       | [a], _ => Ok (map (f a) y)
       | _, [b] => Ok (map (fun a => f a b) x)
       | _, _ => Raise ValueError
       end.

(** [bnth a i d]: element [i] of [a] once broadcast. *)
Definition bnth {A : Type} (a : list A) (i : nat) (d : A) : A :=
  match a with
  | [v] => v
  | _ => nth i a d
  end.

(** [b.any()]. *)
Definition any (b : list bool) : bool := existsb (fun v => v) b.

(** [bool(b)] for a boolean array: an empty array is false, a one-element
    array has the truth value of its element, and the truth value of a
    longer array is ambiguous, a value error. *)
Definition truth (b : list bool) : result bool :=
  match b with
  | [] => Ok false
  | [v] => Ok v
  | _ => Raise ValueError
  end.

(** Python [A or B] in a condition; [B] is not looked at when [A] holds. *)
Definition py_or (a b : result bool) : result bool :=
  t <- a ;; if (t : bool) then Ok true else b.

(** [np.max] and [np.min]: reductions without identity. *)
Definition np_max (x : ndarray) : result fnum :=
  match x with
  | [] => Raise ValueError
  | v :: r => Ok (fold_left fmaximum r v)
  end.

Definition np_min (x : ndarray) : result fnum :=
  match x with
  | [] => Raise ValueError
  | v :: r => Ok (fold_left fminimum r v)
  end.

(** [np.clip(x, lo, hi)] is [minimum(maximum(x, lo), hi)], a missing bound
    being skipped; both missing is an error. *)
Definition np_clip (x : ndarray) (lo hi : option ndarray) : result ndarray :=
  match lo, hi with
  | None, None => Raise ValueError
  | _, _ =>
      x1 <- match lo with
            | Some l => broadcast2 fmaximum x l
            | None => Ok x
            end ;;
      match hi with
      | Some h => broadcast2 fminimum x1 h
      | None => Ok x1
      end
  end.

End Numpy.
Export Numpy.

(** ** transforms.py *)

Module Transforms.
Local Open Scope R_scope.

(** A bound given to a constructor: a float, or a tuple, list or array. *)
Inductive bound_arg : Type :=
| Scalar (value : fnum)
| Array (value : ndarray).

(** [np.array(value, copy=False) if isarray else np.array([value])]. *)
Definition as_array (value : bound_arg) : ndarray :=
  match value with
  | Scalar v => [v]
  | Array l => l
  end.

(** The attributes [BoundTransform.__init__] sets. *)
Record BoundTransform : Type := mkBoundTransform {
  a_min : option ndarray;
  a_max : option ndarray;
  shape : nat
}.

(** Objects of the classes of the file, with their attributes. *)
Inductive Transform : Type :=
| TransformT
| RevertedT (transform : Transform)
| AffineT (a b : fnum)
| ExponentiateT (base coeff : fnum)
| BoundTransformT (self : BoundTransform)
| TanhBoundT (self : BoundTransform) (_b _a : ndarray)
| ClippingT (self : BoundTransform)
| ArctanBoundT (self : BoundTransform) (_b _a : ndarray)
| CumulativeDensityT.

(** *** Constructors ([__init__]) *)

Definition reverted (self : Transform) : Transform := RevertedT self.

Definition Reverted (transform : Transform) : result Transform :=
  Ok (RevertedT transform).

Definition Affine (a b : fnum) : result Transform :=
  if negb (f_truth a) then Raise ValueError else Ok (AffineT a b).

Definition Exponentiate (base coeff : fnum) : result Transform :=
  Ok (ExponentiateT base coeff).

Definition BoundTransform_init (a_min a_max : option bound_arg)
  : result BoundTransform :=
  let self_a_min := option_map as_array a_min in
  let self_a_max := option_map as_array a_max in
  match self_a_min, self_a_max with
  | Some lo, Some hi =>
      ge <- broadcast2 f_ge lo hi ;;
      if any ge then Raise ValueError else Ok tt
  | _, _ => Ok tt
  end ;;;
  match self_a_min, self_a_max with
  | None, None => Raise ValueError
  | Some lo, _ => Ok (mkBoundTransform self_a_min self_a_max (ashape lo))
  | None, Some hi => Ok (mkBoundTransform self_a_min self_a_max (ashape hi))
  end.

Definition half : fnum := Fin (5 / 10).

Definition TanhBound (a_min a_max : option bound_arg) : result Transform :=
  self <- BoundTransform_init a_min a_max ;;
  match self.(Transforms.a_min), self.(Transforms.a_max) with
  | Some lo, Some hi =>
      s <- broadcast2 fadd hi lo ;;
      d <- broadcast2 fsub hi lo ;;
      Ok (TanhBoundT self (map (fmul half) s) (map (fmul half) d))
  | _, _ => Raise ValueError
  end.

Definition Clipping (a_min a_max : option bound_arg) : result Transform :=
  self <- BoundTransform_init a_min a_max ;;
  Ok (ClippingT self).

Definition ArctanBound (a_min a_max : option bound_arg) : result Transform :=
  self <- BoundTransform_init a_min a_max ;;
  match self.(Transforms.a_min), self.(Transforms.a_max) with
  | Some lo, Some hi =>
      s <- broadcast2 fadd hi lo ;;
      d <- broadcast2 fsub hi lo ;;
      Ok (ArctanBoundT self (map (fmul half) s)
                            (map (fun v => fdiv v (Fin PI)) d))
  | _, _ => Raise ValueError
  end.

Definition CumulativeDensity : result Transform := Ok CumulativeDensityT.

(** *** Methods *)

Definition _check_shape (self : BoundTransform) (x : ndarray) : result unit :=
  if negb (Nat.eqb self.(shape) 1) && negb (Nat.eqb (ashape x) self.(shape))
  then Raise ValueError
  else Ok tt.

(** A comparison of an array with an attribute that may be [None]. *)
Definition cmp_attr (f : fnum -> fnum -> bool) (y : ndarray)
    (bound : option ndarray) : result (list bool) :=
  match bound with
  | Some b => broadcast2 f y b
  | None => Raise TypeError
  end.

Section Methods.

(** [scipy.stats.norm.cdf] and [scipy.stats.norm.ppf] on the reals: the
    standard normal distribution function and its quantile function. *)
Variables norm_cdf_R norm_ppf_R : R -> R.

Definition norm_cdf (x : fnum) : fnum :=
  match x with
  | Fin r => Fin (norm_cdf_R r)
  | PInf => Fin 1
  | NInf => Fin 0
  | NaN => NaN
  end.

Definition norm_ppf (q : fnum) : fnum :=
  match q with
  | Fin r => if Req_dec_T r 0 then NInf
             else if Req_dec_T r 1 then PInf
             else if Rlt_dec 0 r then
               (if Rlt_dec r 1 then Fin (norm_ppf_R r) else NaN)
             else NaN
  | _ => NaN
  end.

Definition Affine_forward (a b : fnum) (x : ndarray) : result ndarray :=
  Ok (map (fun v => fadd (fmul a v) b) x).

Definition Affine_backward (a b : fnum) (y : ndarray) : result ndarray :=
  Ok (map (fun v => fdiv (fsub v b) a) y).

Definition Exponentiate_forward (base coeff : fnum) (x : ndarray)
  : result ndarray :=
  Ok (map (fun v => fpow base (fmul coeff v)) x).

Definition Exponentiate_backward (base coeff : fnum) (y : ndarray)
  : result ndarray :=
  Ok (map (fun v => fdiv (flog v) (fmul coeff (flog base))) y).

Definition TanhBound_forward (self : BoundTransform) (_b _a x : ndarray)
  : result ndarray :=
  _check_shape self x ;;;
  m <- broadcast2 fmul _a (map ftanh x) ;;
  broadcast2 fadd _b m.

Definition TanhBound_backward (self : BoundTransform) (_b _a y : ndarray)
  : result ndarray :=
  _check_shape self y ;;;
  out <- py_or (gt <- cmp_attr f_gt y self.(a_max) ;; Ok (any gt))
               (lt <- cmp_attr f_lt y self.(a_min) ;; Ok (any lt)) ;;
  if (out : bool) then Raise ValueError
  else
    d <- broadcast2 fsub y _b ;;
    q <- broadcast2 fdiv d _a ;;
    Ok (map farctanh q).

Definition Clipping_forward (self : BoundTransform) (x : ndarray)
  : result ndarray :=
  _check_shape self x ;;;
  np_clip x self.(a_min) self.(a_max).

Definition Clipping_backward (self : BoundTransform) (y : ndarray)
  : result ndarray :=
  _check_shape self y ;;;
  out <- py_or
           match self.(a_max) with
           | None => Ok false
           | Some hi => m <- np_max y ;; truth (map (f_gt m) hi)
           end
           match self.(a_min) with
           | None => Ok false
           | Some lo => m <- np_min y ;; truth (map (f_lt m) lo)
           end ;;
  if (out : bool) then Raise ValueError else Ok y.

Definition ArctanBound_forward (self : BoundTransform) (_b _a x : ndarray)
  : result ndarray :=
  _check_shape self x ;;;
  m <- broadcast2 fmul _a (map farctan x) ;;
  broadcast2 fadd _b m.

Definition ArctanBound_backward (self : BoundTransform) (_b _a y : ndarray)
  : result ndarray :=
  _check_shape self y ;;;
  out <- py_or
           match self.(a_max) with
           | None => Raise TypeError
           | Some hi => m <- np_max y ;; truth (map (f_gt m) hi)
           end
           match self.(a_min) with
           | None => Raise TypeError
           | Some lo => m <- np_min y ;; truth (map (f_lt m) lo)
           end ;;
  if (out : bool) then Raise ValueError
  else
    d <- broadcast2 fsub y _b ;;
    q <- broadcast2 fdiv d _a ;;
    Ok (map ftan q).

Definition CumulativeDensity_backward (y : ndarray) : result ndarray :=
  out <- py_or (m <- np_max y ;; Ok (f_gt m (Fin 1)))
               (m <- np_min y ;; Ok (f_lt m (Fin 0))) ;;
  if (out : bool) then Raise ValueError else Ok (map norm_ppf y).

Fixpoint forward (self : Transform) (x : ndarray) : result ndarray :=
  match self with
  | TransformT | BoundTransformT _ => Raise NotImplementedError
  | RevertedT transform => backward transform x
  | AffineT a b => Affine_forward a b x
  | ExponentiateT base coeff => Exponentiate_forward base coeff x
  | TanhBoundT bt _b _a => TanhBound_forward bt _b _a x
  | ClippingT bt => Clipping_forward bt x
  | ArctanBoundT bt _b _a => ArctanBound_forward bt _b _a x
  | CumulativeDensityT => Ok (map norm_cdf x)
  end
with backward (self : Transform) (y : ndarray) : result ndarray :=
  match self with
  | TransformT | BoundTransformT _ => Raise NotImplementedError
  | RevertedT transform => forward transform y
  | AffineT a b => Affine_backward a b y
  | ExponentiateT base coeff => Exponentiate_backward base coeff y
  | TanhBoundT bt _b _a => TanhBound_backward bt _b _a y
  | ClippingT bt => Clipping_backward bt y
  | ArctanBoundT bt _b _a => ArctanBound_backward bt _b _a y
  | CumulativeDensityT => CumulativeDensity_backward y
  end.

End Methods.

(** The distribution function and the quantile function of the Cauchy
    distribution: a concrete pair with the properties used of the normal
    pair (values strictly between 0 and 1, inverse of each other), for
    closed instances of the statements below. *)
Definition cauchy_cdf (x : R) : R := 1 / 2 + atan x / PI.
Definition cauchy_ppf (q : R) : R := tan (PI * (q - 1 / 2)).

End Transforms.

(** ** Vocabulary of the statements about transforms *)

Module TransformsSpec.
Import Transforms.
Local Open Scope R_scope.

(** Two shapes numpy broadcasts against each other: equal, or one of them
    [(1,)]. *)
Definition compatible {A B : Type} (x : list A) (y : list B) : Prop :=
  length x = length y \/ length x = 1%nat \/ length y = 1%nat.

(** Both bounds omitted; at least one bound omitted. *)
Definition missing_both (a_min a_max : option bound_arg) : Prop :=
  a_min = None /\ a_max = None.

Definition missing_one (a_min a_max : option bound_arg) : Prop :=
  a_min = None \/ a_max = None.

(** [a_min >= a_max] at some element (of the broadcast bounds). *)
Definition bounds_conflict (a_min a_max : option bound_arg) : Prop :=
  match a_min, a_max with
  | Some lo, Some hi =>
      exists i, f_ge (bnth (as_array lo) i NaN) (bnth (as_array hi) i NaN)
                = true
  | _, _ => False
  end.

(** The two bounds, when both are given, have shapes numpy can broadcast. *)
Definition broadcastable (a_min a_max : option bound_arg) : Prop :=
  match a_min, a_max with
  | Some lo, Some hi => compatible (as_array lo) (as_array hi)
  | _, _ => True
  end.

(** The configurations in which the construction of a bound-based
    transform raises: for [BoundTransform] and [Clipping], and for
    [TanhBound] and [ArctanBound], which need both bounds. *)
Definition invalid_bounds (a_min a_max : option bound_arg) : Prop :=
  missing_both a_min a_max \/ bounds_conflict a_min a_max
  \/ ~ broadcastable a_min a_max.

Definition invalid_two_bounds (a_min a_max : option bound_arg) : Prop :=
  missing_one a_min a_max \/ bounds_conflict a_min a_max
  \/ ~ broadcastable a_min a_max.

(** Every given bound has the shape [(1,)] (a float or a one-element
    array). *)
Definition singleton_bounds (a_min a_max : option bound_arg) : Prop :=
  match a_min with Some lo => length (as_array lo) = 1%nat | None => True end
  /\ match a_max with Some hi => length (as_array hi) = 1%nat | None => True end.

(** Some element of [y] is above (below) the matching element of the
    bound. *)
Definition above (y hi : ndarray) : Prop :=
  exists i, (i < length y)%nat /\ f_gt (nth i y NaN) (bnth hi i NaN) = true.

Definition below (y lo : ndarray) : Prop :=
  exists i, (i < length y)%nat /\ f_lt (nth i y NaN) (bnth lo i NaN) = true.

Definition out_of_range (y : ndarray) (lo hi : option ndarray) : Prop :=
  match hi with Some h => above y h | None => False end
  \/ match lo with Some l => below y l | None => False end.

(** An input fits bounds of shape [(n,)] when it has that shape or the
    bounds have the shape [(1,)]. *)
Definition valid_shape {A : Type} (n : nat) (y : list A) : Prop :=
  n = 1%nat \/ length y = n.

(** [i] designates an element of an array of length [n] once broadcast. *)
Definition valid_index (n i : nat) : Prop := (i < n)%nat \/ n = 1%nat.

(** The attributes [_b] and [_a] computed from finite bounds of one
    shape: [.5 * (a_max + a_min)], [.5 * (a_max - a_min)] and
    [(a_max - a_min) / np.pi]. *)
Definition centers (hi lo : list R) : list R :=
  map (fun p => 5 / 10 * (fst p + snd p)) (combine hi lo).

Definition halfwidths (hi lo : list R) : list R :=
  map (fun p => 5 / 10 * (fst p - snd p)) (combine hi lo).

Definition widths_over_pi (hi lo : list R) : list R :=
  map (fun p => (fst p - snd p) / PI) (combine hi lo).

(** Every element of [y] is a finite value between the matching bounds. *)
Definition within_reals (y : ndarray) (lo hi : list R) : Prop :=
  forall i, (i < length y)%nat ->
    exists e, nth i y NaN = Fin e /\ bnth lo i 0 <= e <= bnth hi i 0.

(** Every element of [y] lies between the matching elements of the bounds
    [lo] and [hi] (closed interval). *)
Definition within (y lo hi : ndarray) : Prop :=
  forall i, (i < length y)%nat ->
    f_le (bnth lo i NaN) (nth i y NaN) = true
    /\ f_le (nth i y NaN) (bnth hi i NaN) = true.

(** The objects the constructors build for the bijective transforms:
    [Affine] with a non-zero scale, [Exponentiate] with a base that is
    positive and not 1 and a non-zero coefficient, [TanhBound] with finite
    bounds of one shape, [ArctanBound] with finite one-element bounds,
    [CumulativeDensity], and [Reverted] of these. *)
Inductive bijective : Transform -> Prop :=
| bij_Affine (ra rb : R) :
    ra <> 0 -> bijective (AffineT (Fin ra) (Fin rb))
| bij_Exponentiate (rb rc : R) :
    0 < rb -> rb <> 1 -> rc <> 0 ->
    bijective (ExponentiateT (Fin rb) (Fin rc))
| bij_TanhBound (lo hi : list R) :
    length lo = length hi ->
    (forall i, valid_index (length lo) i -> bnth lo i 0 < bnth hi i 0) ->
    bijective
      (TanhBoundT
         (mkBoundTransform (Some (map Fin lo)) (Some (map Fin hi)) (length lo))
         (map Fin (centers hi lo)) (map Fin (halfwidths hi lo)))
| bij_ArctanBound (l h : R) :
    l < h ->
    bijective
      (ArctanBoundT
         (mkBoundTransform (Some (map Fin [l])) (Some (map Fin [h]))
                           (length [l]))
         (map Fin (centers [h] [l])) (map Fin (widths_over_pi [h] [l])))
| bij_CumulativeDensity : bijective CumulativeDensityT
| bij_Reverted (T : Transform) : bijective T -> bijective (RevertedT T).

(** Every element of [y] is strictly between the matching bounds. *)
Definition inside (y : ndarray) (lo hi : option ndarray) : Prop :=
  match lo, hi with
  | Some l, Some h =>
      forall i, (i < length y)%nat ->
        f_lt (bnth l i NaN) (nth i y NaN) = true
        /\ f_lt (nth i y NaN) (bnth h i NaN) = true
  | _, _ => False
  end.

(** Every element of [y] is finite and positive. *)
Definition positive (y : ndarray) : Prop :=
  Forall (fun v => exists e, v = Fin e /\ 0 < e) y.

(** The valid domain of [forward] (the inputs of the round trip
    [backward (forward x)]) and the valid domain of [backward]. *)
Fixpoint forward_domain (T : Transform) (x : ndarray) : Prop :=
  match T with
  | AffineT _ _ | ExponentiateT _ _ => finite x
  | TanhBoundT self _ _ => finite x /\ valid_shape self.(shape) x
  | ArctanBoundT _ _ _ | CumulativeDensityT => finite x /\ x <> []
  | RevertedT T' => backward_domain T' x
  | TransformT | BoundTransformT _ | ClippingT _ => False
  end
with backward_domain (T : Transform) (y : ndarray) : Prop :=
  match T with
  | AffineT _ _ => finite y
  | ExponentiateT _ _ => positive y
  | TanhBoundT self _ _ =>
      valid_shape self.(shape) y /\ inside y self.(a_min) self.(a_max)
  | ArctanBoundT self _ _ => y <> [] /\ inside y self.(a_min) self.(a_max)
  | CumulativeDensityT => y <> [] /\ inside y (Some [Fin 0]) (Some [Fin 1])
  | RevertedT T' => forward_domain T' y
  | TransformT | BoundTransformT _ | ClippingT _ => False
  end.

(** A finite value strictly between 0 and 1. *)
Definition probability (v : fnum) : Prop := exists q, v = Fin q /\ 0 < q < 1.

(** [TanhBound(0., 1.)] and the object it builds. *)
Definition unit_self : BoundTransform :=
  mkBoundTransform (Some [Fin 0]) (Some [Fin 1]) 1.

Definition unit_tanh : Transform :=
  TanhBoundT unit_self [fmul half (fadd (Fin 1) (Fin 0))]
             [fmul half (fsub (Fin 1) (Fin 0))].

End TransformsSpec.

(** ** The ask/tell protocol (optimization/base.py, used by test_base.py) *)

Module Optimization.
Local Open Scope Q_scope.

(** Internal representation of a point.  The floats of the scenarios are
    small integers and squares of them; they are modelled exactly by [Q]. *)
Definition point : Type := list Q.

Record Candidate : Type := mkCandidate { data : point }.

Definition point_eqb (x y : point) : bool :=
  Nat.eqb (length x) (length y)
  && forallb (fun p => Qeq_bool (fst p) (snd p)) (combine x y).

#[local] Set Warnings "-register-all".

(** Values a caller may pass as a loss. *)
Inductive pyvalue : Type :=
| PyBool (b : bool)
| PyInt (z : Z)
| PyFloat (q : Q)
| NpInt32 (z : Z)
| NpInt64 (z : Z)
| NpFloat32 (q : Q)
| NpFloat64 (q : Q)
| PyList (l : list pyvalue)
| PyComplex (re im : Q)
| PyObject.
#[local] Set Warnings "register-all".

Module Base.

(** Modelled from the spec: [base.Optimizer] is not among the sources; the
    state is the one of the spec's data model (counters, archive of the best
    loss per point, current best, pending asks, and the point injected by
    [suggest]), with the state of the subclass in [internal]. *)
Record Optimizer (S : Type) : Type := mkOptimizer {
  dimension : nat;
  budget : nat;
  num_workers : nat;
  _num_ask : nat;
  _num_tell : nat;
  archive : list (point * Q);
  current_best : option (Candidate * Q);
  pending : list point;
  suggestions : list point;
  internal : S
}.
Arguments mkOptimizer {S}.
Arguments dimension {S}.
Arguments budget {S}.
Arguments num_workers {S}.
Arguments _num_ask {S}.
Arguments _num_tell {S}.
Arguments archive {S}.
Arguments current_best {S}.
Arguments pending {S}.
Arguments suggestions {S}.
Arguments internal {S}.

(** The algorithm plug-in interface: [_internal_ask] and [_internal_tell]
    of the subclass, which read the optimizer and update the subclass
    state. *)
Record Strategy (S : Type) : Type := mkStrategy {
  _internal_ask : Optimizer S -> S * point;
  _internal_tell : Optimizer S -> point -> Q -> S
}.
Arguments mkStrategy {S}.
Arguments _internal_ask {S}.
Arguments _internal_tell {S}.

Section Protocol.
Context {S : Type} (strategy : Strategy S).

(** Modelled from the spec: construction with
    [(instrumentation, budget, num_workers)]. *)
Definition create (instrumentation budget num_workers : nat) (init : S)
  : Optimizer S :=
  mkOptimizer instrumentation budget num_workers 0 0 [] None [] [] init.

(** Modelled from the spec: [suggest] makes the next [ask] return the given
    point verbatim. *)
Definition suggest (self : Optimizer S) (values : point) : Optimizer S :=
  mkOptimizer self.(dimension) self.(budget) self.(num_workers)
    self.(_num_ask) self.(_num_tell) self.(archive) self.(current_best)
    self.(pending) (self.(suggestions) ++ [values]) self.(internal).

(** Modelled from the spec: [ask] takes the suggested point if there is
    one, else the proposal of the strategy; it increments [num_ask] and
    records the point as pending. *)
Definition ask (self : Optimizer S) : Optimizer S * Candidate :=
  match self.(suggestions) with
  | x :: rest =>
      (mkOptimizer self.(dimension) self.(budget) self.(num_workers)
         (Datatypes.S self.(_num_ask)) self.(_num_tell) self.(archive)
         self.(current_best) (self.(pending) ++ [x]) rest self.(internal),
       mkCandidate x)
  | [] =>
      let (st, x) := strategy.(_internal_ask) self in
      (mkOptimizer self.(dimension) self.(budget) self.(num_workers)
         (Datatypes.S self.(_num_ask)) self.(_num_tell) self.(archive)
         self.(current_best) (self.(pending) ++ [x]) [] st,
       mkCandidate x)
  end.

(** Modelled from the spec, step (a) and (b) of [tell]: bool, int, float
    and numpy integer or floating scalars are coerced to a float, anything
    else is a type error. *)
Definition coerce_loss (loss : pyvalue) : result Q :=
  match loss with
  | PyBool b => Ok (if b then 1 else 0)
  | PyInt z | NpInt32 z | NpInt64 z => Ok (inject_Z z)
  | PyFloat q | NpFloat32 q | NpFloat64 q => Ok q
  | PyList _ | PyComplex _ _ | PyObject => Raise TypeError
  end.

(** Modelled from the spec, step (c): the archive entry of a point keeps
    the lowest loss told for it. *)
Fixpoint update_archive (archive : list (point * Q)) (x : point) (loss : Q)
  : list (point * Q) :=
  match archive with
  | [] => [(x, loss)]
  | (y, best) :: rest =>
      if point_eqb x y
      then (y, if Qle_bool best loss then best else loss) :: rest
      else (y, best) :: update_archive rest x loss
  end.

(** Modelled from the spec, step (d): a strictly lower loss replaces the
    current best. *)
Definition update_best (best : option (Candidate * Q)) (c : Candidate)
    (loss : Q) : option (Candidate * Q) :=
  match best with
  | None => Some (c, loss)
  | Some (b, bl) => if Qle_bool bl loss then Some (b, bl) else Some (c, loss)
  end.

Definition remove_pending (pending : list point) (x : point) : list point :=
  filter (fun y => negb (point_eqb x y)) pending.

(** Modelled from the spec: [tell] validates the loss type and the shape
    of the point, and only then updates archive, current best, counter,
    strategy state and pending set.  No callback is registered in the
    scenarios; step (f) is not modelled. *)
Definition tell (self : Optimizer S) (candidate : Candidate) (loss : pyvalue)
  : Optimizer S * result unit :=
  match coerce_loss loss with
  | Raise e => (self, Raise e)
  | Ok value =>
      if negb (Nat.eqb (length candidate.(data)) self.(dimension))
      then (self, Raise ValueError)
      else
        (mkOptimizer self.(dimension) self.(budget) self.(num_workers)
           self.(_num_ask) (Datatypes.S self.(_num_tell))
           (update_archive self.(archive) candidate.(data) value)
           (update_best self.(current_best) candidate value)
           (remove_pending self.(pending) candidate.(data))
           self.(suggestions)
           (strategy.(_internal_tell) self candidate.(data) value),
         Ok tt)
  end.

(** Modelled from the spec: the recommendation is the current best. *)
Definition provide_recommendation (self : Optimizer S) : option Candidate :=
  option_map fst self.(current_best).

(** One round of the driver asks [n] candidates. *)
Fixpoint ask_round (n : nat) (self : Optimizer S)
  : Optimizer S * list Candidate :=
  match n with
  | O => (self, [])
  | Datatypes.S n' =>
      let (self1, c) := ask self in
      let (self2, cs) := ask_round n' self1 in
      (self2, c :: cs)
  end.

(** The results of a round are told in the order asked. *)
Fixpoint tell_round (self : Optimizer S) (told : list (Candidate * Q))
  : Optimizer S * result unit :=
  match told with
  | [] => (self, Ok tt)
  | (c, value) :: rest =>
      match tell self c (PyFloat value) with
      | (self1, Ok _) => tell_round self1 rest
      | (self1, Raise e) => (self1, Raise e)
      end
  end.

(** Modelled from the spec: a round issues [min(num_workers, remaining)]
    asks, evaluates them and tells all results; rounds repeat until the
    budget is consumed.  [fuel] bounds the number of rounds; a round
    consumes at least one evaluation when [num_workers] is positive, so
    the budget itself is enough fuel. *)
Fixpoint rounds (fuel remaining workers : nat) (func : point -> Q)
    (self : Optimizer S) : Optimizer S * result unit :=
  match fuel with
  | O => (self, Ok tt)
  | Datatypes.S fuel' =>
      if Nat.eqb remaining 0 then (self, Ok tt)
      else
        let n := Nat.min workers remaining in
        let (self1, cs) := ask_round n self in
        match tell_round self1 (map (fun c => (c, func c.(data))) cs) with
        | (self2, Ok _) => rounds fuel' (remaining - n) workers func self2
        | (self2, Raise e) => (self2, Raise e)
        end
  end.

(** Modelled from the spec: [minimize(func, budget, num_workers,
    batch_mode)].  The evaluator is the sequential one; with it the steady
    mode schedules like the batch mode, so [batch_mode] does not change the
    schedule.  The scenarios start from a new optimizer; how a budget
    counts the asks made before the call is not modelled. *)
Definition minimize (self : Optimizer S) (func : point -> Q)
    (budget : option nat) (num_workers : option nat) (batch_mode : bool)
  : Optimizer S * result (option Candidate) :=
  let b := match budget with Some b => b | None => self.(Base.budget) end in
  let w := match num_workers with
           | Some w => w
           | None => self.(Base.num_workers)
           end in
  match rounds b b w func self with
  | (self1, Ok _) => (self1, Ok (provide_recommendation self1))
  | (self1, Raise e) => (self1, Raise e)
  end.

End Protocol.
End Base.

(** *** test_base.py *)

Definition str_of_nat (n : nat) : string :=
  NilEmpty.string_of_uint (Nat.to_uint n).

Definition str_of_int (z : Z) : string :=
  NilEmpty.string_of_int (Z.to_int z).

(** Python's [int(x)] on a float truncates towards zero. *)
Definition int_of_float (q : Q) : Z := Z.quot (Qnum q) (Zpos (Qden q)).

(** [CounterFunction.__call__] without its call counter; the value has one
    element (the function asserts it).  Neither the assertion nor the
    rounding or overflow of the float square is modelled: the scenarios
    call the function on the one-element points of [LoggingOptimizer], and
    their logs do not depend on the value returned. *)
Definition CounterFunction (value : point) : Q :=
  let v := hd 0 value - 1 in v * v.

(** [LoggingOptimizer]: the subclass state is the list [logs]. *)
Definition LoggingOptimizer_strategy : Base.Strategy (list string) :=
  Base.mkStrategy
    (fun self =>
       (self.(Base.internal)
          ++ [String.append "s" (str_of_nat self.(Base._num_ask))],
        [inject_Z (Z.of_nat self.(Base._num_ask))]))
    (fun self x value =>
       self.(Base.internal)
         ++ [String.append "u" (str_of_int (int_of_float (hd 0 x)))]).

Definition LoggingOptimizer (num_workers : nat)
  : Base.Optimizer (list string) :=
  Base.create 1 5 num_workers [].

Definition logs (self : Base.Optimizer (list string)) : list string :=
  self.(Base.internal).

(** The four cases of [test_batch_and_steady_optimization]. *)
Definition w1_batch : nat * bool * list string :=
  (1%nat, true,
   ["s0"; "u0"; "s1"; "u1"; "s2"; "u2"; "s3"; "u3"; "s4"; "u4"]%string).
Definition w1_steady : nat * bool * list string :=
  (1%nat, false,
   ["s0"; "u0"; "s1"; "u1"; "s2"; "u2"; "s3"; "u3"; "s4"; "u4"]%string).
Definition w3_batch : nat * bool * list string :=
  (3%nat, true,
   ["s0"; "s1"; "s2"; "u0"; "u1"; "u2"; "s3"; "s4"; "u3"; "u4"]%string).
Definition w3_steady : nat * bool * list string :=
  (3%nat, false,
   ["s0"; "s1"; "s2"; "u0"; "u1"; "u2"; "s3"; "s4"; "u3"; "u4"]%string).

(** The logs [test_batch_and_steady_optimization] compares with the
    expected ones. *)
Definition batch_and_steady_logs (func : point -> Q) (num_workers : nat)
    (batch_mode : bool) : list string :=
  let optim := LoggingOptimizer num_workers in
  logs (fst (Base.minimize LoggingOptimizer_strategy optim func
               None None batch_mode)).

Definition test_batch_and_steady_optimization
    (case : nat * bool * list string) : bool :=
  let '(num_workers, batch_mode, expected) := case in
  if list_eq_dec string_dec
       (batch_and_steady_logs CounterFunction num_workers batch_mode) expected
  then true else false.

(** [test_tell_types]: the outcome of [optim.tell(x, value)] after one
    [ask], and the check the test makes on it. *)
Definition tell_types_run (value : pyvalue)
  : Base.Optimizer (list string) * result unit :=
  let optim := LoggingOptimizer 1 in
  let (optim1, x) := Base.ask LoggingOptimizer_strategy optim in
  Base.tell LoggingOptimizer_strategy optim1 x value.

Definition test_tell_types (value : pyvalue) (error : bool) : bool :=
  match snd (tell_types_run value), error with
  | Raise TypeError, true => true
  | Ok _, false => true
  | _, _ => false
  end.

(** The operations [test_base_optimizer] uses on its optimizer. *)
Record OptimizerImpl : Type := mkImpl {
  optimizer : Type;
  new : nat -> nat -> nat -> optimizer;
  impl_ask : optimizer -> optimizer * Candidate;
  impl_tell : optimizer -> Candidate -> pyvalue -> optimizer * result unit;
  impl_provide_recommendation : optimizer -> option Candidate;
  impl_num_ask : optimizer -> nat;
  impl_suggest : optimizer -> point -> optimizer
}.

(** [create_candidate.from_data]. *)
Definition from_data (x : point) : Candidate := mkCandidate x.

(** A sequence of calls [tell(from_data(x), loss)] with integer losses. *)
Fixpoint tell_all (O : OptimizerImpl) (self : optimizer O)
    (told : list (point * Z)) : result (optimizer O) :=
  match told with
  | [] => Ok self
  | (x, loss) :: rest =>
      match impl_tell O self (from_data x) (PyInt loss) with
      | (self1, Ok _) => tell_all O self1 rest
      | (_, Raise e) => Raise e
      end
  end.

Definition recommends (O : OptimizerImpl) (self : optimizer O) (x : point)
  : bool :=
  match impl_provide_recommendation O self with
  | Some c => point_eqb c.(data) x
  | None => false
  end.

(** The points and losses of [test_base_optimizer], lines 89-90 and
    93-94. *)
Definition first_point : point := [0; 0].
Definition second_point : point := [1; 1].
Definition first_tells : list (point * Z) :=
  [(first_point, 0%Z); (second_point, 1%Z)].
Definition second_tells : list (point * Z) :=
  [(first_point, 10%Z); (second_point, 1%Z)].

(** The optimizer of the test after its [ask] (lines 84 and 88). *)
Definition zeroptim_asked (O : OptimizerImpl) : optimizer O * Candidate :=
  impl_ask O (new O 2 4 1).

(** [test_base_optimizer], lines 88 to 100: [true] when every assertion
    holds and no call raises.  The check of the representation string
    (lines 85-87) is left out; the decoded [args[0]] of a candidate of an
    array instrumentation is its data. *)
Definition test_base_optimizer (O : OptimizerImpl) : bool :=
  let (z1, c) := zeroptim_asked O in
  point_eqb c.(data) [0; 0] &&
  match tell_all O z1 first_tells with
  | Raise _ => false
  | Ok z2 =>
      recommends O z2 [0; 0] &&
      match tell_all O z2 second_tells with
      | Raise _ => false
      | Ok z3 =>
          recommends O z3 [1; 1] &&
          Nat.eqb (impl_num_ask O z3) 1 &&
          let z4 := impl_suggest O z3 [12; 12] in
          let (z5, c1) := impl_ask O z4 in
          point_eqb c1.(data) [12; 12] &&
          let (z6, c2) := impl_ask O z5 in
          point_eqb c2.(data) [0; 0]
      end
  end.

(** The recommendation the scenario of the test reaches after the tells
    of lines 89-90 followed by [more]. *)
Definition recommendation_after (O : OptimizerImpl) (more : list (point * Z))
  : option point :=
  match tell_all O (fst (zeroptim_asked O)) (first_tells ++ more) with
  | Ok z => option_map data (impl_provide_recommendation O z)
  | Raise _ => None
  end.

(** Modelled from the test: [optimizerlib.Zero] is not among the sources;
    lines 88 and 100 show that it proposes the origin. *)
Definition Zero_strategy : Base.Strategy unit :=
  Base.mkStrategy
    (fun self => (tt, repeat 0 self.(Base.dimension)))
    (fun self x value => tt).

(** [Zero] on the protocol modelled from the spec. *)
Definition SpecZero : OptimizerImpl :=
  mkImpl (Base.Optimizer unit)
    (fun instrumentation budget num_workers =>
       Base.create instrumentation budget num_workers tt)
    (Base.ask Zero_strategy)
    (Base.tell Zero_strategy)
    Base.provide_recommendation
    Base._num_ask
    Base.suggest.

(** The losses [tell] accepts: bool, int, float and numpy integer or
    floating scalars. *)
Definition accepted_loss (loss : pyvalue) : bool :=
  match loss with
  | PyList _ | PyComplex _ _ | PyObject => false
  | _ => true
  end.

(** The nine cases of [test_tell_types], lines 63-73. *)
Definition tell_types_cases : list (pyvalue * bool) :=
  [ (PyInt 3, false); (PyBool true, false); (NpInt32 3, false);
    (NpInt64 3, false); (NpFloat64 3, false); (NpFloat32 3, false);
    (PyList [PyInt 3; PyInt 5], true); (PyComplex 0 1, true);
    (PyObject, true) ].






End Optimization.

(** ** Double precision *)

(** The arithmetic of [Float] is exact.  It decides what the code does with
    comparisons, selections, shapes and exceptions; it does not decide a
    property that depends on how a sum, a product or a quotient is rounded.
    For those the code is run on IEEE binary64 numbers, the primitive
    floats, whose arithmetic is numpy's. *)
Module Float64.
Import PrimFloat.
Local Open Scope float_scope.
#[local] Set Warnings "-inexact-float".

Definition ndarray64 : Type := list float.

(** What a function of the mathematical library returns.  Where the
    standards or saturation fix the result it is given exactly; elsewhere
    it depends on the rounding of the library, and what is known is that it
    is a finite number. *)
Inductive libm_value : Type :=
| Exactly (v : float)
| Finite_inexact.

(** [np.tanh]: NaN at NaN, the argument at [+0] and [-0], [1] and [-1] at
    the infinities and wherever the argument is at least 40 in absolute
    value (there [tanh] is nearer to 1 than to any other double), a finite
    number elsewhere. *)
Definition np_tanh (x : float) : libm_value :=
  if is_nan x then Exactly nan
  else if x =? 0 then Exactly x
  else if 40 <=? x then Exactly 1
  else if x <=? -40 then Exactly (-1)
  else Finite_inexact.

(** [np.arctanh]: NaN at NaN and outside [[-1, 1]], the argument at [+0]
    and [-0], the infinities at [1] and [-1], a finite number strictly
    between. *)
Definition np_arctanh (x : float) : libm_value :=
  if is_nan x then Exactly nan
  else if x =? 0 then Exactly x
  else if x =? 1 then Exactly infinity
  else if x =? -1 then Exactly neg_infinity
  else if (x <? -1) || (1 <? x) then Exactly nan
  else Finite_inexact.

(** Arithmetic with the result of a library call: the result is computed
    when the operand is known exactly, and is not determined ([None])
    otherwise. *)
Definition scale (a : float) (t : libm_value) : option float :=
  match t with
  | Exactly v => Some (a * v)
  | Finite_inexact => None
  end.

Definition shift (b : float) (m : option float) : option float :=
  option_map (add b) m.

End Float64.

(** ** [TanhBound] in double precision *)

Module Transforms64.
Import PrimFloat Float64.
Local Open Scope float_scope.
#[local] Set Warnings "-inexact-float".

Inductive bound_arg : Type :=
| Scalar (value : float)
| Array (value : ndarray64).

Definition as_array (value : bound_arg) : ndarray64 :=
  match value with
  | Scalar v => [v]
  | Array l => l
  end.

Record BoundTransform : Type := mkBoundTransform {
  a_min : option ndarray64;
  a_max : option ndarray64;
  shape : nat
}.

(** An object of the class [TanhBound]: the attributes of the base class,
    [_b] and [_a]. *)
Record TanhBoundT : Type := mkTanhBound {
  self : BoundTransform;
  _b : ndarray64;
  _a : ndarray64
}.

Definition BoundTransform_init (a_min a_max : option bound_arg)
  : result BoundTransform :=
  let self_a_min := option_map as_array a_min in
  let self_a_max := option_map as_array a_max in
  match self_a_min, self_a_max with
  | Some lo, Some hi =>
      ge <- broadcast2 (fun l h => h <=? l) lo hi ;;
      if any ge then Raise ValueError else Ok tt
  | _, _ => Ok tt
  end ;;;
  match self_a_min, self_a_max with
  | None, None => Raise ValueError
  | Some lo, _ => Ok (mkBoundTransform self_a_min self_a_max (ashape lo))
  | None, Some hi => Ok (mkBoundTransform self_a_min self_a_max (ashape hi))
  end.

Definition TanhBound (a_min a_max : option bound_arg) : result TanhBoundT :=
  self <- BoundTransform_init a_min a_max ;;
  match self.(Transforms64.a_min), self.(Transforms64.a_max) with
  | Some lo, Some hi =>
      s <- broadcast2 add hi lo ;;
      d <- broadcast2 sub hi lo ;;
      Ok (mkTanhBound self (map (mul 0.5) s) (map (mul 0.5) d))
  | _, _ => Raise ValueError
  end.

Definition _check_shape (self : BoundTransform) (x : ndarray64) : result unit :=
  if negb (Nat.eqb self.(shape) 1) && negb (Nat.eqb (ashape x) self.(shape))
  then Raise ValueError
  else Ok tt.

(** [self._b + self._a * np.tanh(x)]. *)
Definition TanhBound_forward (t : TanhBoundT) (x : ndarray64)
  : result (list (option float)) :=
  _check_shape t.(self) x ;;;
  m <- broadcast2 scale t.(_a) (map np_tanh x) ;;
  broadcast2 shift t.(_b) m.

Definition cmp_attr (f : float -> float -> bool) (y : ndarray64)
    (bound : option ndarray64) : result (list bool) :=
  match bound with
  | Some b => broadcast2 f y b
  | None => Raise TypeError
  end.

(** The range test, then [np.arctanh((y - self._b) / self._a)]. *)
Definition TanhBound_backward (t : TanhBoundT) (y : ndarray64)
  : result (list libm_value) :=
  _check_shape t.(self) y ;;;
  out <- py_or (gt <- cmp_attr (fun v h => h <? v) y t.(self).(a_max) ;;
                Ok (any gt))
               (lt <- cmp_attr ltb y t.(self).(a_min) ;; Ok (any lt)) ;;
  if (out : bool) then Raise ValueError
  else
    d <- broadcast2 sub y t.(_b) ;;
    q <- broadcast2 div d t.(_a) ;;
    Ok (map np_arctanh q).

End Transforms64.

(** ** Vocabulary of further statements *)

Module ExtraSpec.
Import Transforms TransformsSpec.
Local Open Scope R_scope.

(** The transforms as the constructors return them when the bounds given
    have one shape: any [Affine], [Exponentiate] and [CumulativeDensity],
    [TanhBound] and [ArctanBound] with two bounds of equal length,
    [Clipping] with one bound or two bounds of equal length, and [Reverted]
    of these. *)
Inductive uniform : Transform -> Prop :=
| uni_Affine (a b : fnum) (t : Transform) :
    Affine a b = Ok t -> uniform t
| uni_Exponentiate (base coeff : fnum) (t : Transform) :
    Exponentiate base coeff = Ok t -> uniform t
| uni_TanhBound (a_min a_max : bound_arg) (t : Transform) :
    length (as_array a_min) = length (as_array a_max) ->
    TanhBound (Some a_min) (Some a_max) = Ok t -> uniform t
| uni_ArctanBound (a_min a_max : bound_arg) (t : Transform) :
    length (as_array a_min) = length (as_array a_max) ->
    ArctanBound (Some a_min) (Some a_max) = Ok t -> uniform t
| uni_Clipping (a_min a_max : option bound_arg) (t : Transform) :
    match a_min, a_max with
    | Some lo, Some hi => length (as_array lo) = length (as_array hi)
    | _, _ => True
    end ->
    Clipping a_min a_max = Ok t -> uniform t
| uni_CumulativeDensity (t : Transform) :
    CumulativeDensity = Ok t -> uniform t
| uni_Reverted (T t : Transform) :
    uniform T -> Reverted T = Ok t -> uniform t.

(** No element is NaN (infinite elements are allowed). *)
Definition no_nan (x : ndarray) : Prop := Forall (fun v => v <> NaN) x.

End ExtraSpec.

(** * Properties *)

(** ** The ask/tell protocol *)

Module OptimizationFacts.
Import Optimization.
Local Open Scope Q_scope.

Lemma coerce_loss_accepted (loss : pyvalue) :
  accepted_loss loss = true -> exists value, Base.coerce_loss loss = Ok value.
Proof.
  destruct loss; simpl; intros H; try discriminate; eauto.
Qed.

Lemma coerce_loss_rejected (loss : pyvalue) :
  accepted_loss loss = false -> Base.coerce_loss loss = Raise TypeError.
Proof.
  destruct loss; simpl; intros H; try discriminate; reflexivity.
Qed.

(** C8. [tell] succeeds for a loss that is a bool, an int, a float or a
    numpy integer or floating scalar (given a candidate of the right
    dimension) and counts the tell; for any other loss it raises a type
    error and returns the optimizer unchanged.  The nine cases of
    [test_tell_types] pass. *)
Theorem tell_loss_type_gate :
  forall (S : Type) (strategy : Base.Strategy S) (self : Base.Optimizer S)
         (candidate : Candidate) (loss : pyvalue),
    (accepted_loss loss = true ->
     length candidate.(data) = self.(Base.dimension) ->
     exists self',
       Base.tell strategy self candidate loss = (self', Ok tt)
       /\ self'.(Base._num_tell) = Datatypes.S self.(Base._num_tell))
    /\ (accepted_loss loss = false ->
        Base.tell strategy self candidate loss = (self, Raise TypeError))
    /\ forallb (fun c => test_tell_types (fst c) (snd c)) tell_types_cases
       = true.
Proof.
  intros S strategy self candidate loss. split; [|split].
  - intros Hacc Hdim.
    destruct (coerce_loss_accepted loss Hacc) as [value Hv].
    unfold Base.tell. rewrite Hv, Hdim, Nat.eqb_refl. simpl.
    eexists. split; reflexivity.
  - intros Hrej. unfold Base.tell.
    rewrite (coerce_loss_rejected loss Hrej). reflexivity.
  - vm_compute. reflexivity.
Qed.

Lemma tell_loss_type_gate_witness :
  (exists self',
     Base.tell LoggingOptimizer_strategy (LoggingOptimizer 1)
       (mkCandidate [0]) (NpInt32 3) = (self', Ok tt)
     /\ self'.(Base._num_tell) = 1%nat)
  /\ Base.tell LoggingOptimizer_strategy (LoggingOptimizer 1)
       (mkCandidate [0]) (PyComplex 0 1)
     = (LoggingOptimizer 1, Raise TypeError).
Proof.
  split.
  - apply (proj1 (tell_loss_type_gate _ LoggingOptimizer_strategy
                    (LoggingOptimizer 1) (mkCandidate [0]) (NpInt32 3)));
      reflexivity.
  - apply (proj1 (proj2 (tell_loss_type_gate _ LoggingOptimizer_strategy
                    (LoggingOptimizer 1) (mkCandidate [0]) (PyComplex 0 1))));
      reflexivity.
Defined.

(** The schedule of [minimize] does not depend on the values the fitness
    function returns: the four cases of the test pass as they are
    written. *)
Lemma test_batch_and_steady_optimization_passes :
  forallb test_batch_and_steady_optimization
    [w1_batch; w1_steady; w3_batch; w3_steady] = true.
Proof. vm_compute. reflexivity. Qed.

(** C9. With a budget of 5, whatever the fitness function and the mode,
    [minimize] returns and the optimizer logs the strict alternation
    s0,u0,...,s4,u4 with one worker, and s0,s1,s2,u0,u1,u2,s3,s4,u3,u4 with
    three workers ([s] for an ask, [u] for a tell). *)
Theorem minimize_interleavings :
  forall (func : point -> Q) (batch_mode : bool),
    batch_and_steady_logs func 1 batch_mode
    = ["s0"; "u0"; "s1"; "u1"; "s2"; "u2"; "s3"; "u3"; "s4"; "u4"]%string
    /\ batch_and_steady_logs func 3 batch_mode
       = ["s0"; "s1"; "s2"; "u0"; "u1"; "u2"; "s3"; "s4"; "u3"; "u4"]%string
    /\ succeeds (snd (Base.minimize LoggingOptimizer_strategy
                        (LoggingOptimizer 1) func None None batch_mode))
    /\ succeeds (snd (Base.minimize LoggingOptimizer_strategy
                        (LoggingOptimizer 3) func None None batch_mode)).
Proof.
  intros func batch_mode. split; [|split; [|split]].
  - vm_compute; reflexivity.
  - vm_compute; reflexivity.
  - eexists; vm_compute; reflexivity.
  - eexists; vm_compute; reflexivity.
Qed.

(** The repository's test expects something else of the optimizer it
    runs: line 95 of [test_base_optimizer] asserts that the recommendation
    after the four tells is the second point.  The protocol as the spec
    words it (the archive keeps the lowest loss of a point, the best changes
    only for a strictly lower loss) keeps recommending the first point, and
    so fails that assertion. *)
Lemma SpecZero_fails_test_base_optimizer :
  recommendation_after SpecZero second_tells = Some first_point
  /\ test_base_optimizer SpecZero = false.
Proof. split; vm_compute; reflexivity. Qed.

(** *** The recommendation of the protocol the spec describes *)








Section Recommendation.

Context {S : Type} (strategy : Base.Strategy S).



End Recommendation.



End OptimizationFacts.

(** ** Transforms *)

Module TransformsFacts.
Import Transforms TransformsSpec ExtraSpec.
Local Open Scope R_scope.

(** *** Floats *)

Lemma f_lt_fin (a b : R) : f_lt (Fin a) (Fin b) = true <-> a < b.
Proof. simpl. destruct (Rlt_dec a b); split; intros; auto; discriminate. Qed.

Lemma f_le_fin (a b : R) : f_le (Fin a) (Fin b) = true <-> a <= b.
Proof. simpl. destruct (Rle_dec a b); split; intros; auto; discriminate. Qed.

Lemma f_lt_fin_false (a b : R) : f_lt (Fin a) (Fin b) = false <-> b <= a.
Proof.
  simpl. destruct (Rlt_dec a b); split; intros; auto; try discriminate; lra.
Qed.

Lemma f_truth_false (a : fnum) : f_truth a = false <-> a = Fin 0.
Proof.
  destruct a as [r| | |]; simpl; try (split; discriminate).
  destruct (Req_dec_T r 0) as [->|n]; split; intros H; auto; try discriminate.
  inversion H; contradiction.
Qed.

Lemma f_lt_nan_r (x : fnum) : f_lt x NaN = false.
Proof. destruct x; reflexivity. Qed.

Lemma f_le_nan_r (x : fnum) : f_le x NaN = false.
Proof. destruct x; reflexivity. Qed.

(** *** Broadcasting *)

Lemma broadcast2_equal {A B C : Type} (f : A -> B -> C) x y :
  length x = length y ->
  broadcast2 f x y = Ok (map (fun p => f (fst p) (snd p)) (combine x y)).
Proof. intros H. unfold broadcast2. rewrite H, Nat.eqb_refl. reflexivity. Qed.

Lemma broadcast2_left {A B C : Type} (f : A -> B -> C) a y :
  broadcast2 f [a] y = Ok (map (f a) y).
Proof.
  unfold broadcast2. destruct (Nat.eqb (length [a]) (length y)) eqn:E.
  - apply Nat.eqb_eq in E. destruct y as [|b [|? ?]]; try discriminate E.
    reflexivity.
  - reflexivity.
Qed.

Lemma broadcast2_right {A B C : Type} (f : A -> B -> C) x b :
  broadcast2 f x [b] = Ok (map (fun a => f a b) x).
Proof.
  unfold broadcast2. destruct (Nat.eqb (length x) (length [b])) eqn:E.
  - apply Nat.eqb_eq in E. destruct x as [|a [|? ?]]; try discriminate E.
    reflexivity.
  - destruct x as [|a [|? ?]]; reflexivity.
Qed.

Lemma broadcast2_compatible {A B C : Type} (f : A -> B -> C) x y :
  compatible x y -> succeeds (broadcast2 f x y).
Proof.
  intros [H | [H | H]].
  - rewrite broadcast2_equal by exact H. eexists; reflexivity.
  - destruct x as [|a [|? ?]]; try discriminate H.
    rewrite broadcast2_left. eexists; reflexivity.
  - destruct y as [|b [|? ?]]; try discriminate H.
    rewrite broadcast2_right. eexists; reflexivity.
Qed.

Lemma broadcast2_incompatible {A B C : Type} (f : A -> B -> C) x y :
  ~ compatible x y -> broadcast2 f x y = Raise ValueError.
Proof.
  intros H. unfold broadcast2.
  destruct (Nat.eqb (length x) (length y)) eqn:E.
  - apply Nat.eqb_eq in E. exfalso. apply H. left. exact E.
  - destruct x as [|a [|? ?]]; destruct y as [|b [|? ?]]; try reflexivity;
      exfalso; apply H; unfold compatible; simpl; auto.
Qed.

Lemma broadcast2_raises {A B C : Type} (f : A -> B -> C) x y e :
  broadcast2 f x y = Raise e -> e = ValueError.
Proof.
  unfold broadcast2. destruct (Nat.eqb (length x) (length y)).
  - discriminate.
  - destruct x as [|a [|? ?]]; destruct y as [|b [|? ?]];
      intros H; try discriminate H; inversion H; reflexivity.
Qed.

Lemma nth_combine_map {A B C : Type} (f : A -> B -> C) :
  forall x y i da db dc,
    length x = length y -> (i < length x)%nat ->
    nth i (map (fun p => f (fst p) (snd p)) (combine x y)) dc
    = f (nth i x da) (nth i y db).
Proof.
  induction x as [|a x IH]; intros y i da db dc Hl Hi; simpl in *; [lia|].
  destruct y as [|b y]; [discriminate|]. simpl.
  destruct i as [|i]; [reflexivity|].
  apply IH; simpl in *; lia.
Qed.

(** Element [i] of a broadcast result. *)
Lemma broadcast2_nth {A B C : Type} (f : A -> B -> C) x y z da db dc i :
  broadcast2 f x y = Ok z -> (i < length z)%nat ->
  nth i z dc = f (bnth x i da) (bnth y i db).
Proof.
  unfold broadcast2. destruct (Nat.eqb (length x) (length y)) eqn:E.
  - apply Nat.eqb_eq in E. intros H; inversion H; subst z; clear H.
    rewrite length_map, length_combine, <- E, Nat.min_id. intros Hi.
    rewrite (nth_combine_map f x y i da db dc E Hi).
    destruct x as [|a [|? ?]]; destruct y as [|b [|? ?]];
      simpl in *; try discriminate; try lia; try reflexivity.
    destruct i; [reflexivity | lia].
  - destruct x as [|a [|a' x]].
    + destruct y as [|b [|? ?]]; intros H; try discriminate H.
      inversion H; simpl; lia.
    + intros H; inversion H; subst z; clear H.
      rewrite length_map. intros Hi.
      rewrite (nth_indep _ dc (f a db)) by (rewrite length_map; exact Hi).
      rewrite map_nth. simpl bnth at 1.
      destruct y as [|b [|? ?]]; try reflexivity. discriminate E.
    + destruct y as [|b [|? ?]]; intros H; try discriminate H.
      inversion H; subst z; clear H. intros Hi.
      change (f a b :: f a' b :: map (fun a0 : A => f a0 b) x)
        with (map (fun a0 : A => f a0 b) (a :: a' :: x)) in *.
      rewrite (nth_indep _ dc ((fun a0 => f a0 b) da)) by exact Hi.
      rewrite (map_nth (fun a0 => f a0 b)). reflexivity.
Qed.

Lemma broadcast2_length_left {A B C : Type} (f : A -> B -> C) x y z :
  broadcast2 f x y = Ok z ->
  length y = length x \/ length y = 1%nat -> length z = length x.
Proof.
  intros H [Hl | Hl].
  - rewrite broadcast2_equal in H by (symmetry; exact Hl).
    inversion H. rewrite length_map, length_combine. lia.
  - destruct y as [|b [|? ?]]; try discriminate Hl.
    rewrite broadcast2_right in H. inversion H. apply length_map.
Qed.

Lemma any_true (b : list bool) :
  any b = true <-> exists i, (i < length b)%nat /\ nth i b false = true.
Proof.
  unfold any. rewrite existsb_exists. split.
  - intros [v [Hin Hv]]. subst v.
    destruct (In_nth b true false Hin) as [i [Hi Hn]]. eauto.
  - intros [i [Hi Hn]]. exists true. split; [|reflexivity].
    rewrite <- Hn. apply nth_In. exact Hi.
Qed.

Section Facts.

Variables norm_cdf_R norm_ppf_R : R -> R.

Local Abbreviation forward := (Transforms.forward norm_cdf_R norm_ppf_R).
Local Abbreviation backward := (Transforms.backward norm_cdf_R norm_ppf_R).

Lemma broadcast2_any {A B : Type} (f : A -> B -> bool) x y z da db :
  broadcast2 f x y = Ok z ->
  (forall b, f da b = false) -> (forall a, f a db = false) ->
  (any z = true <-> exists i, f (bnth x i da) (bnth y i db) = true).
Proof.
  intros H Ha Hb. rewrite any_true. split.
  - intros [i [Hi Hn]]. exists i.
    rewrite <- (broadcast2_nth f x y z da db false i H Hi). exact Hn.
  - intros [i Hf]. destruct (lt_dec i (length z)) as [Hi | Hi].
    + exists i. split; [exact Hi|].
      rewrite (broadcast2_nth f x y z da db false i H Hi). exact Hf.
    + unfold broadcast2 in H.
      destruct (Nat.eqb (length x) (length y)) eqn:E.
      * apply Nat.eqb_eq in E. injection H as Hz; subst z.
        rewrite length_map, length_combine, <- E, Nat.min_id in Hi.
        destruct x as [|a [|a' x]].
        -- simpl in Hf. destruct i; rewrite Ha in Hf; discriminate.
        -- destruct y as [|b [|? ?]]; try discriminate E.
           exists 0%nat. split; [simpl; lia | exact Hf].
        -- exfalso. unfold bnth at 1 in Hf. rewrite nth_overflow in Hf by lia.
           rewrite Ha in Hf. discriminate.
      * exfalso. destruct x as [|a [|a' x]].
        -- simpl in Hf. destruct i; rewrite Ha in Hf; discriminate.
        -- injection H as Hz; subst z. rewrite length_map in Hi.
           assert (bnth y i db = db) as Hy.
           { destruct y as [|b [|b' y]]; [destruct i; reflexivity | discriminate E |].
             unfold bnth. apply nth_overflow. lia. }
           rewrite Hy, Hb in Hf. discriminate.
        -- destruct y as [|b [|? ?]]; try discriminate H.
           injection H as Hz; subst z. simpl in Hi. rewrite length_map in Hi.
           unfold bnth at 1 in Hf. rewrite nth_overflow in Hf by (simpl; lia).
           rewrite Ha in Hf. discriminate.
Qed.

(** *** Reverted *)

(** C4. [T.reverted().reverted()] has the forward and the backward of [T],
    on every input. *)
Theorem reverted_involution :
  forall (T : Transform) (x : ndarray),
    forward (reverted (reverted T)) x = forward T x
    /\ backward (reverted (reverted T)) x = backward T x.
Proof. intros T x. split; reflexivity. Qed.

(** *** Construction *)

Lemma f_ge_nan_l (b : fnum) : f_ge NaN b = false.
Proof. destruct b; reflexivity. Qed.

Lemma f_ge_nan_r (a : fnum) : f_ge a NaN = false.
Proof. destruct a; reflexivity. Qed.

Lemma BoundTransform_init_raises a_min a_max :
  missing_both a_min a_max \/ bounds_conflict a_min a_max ->
  BoundTransform_init a_min a_max = Raise ValueError.
Proof.
  unfold BoundTransform_init, missing_both, bounds_conflict.
  destruct a_min as [lo|], a_max as [hi|]; simpl;
    intros [[H1 H2] | H]; try discriminate; try contradiction; try reflexivity.
  destruct (broadcast2 f_ge (as_array lo) (as_array hi)) as [ge|e] eqn:E.
  - simpl.
    apply (broadcast2_any f_ge _ _ _ NaN NaN E f_ge_nan_l f_ge_nan_r) in H.
    rewrite H. reflexivity.
  - simpl. apply broadcast2_raises in E. subst e. reflexivity.
Qed.

(** Bounds whose shapes numpy cannot broadcast: the comparison
    [a_min >= a_max] itself raises the value error. *)
Lemma BoundTransform_init_incompatible lo hi :
  ~ compatible (as_array lo) (as_array hi) ->
  BoundTransform_init (Some lo) (Some hi) = Raise ValueError.
Proof.
  intros H. unfold BoundTransform_init. simpl.
  rewrite (broadcast2_incompatible f_ge _ _ H). reflexivity.
Qed.

Lemma BoundTransform_init_ok a_min a_max :
  broadcastable a_min a_max ->
  ~ (missing_both a_min a_max \/ bounds_conflict a_min a_max) ->
  exists self,
    BoundTransform_init a_min a_max = Ok self
    /\ self.(Transforms.a_min) = option_map as_array a_min
    /\ self.(Transforms.a_max) = option_map as_array a_max
    /\ self.(shape) = match a_min, a_max with
                      | Some lo, _ => length (as_array lo)
                      | None, Some hi => length (as_array hi)
                      | None, None => 0%nat
                      end.
Proof.
  unfold BoundTransform_init, missing_both, bounds_conflict, broadcastable.
  destruct a_min as [lo|], a_max as [hi|]; simpl; intros Hc Hn.
  - destruct (broadcast2_compatible f_ge _ _ Hc) as [ge E]. rewrite E. simpl.
    destruct (any ge) eqn:Hany.
    + exfalso. apply Hn. right.
      apply (broadcast2_any f_ge _ _ _ NaN NaN E f_ge_nan_l f_ge_nan_r).
      exact Hany.
    + simpl. eexists. repeat split.
  - eexists. repeat split.
  - eexists. repeat split.
  - exfalso. apply Hn. left. split; reflexivity.
Qed.

Lemma TanhBound_ok a_min a_max :
  broadcastable a_min a_max ->
  ~ (missing_one a_min a_max \/ bounds_conflict a_min a_max) ->
  exists lo hi s d,
    a_min = Some lo /\ a_max = Some hi
    /\ broadcast2 fadd (as_array hi) (as_array lo) = Ok s
    /\ broadcast2 fsub (as_array hi) (as_array lo) = Ok d
    /\ TanhBound a_min a_max
       = Ok (TanhBoundT
               (mkBoundTransform (Some (as_array lo)) (Some (as_array hi))
                                 (length (as_array lo)))
               (map (fmul half) s) (map (fmul half) d))
    /\ ArctanBound a_min a_max
       = Ok (ArctanBoundT
               (mkBoundTransform (Some (as_array lo)) (Some (as_array hi))
                                 (length (as_array lo)))
               (map (fmul half) s) (map (fun v => fdiv v (Fin PI)) d)).
Proof.
  intros Hc Hn.
  destruct a_min as [lo|]; [|exfalso; apply Hn; left; left; reflexivity].
  destruct a_max as [hi|]; [|exfalso; apply Hn; left; right; reflexivity].
  destruct (BoundTransform_init_ok (Some lo) (Some hi) Hc)
    as (self & Hs & Hlo & Hhi & Hsh).
  { intros [[H _] | H]; [discriminate|]. apply Hn. right. exact H. }
  assert (compatible (as_array hi) (as_array lo)) as Hc'.
  { destruct Hc as [H | [H | H]]; unfold compatible; auto. }
  destruct (broadcast2_compatible fadd _ _ Hc') as [s Es].
  destruct (broadcast2_compatible fsub _ _ Hc') as [d Ed].
  exists lo, hi, s, d. repeat split; try assumption.
  - unfold TanhBound. rewrite Hs. simpl. rewrite Hlo, Hhi. simpl.
    rewrite Es, Ed. simpl. destruct self; simpl in *; subst. reflexivity.
  - unfold ArctanBound. rewrite Hs. simpl. rewrite Hlo, Hhi. simpl.
    rewrite Es, Ed. simpl. destruct self; simpl in *; subst. reflexivity.
Qed.

Lemma TanhBound_raises a_min a_max :
  missing_one a_min a_max \/ bounds_conflict a_min a_max ->
  TanhBound a_min a_max = Raise ValueError
  /\ ArctanBound a_min a_max = Raise ValueError.
Proof.
  intros H. unfold TanhBound, ArctanBound.
  destruct (BoundTransform_init a_min a_max) as [self|e] eqn:E.
  - destruct a_min as [lo|], a_max as [hi|].
    + destruct H as [[H | H] | H]; try discriminate.
      rewrite BoundTransform_init_raises in E by (right; exact H).
      discriminate.
    + unfold BoundTransform_init in E. simpl in E. inversion E. split; reflexivity.
    + unfold BoundTransform_init in E. simpl in E. inversion E. split; reflexivity.
    + unfold BoundTransform_init in E. simpl in E. discriminate.
  - simpl. assert (e = ValueError) as ->; [|split; reflexivity].
    unfold BoundTransform_init in E.
    destruct a_min as [lo|], a_max as [hi|]; simpl in E; try discriminate;
      try (inversion E; reflexivity).
    destruct (broadcast2 f_ge (as_array lo) (as_array hi)) as [ge|e'] eqn:Eg;
      simpl in E.
    + destruct (any ge); simpl in E; inversion E; reflexivity.
    + apply broadcast2_raises in Eg. subst e'. inversion E; reflexivity.
Qed.

Lemma compatible_dec {A B : Type} (x : list A) (y : list B) :
  compatible x y \/ ~ compatible x y.
Proof.
  unfold compatible.
  destruct (Nat.eq_dec (length x) (length y)); [auto|].
  destruct (Nat.eq_dec (length x) 1); [auto|].
  destruct (Nat.eq_dec (length y) 1); [auto|].
  right. intros [H | [H | H]]; contradiction.
Qed.

Lemma broadcastable_dec a_min a_max :
  broadcastable a_min a_max \/ ~ broadcastable a_min a_max.
Proof.
  unfold broadcastable. destruct a_min, a_max; auto. apply compatible_dec.
Qed.

Lemma not_broadcastable_raises a_min a_max :
  ~ broadcastable a_min a_max ->
  BoundTransform_init a_min a_max = Raise ValueError.
Proof.
  unfold broadcastable. destruct a_min as [lo|], a_max as [hi|]; intros H;
    try (exfalso; apply H; exact I).
  apply BoundTransform_init_incompatible. exact H.
Qed.

(** C5, with the configuration the list leaves out.  Construction raises a
    value error in these configurations and only in them: [Affine] with
    [a == 0]; a bound-based transform with no bound at all, with
    [a_min >= a_max] at some element, or with two bounds whose shapes numpy
    cannot broadcast; [TanhBound] and [ArctanBound] also with one bound
    missing.  A construction that raises returns no object; in every other
    configuration the object is returned. *)
Theorem construction_errors :
  (forall a b : fnum,
     (a = Fin 0 -> Affine a b = Raise ValueError)
     /\ (a <> Fin 0 -> Affine a b = Ok (AffineT a b)))
  /\ (forall a_min a_max : option bound_arg,
        (invalid_bounds a_min a_max ->
         BoundTransform_init a_min a_max = Raise ValueError
         /\ Clipping a_min a_max = Raise ValueError)
        /\ (invalid_two_bounds a_min a_max ->
            TanhBound a_min a_max = Raise ValueError
            /\ ArctanBound a_min a_max = Raise ValueError)
        /\ (~ invalid_bounds a_min a_max ->
            succeeds (BoundTransform_init a_min a_max)
            /\ succeeds (Clipping a_min a_max))
        /\ (~ invalid_two_bounds a_min a_max ->
            succeeds (TanhBound a_min a_max)
            /\ succeeds (ArctanBound a_min a_max))).
Proof.
  split.
  - intros a b. unfold Affine. split; intros H.
    + apply f_truth_false in H. rewrite H. reflexivity.
    + destruct (f_truth a) eqn:E; [reflexivity|].
      apply f_truth_false in E. contradiction.
  - intros a_min a_max. unfold invalid_bounds, invalid_two_bounds.
    split; [|split; [|split]].
    + intros H. unfold Clipping.
      assert (BoundTransform_init a_min a_max = Raise ValueError) as E.
      { destruct H as [H | [H | H]].
        - apply BoundTransform_init_raises. left. exact H.
        - apply BoundTransform_init_raises. right. exact H.
        - apply not_broadcastable_raises. exact H. }
      rewrite E. split; reflexivity.
    + intros [H | [H | H]].
      * apply TanhBound_raises. left. exact H.
      * apply TanhBound_raises. right. exact H.
      * unfold TanhBound, ArctanBound.
        rewrite (not_broadcastable_raises _ _ H). split; reflexivity.
    + intros Hn.
      destruct (broadcastable_dec a_min a_max) as [Hc | Hc]; [|tauto].
      destruct (BoundTransform_init_ok a_min a_max Hc) as (self & Hs & _);
        [tauto|].
      unfold Clipping. rewrite Hs. split; eexists; reflexivity.
    + intros Hn.
      destruct (broadcastable_dec a_min a_max) as [Hc | Hc]; [|tauto].
      destruct (TanhBound_ok a_min a_max Hc)
        as (lo & hi & s & d & _ & _ & _ & _ & Ht & Ha); [tauto|].
      rewrite Ht, Ha. split; eexists; reflexivity.
Qed.

(** *** What a successful construction gives *)

Lemma BoundTransform_init_inv a_min a_max self :
  BoundTransform_init a_min a_max = Ok self ->
  self.(Transforms.a_min) = option_map as_array a_min
  /\ self.(Transforms.a_max) = option_map as_array a_max
  /\ self.(shape) = match a_min, a_max with
                    | Some lo, _ => length (as_array lo)
                    | None, Some hi => length (as_array hi)
                    | None, None => 0%nat
                    end
  /\ ~ missing_both a_min a_max
  /\ match a_min, a_max with
     | Some lo, Some hi =>
         exists ge, broadcast2 f_ge (as_array lo) (as_array hi) = Ok ge
                    /\ any ge = false
     | _, _ => True
     end.
Proof.
  unfold BoundTransform_init, missing_both.
  destruct a_min as [lo|], a_max as [hi|]; simpl; intros H.
  - destruct (broadcast2 f_ge (as_array lo) (as_array hi)) as [ge|e] eqn:E;
      simpl in H; [|discriminate].
    destruct (any ge) eqn:Hany; simpl in H; [discriminate|].
    injection H as <-. simpl. repeat split; try reflexivity.
    + intros [? ?]; discriminate.
    + exists ge. split; [reflexivity | exact Hany].
  - injection H as <-. simpl. repeat split; auto. intros [? ?]; discriminate.
  - injection H as <-. simpl. repeat split; auto. intros [? ?]; discriminate.
  - discriminate.
Qed.

Lemma TanhBound_inv a_min a_max t :
  TanhBound a_min a_max = Ok t ->
  exists lo hi ge s d,
    a_min = Some lo /\ a_max = Some hi
    /\ broadcast2 f_ge (as_array lo) (as_array hi) = Ok ge /\ any ge = false
    /\ broadcast2 fadd (as_array hi) (as_array lo) = Ok s
    /\ broadcast2 fsub (as_array hi) (as_array lo) = Ok d
    /\ t = TanhBoundT
             (mkBoundTransform (Some (as_array lo)) (Some (as_array hi))
                               (length (as_array lo)))
             (map (fmul half) s) (map (fmul half) d).
Proof.
  unfold TanhBound. intros H.
  destruct (BoundTransform_init a_min a_max) as [self|e] eqn:E;
    simpl in H; [|discriminate].
  destruct (BoundTransform_init_inv _ _ _ E) as (Hlo & Hhi & Hsh & _ & Hge).
  rewrite Hlo, Hhi in H.
  destruct a_min as [lo|]; simpl in H; [|discriminate].
  destruct a_max as [hi|]; simpl in H; [|discriminate].
  destruct Hge as (ge & Hge & Hany).
  destruct (broadcast2 fadd (as_array hi) (as_array lo)) as [s|] eqn:Es;
    simpl in H; [|discriminate].
  destruct (broadcast2 fsub (as_array hi) (as_array lo)) as [d|] eqn:Ed;
    simpl in H; [|discriminate].
  injection H as <-. exists lo, hi, ge, s, d.
  destruct self; simpl in *; subst. repeat split; auto.
Qed.

Lemma ArctanBound_inv a_min a_max t :
  ArctanBound a_min a_max = Ok t ->
  exists lo hi ge s d,
    a_min = Some lo /\ a_max = Some hi
    /\ broadcast2 f_ge (as_array lo) (as_array hi) = Ok ge /\ any ge = false
    /\ broadcast2 fadd (as_array hi) (as_array lo) = Ok s
    /\ broadcast2 fsub (as_array hi) (as_array lo) = Ok d
    /\ t = ArctanBoundT
             (mkBoundTransform (Some (as_array lo)) (Some (as_array hi))
                               (length (as_array lo)))
             (map (fmul half) s) (map (fun v => fdiv v (Fin PI)) d).
Proof.
  unfold ArctanBound. intros H.
  destruct (BoundTransform_init a_min a_max) as [self|e] eqn:E;
    simpl in H; [|discriminate].
  destruct (BoundTransform_init_inv _ _ _ E) as (Hlo & Hhi & Hsh & _ & Hge).
  rewrite Hlo, Hhi in H.
  destruct a_min as [lo|]; simpl in H; [|discriminate].
  destruct a_max as [hi|]; simpl in H; [|discriminate].
  destruct Hge as (ge & Hge & Hany).
  destruct (broadcast2 fadd (as_array hi) (as_array lo)) as [s|] eqn:Es;
    simpl in H; [|discriminate].
  destruct (broadcast2 fsub (as_array hi) (as_array lo)) as [d|] eqn:Ed;
    simpl in H; [|discriminate].
  injection H as <-. exists lo, hi, ge, s, d.
  destruct self; simpl in *; subst. repeat split; auto.
Qed.

Lemma Clipping_inv a_min a_max t :
  Clipping a_min a_max = Ok t ->
  exists self, BoundTransform_init a_min a_max = Ok self /\ t = ClippingT self.
Proof.
  unfold Clipping. intros H.
  destruct (BoundTransform_init a_min a_max) as [self|e]; simpl in H;
    [|discriminate].
  injection H as <-. exists self. split; reflexivity.
Qed.

(** *** Shapes *)

Lemma _check_shape_mismatch (self : BoundTransform) (x : ndarray) :
  self.(shape) <> 1%nat -> ashape x <> self.(shape) ->
  _check_shape self x = Raise ValueError.
Proof.
  intros H1 H2. unfold _check_shape.
  apply Nat.eqb_neq in H1. apply Nat.eqb_neq in H2. rewrite H1, H2.
  reflexivity.
Qed.

Lemma _check_shape_singleton (self : BoundTransform) (x : ndarray) :
  self.(shape) = 1%nat -> _check_shape self x = Ok tt.
Proof. intros H. unfold _check_shape. rewrite H. reflexivity. Qed.

Lemma _check_shape_equal (self : BoundTransform) (x : ndarray) :
  ashape x = self.(shape) -> _check_shape self x = Ok tt.
Proof.
  intros H. unfold _check_shape. rewrite H, Nat.eqb_refl, andb_false_r.
  reflexivity.
Qed.

Lemma singleton_inv (l : ndarray) : length l = 1%nat -> exists v, l = [v].
Proof. destruct l as [|v [|? ?]]; try discriminate. eauto. Qed.

Lemma TanhBound_forward_singleton self b a x :
  self.(shape) = 1%nat -> succeeds (TanhBound_forward self [b] [a] x).
Proof.
  intros H. unfold TanhBound_forward.
  rewrite (_check_shape_singleton _ _ H). simpl.
  rewrite broadcast2_left. simpl. rewrite broadcast2_left.
  eexists; reflexivity.
Qed.

Lemma ArctanBound_forward_singleton self b a x :
  self.(shape) = 1%nat -> succeeds (ArctanBound_forward self [b] [a] x).
Proof.
  intros H. unfold ArctanBound_forward.
  rewrite (_check_shape_singleton _ _ H). simpl.
  rewrite broadcast2_left. simpl. rewrite broadcast2_left.
  eexists; reflexivity.
Qed.

Lemma forward_singleton_bounds a_min a_max t x :
  singleton_bounds a_min a_max ->
  TanhBound a_min a_max = Ok t \/ ArctanBound a_min a_max = Ok t
  \/ Clipping a_min a_max = Ok t ->
  succeeds (forward t x).
Proof.
  intros [Hlo Hhi] [H | [H | H]].
  - destruct (TanhBound_inv _ _ _ H)
      as (lo & hi & ge & s & d & -> & -> & _ & _ & Hs & Hd & ->).
    destruct (singleton_inv _ Hlo) as [l El].
    destruct (singleton_inv _ Hhi) as [h Eh].
    rewrite El, Eh in *. rewrite broadcast2_left in Hs, Hd.
    injection Hs as <-. injection Hd as <-.
    apply TanhBound_forward_singleton. reflexivity.
  - destruct (ArctanBound_inv _ _ _ H)
      as (lo & hi & ge & s & d & -> & -> & _ & _ & Hs & Hd & ->).
    destruct (singleton_inv _ Hlo) as [l El].
    destruct (singleton_inv _ Hhi) as [h Eh].
    rewrite El, Eh in *. rewrite broadcast2_left in Hs, Hd.
    injection Hs as <-. injection Hd as <-.
    apply ArctanBound_forward_singleton. reflexivity.
  - destruct (Clipping_inv _ _ _ H) as (self & Hs & ->).
    destruct (BoundTransform_init_inv _ _ _ Hs) as (Elo & Ehi & Esh & Hnb & _).
    simpl. unfold Clipping_forward.
    assert (self.(shape) = 1%nat) as Hsh.
    { rewrite Esh. destruct a_min as [lo|]; [exact Hlo|].
      destruct a_max as [hi|]; [exact Hhi|].
      exfalso. apply Hnb. split; reflexivity. }
    rewrite (_check_shape_singleton _ _ Hsh). simpl.
    rewrite Elo, Ehi. unfold np_clip.
    destruct a_min as [lo|], a_max as [hi|]; simpl.
    + destruct (singleton_inv _ Hlo) as [l ->].
      destruct (singleton_inv _ Hhi) as [h ->].
      rewrite broadcast2_right. simpl. rewrite broadcast2_right.
      eexists; reflexivity.
    + destruct (singleton_inv _ Hlo) as [l ->].
      rewrite broadcast2_right. simpl. eexists; reflexivity.
    + destruct (singleton_inv _ Hhi) as [h ->].
      rewrite broadcast2_right. eexists; reflexivity.
    + exfalso. apply Hnb. split; reflexivity.
Qed.


(** *** Reductions on finite arrays *)

Lemma finite_nth (y : ndarray) (i : nat) :
  finite y -> (i < length y)%nat ->
  exists e, nth i y NaN = Fin e /\ In (Fin e) y.
Proof.
  intros Hf Hi. pose proof (nth_In y NaN Hi) as Hin.
  unfold finite in Hf. rewrite Forall_forall in Hf.
  specialize (Hf _ Hin). destruct (nth i y NaN) as [e| | |] eqn:E;
    try contradiction.
  exists e. split; [reflexivity | exact Hin].
Qed.

Lemma fold_fmaximum_fin (r : ndarray) :
  finite r -> forall v,
  exists m, fold_left fmaximum r (Fin v) = Fin m
            /\ v <= m
            /\ (forall e, In (Fin e) r -> e <= m)
            /\ (m = v \/ In (Fin m) r).
Proof.
  induction r as [|x r IH]; intros Hf v.
  - exists v. simpl. repeat split; try lra; auto. intros e [].
  - inversion Hf as [|? ? Hx Hr]; subst. destruct x as [a| | |];
      try contradiction. simpl fold_left.
    assert (exists w, fmaximum (Fin v) (Fin a) = Fin w /\ v <= w /\ a <= w
                      /\ (w = v \/ w = a)) as (w & Ew & Hvw & Haw & Hw).
    { unfold fmaximum. simpl. destruct (Rlt_dec v a).
      - exists a. repeat split; try lra; auto.
      - exists v. repeat split; try lra; auto. }
    rewrite Ew. destruct (IH Hr w) as (m & Em & Hwm & Hall & Hm).
    exists m. repeat split; try assumption; try lra.
    + intros e [He | He]; [injection He as <-; lra | auto].
    + destruct Hm as [-> | Hm]; [|right; right; exact Hm].
      destruct Hw as [-> | ->]; [left; reflexivity | right; left; reflexivity].
Qed.

Lemma fold_fminimum_fin (r : ndarray) :
  finite r -> forall v,
  exists m, fold_left fminimum r (Fin v) = Fin m
            /\ m <= v
            /\ (forall e, In (Fin e) r -> m <= e)
            /\ (m = v \/ In (Fin m) r).
Proof.
  induction r as [|x r IH]; intros Hf v.
  - exists v. simpl. repeat split; try lra; auto. intros e [].
  - inversion Hf as [|? ? Hx Hr]; subst. destruct x as [a| | |];
      try contradiction. simpl fold_left.
    assert (exists w, fminimum (Fin v) (Fin a) = Fin w /\ w <= v /\ w <= a
                      /\ (w = v \/ w = a)) as (w & Ew & Hvw & Haw & Hw).
    { unfold fminimum. simpl. destruct (Rlt_dec a v).
      - exists a. repeat split; try lra; auto.
      - exists v. repeat split; try lra; auto. }
    rewrite Ew. destruct (IH Hr w) as (m & Em & Hwm & Hall & Hm).
    exists m. repeat split; try assumption; try lra.
    + intros e [He | He]; [injection He as <-; lra | auto].
    + destruct Hm as [-> | Hm]; [|right; right; exact Hm].
      destruct Hw as [-> | ->]; [left; reflexivity | right; left; reflexivity].
Qed.

Lemma np_max_finite (y : ndarray) :
  finite y -> y <> [] ->
  exists m, np_max y = Ok (Fin m)
            /\ (forall e, In (Fin e) y -> e <= m) /\ In (Fin m) y.
Proof.
  intros Hf Hne. destruct y as [|x r]; [contradiction|].
  inversion Hf as [|? ? Hx Hr]; subst. destruct x as [v| | |];
    try contradiction.
  destruct (fold_fmaximum_fin r Hr v) as (m & Em & Hvm & Hall & Hm).
  exists m. simpl. rewrite Em. repeat split.
  - intros e [He | He]; [injection He as <-; exact Hvm | auto].
  - destruct Hm as [-> | Hm]; [left; reflexivity | right; exact Hm].
Qed.

Lemma np_min_finite (y : ndarray) :
  finite y -> y <> [] ->
  exists m, np_min y = Ok (Fin m)
            /\ (forall e, In (Fin e) y -> m <= e) /\ In (Fin m) y.
Proof.
  intros Hf Hne. destruct y as [|x r]; [contradiction|].
  inversion Hf as [|? ? Hx Hr]; subst. destruct x as [v| | |];
    try contradiction.
  destruct (fold_fminimum_fin r Hr v) as (m & Em & Hvm & Hall & Hm).
  exists m. simpl. rewrite Em. repeat split.
  - intros e [He | He]; [injection He as <-; exact Hvm | auto].
  - destruct Hm as [-> | Hm]; [left; reflexivity | right; exact Hm].
Qed.

(** *** Reductions on arrays without NaN *)

Lemma finite_no_nan (y : ndarray) : finite y -> no_nan y.
Proof.
  unfold finite, no_nan. apply Forall_impl. intros v Hv E. subst. exact Hv.
Qed.

(** The order of the floats that are not NaN is total. *)
Lemma f_lt_above (h v m : fnum) :
  f_lt h v = true -> f_lt m v = false -> m <> NaN -> f_lt h m = true.
Proof.
  intros H1 H2 Hm.
  destruct h as [a| | |], v as [b| | |], m as [c| | |]; simpl in *;
    try discriminate; try reflexivity; try contradiction;
    repeat match goal with
           | H : (if Rlt_dec ?x ?y then _ else _) = _ |- _ =>
               destruct (Rlt_dec x y); try discriminate
           end;
    try (destruct (Rlt_dec a c); [reflexivity | lra]).
Qed.

Lemma f_lt_below (l v m : fnum) :
  f_lt v l = true -> f_lt v m = false -> m <> NaN -> f_lt m l = true.
Proof.
  intros H1 H2 Hm.
  destruct l as [a| | |], v as [b| | |], m as [c| | |]; simpl in *;
    try discriminate; try reflexivity; try contradiction;
    repeat match goal with
           | H : (if Rlt_dec ?x ?y then _ else _) = _ |- _ =>
               destruct (Rlt_dec x y); try discriminate
           end;
    try (destruct (Rlt_dec c a); [reflexivity | lra]).
Qed.

Lemma fmaximum_spec (u v : fnum) :
  u <> NaN -> v <> NaN ->
  fmaximum u v <> NaN /\ (fmaximum u v = u \/ fmaximum u v = v)
  /\ f_lt (fmaximum u v) u = false /\ f_lt (fmaximum u v) v = false.
Proof.
  intros Hu Hv. unfold fmaximum.
  destruct u as [a| | |], v as [b| | |]; simpl; try contradiction;
    try (destruct (Rlt_dec a b)); simpl;
    repeat split; try discriminate; auto;
    try (destruct (Rlt_dec b a); [lra | reflexivity]);
    try (destruct (Rlt_dec a a); [lra | reflexivity]);
    try (destruct (Rlt_dec b b); [lra | reflexivity]);
    try (destruct (Rlt_dec a b); [lra | reflexivity]).
Qed.

Lemma fminimum_spec (u v : fnum) :
  u <> NaN -> v <> NaN ->
  fminimum u v <> NaN /\ (fminimum u v = u \/ fminimum u v = v)
  /\ f_lt u (fminimum u v) = false /\ f_lt v (fminimum u v) = false.
Proof.
  intros Hu Hv. unfold fminimum.
  destruct u as [a| | |], v as [b| | |]; simpl; try contradiction;
    try (destruct (Rlt_dec b a)); simpl;
    repeat split; try discriminate; auto;
    try (destruct (Rlt_dec b a); [lra | reflexivity]);
    try (destruct (Rlt_dec a a); [lra | reflexivity]);
    try (destruct (Rlt_dec b b); [lra | reflexivity]);
    try (destruct (Rlt_dec a b); [lra | reflexivity]).
Qed.

Lemma f_lt_false_trans (m w v : fnum) :
  m <> NaN -> w <> NaN -> v <> NaN ->
  f_lt m w = false -> f_lt w v = false -> f_lt m v = false.
Proof.
  intros Hm Hw Hv H1 H2.
  destruct m as [a| | |], w as [b| | |], v as [c| | |]; simpl in *;
    try discriminate; try reflexivity; try contradiction;
    repeat match goal with
           | H : (if Rlt_dec ?x ?y then _ else _) = _ |- _ =>
               destruct (Rlt_dec x y); try discriminate
           end;
    try (destruct (Rlt_dec a c); [lra | reflexivity]).
Qed.

Lemma fold_fmaximum_no_nan (r : ndarray) :
  no_nan r -> forall v, v <> NaN ->
  exists m, fold_left fmaximum r v = m /\ m <> NaN
            /\ f_lt m v = false
            /\ forall w, In w r -> f_lt m w = false.
Proof.
  induction r as [|x r IH]; intros Hf v Hv.
  - exists v. simpl. repeat split; auto.
    + destruct v as [a| | |]; simpl; try reflexivity; try contradiction.
      destruct (Rlt_dec a a); [lra | reflexivity].
    + intros w [].
  - inversion Hf as [|? ? Hx Hr]; subst. cbn [fold_left].
    destruct (fmaximum_spec v x Hv Hx) as (Hn & _ & H1 & H2).
    destruct (IH Hr (fmaximum v x) Hn) as (m & Em & Hm & Hmv & Hall).
    exists m. split; [exact Em|]. split; [exact Hm|]. split.
    + exact (f_lt_false_trans m _ v Hm Hn Hv Hmv H1).
    + intros w [<- | Hw]; [|exact (Hall w Hw)].
      exact (f_lt_false_trans m _ x Hm Hn Hx Hmv H2).
Qed.

Lemma fold_fminimum_no_nan (r : ndarray) :
  no_nan r -> forall v, v <> NaN ->
  exists m, fold_left fminimum r v = m /\ m <> NaN
            /\ f_lt v m = false
            /\ forall w, In w r -> f_lt w m = false.
Proof.
  induction r as [|x r IH]; intros Hf v Hv.
  - exists v. simpl. repeat split; auto.
    + destruct v as [a| | |]; simpl; try reflexivity; try contradiction.
      destruct (Rlt_dec a a); [lra | reflexivity].
    + intros w [].
  - inversion Hf as [|? ? Hx Hr]; subst. cbn [fold_left].
    destruct (fminimum_spec v x Hv Hx) as (Hn & _ & H1 & H2).
    destruct (IH Hr (fminimum v x) Hn) as (m & Em & Hm & Hmv & Hall).
    exists m. split; [exact Em|]. split; [exact Hm|]. split.
    + exact (f_lt_false_trans v _ m Hv Hn Hm H1 Hmv).
    + intros w [<- | Hw]; [|exact (Hall w Hw)].
      exact (f_lt_false_trans x _ m Hx Hn Hm H2 Hmv).
Qed.

(** [np.max] and [np.min] of a non-empty array without NaN: a value that
    is not NaN and that no element exceeds (goes below). *)
Lemma np_max_no_nan (y : ndarray) :
  no_nan y -> y <> [] ->
  exists m, np_max y = Ok m /\ m <> NaN
            /\ forall w, In w y -> f_lt m w = false.
Proof.
  intros Hf Hne. destruct y as [|x r]; [contradiction|].
  inversion Hf as [|? ? Hx Hr]; subst.
  destruct (fold_fmaximum_no_nan r Hr x Hx) as (m & Em & Hm & Hmx & Hall).
  exists m. simpl. rewrite Em. repeat split; [exact Hm|].
  intros w [<- | Hw]; [exact Hmx | exact (Hall w Hw)].
Qed.

Lemma np_min_no_nan (y : ndarray) :
  no_nan y -> y <> [] ->
  exists m, np_min y = Ok m /\ m <> NaN
            /\ forall w, In w y -> f_lt w m = false.
Proof.
  intros Hf Hne. destruct y as [|x r]; [contradiction|].
  inversion Hf as [|? ? Hx Hr]; subst.
  destruct (fold_fminimum_no_nan r Hr x Hx) as (m & Em & Hm & Hmx & Hall).
  exists m. simpl. rewrite Em. repeat split; [exact Hm|].
  intros w [<- | Hw]; [exact Hmx | exact (Hall w Hw)].
Qed.

Lemma truth_raises (b : list bool) (e : exn) :
  truth b = Raise e -> e = ValueError.
Proof.
  destruct b as [|? [|? ?]]; simpl; intros H; try discriminate.
  injection H as <-. reflexivity.
Qed.

Lemma _check_shape_raises self x e :
  _check_shape self x = Raise e -> e = ValueError.
Proof.
  unfold _check_shape.
  destruct (negb (self.(shape) =? 1)%nat && negb (ashape x =? self.(shape))%nat);
    intros H; [injection H as <-; reflexivity | discriminate].
Qed.

Lemma bnth_nth {A : Type} (a : list A) (i : nat) (d : A) :
  (i < length a)%nat -> bnth a i d = nth i a d.
Proof.
  destruct a as [|v [|? ?]]; simpl; intros H; try reflexivity.
  destruct i; [reflexivity | lia].
Qed.

(** *** Inputs outside the range of a backward map *)

Lemma f_gt_nan_l (b : fnum) : f_gt NaN b = false.
Proof. destruct b; reflexivity. Qed.

Lemma f_gt_nan_r (a : fnum) : f_gt a NaN = false.
Proof. destruct a; reflexivity. Qed.

Lemma f_lt_nan_l (b : fnum) : f_lt NaN b = false.
Proof. reflexivity. Qed.

Lemma above_any (y hi : ndarray) (gt : list bool) :
  broadcast2 f_gt y hi = Ok gt -> above y hi -> any gt = true.
Proof.
  intros H (i & Hi & Hgt).
  apply (broadcast2_any f_gt y hi gt NaN NaN H f_gt_nan_l f_gt_nan_r).
  exists i. rewrite (bnth_nth y i NaN Hi). exact Hgt.
Qed.

Lemma below_any (y lo : ndarray) (lt : list bool) :
  broadcast2 f_lt y lo = Ok lt -> below y lo -> any lt = true.
Proof.
  intros H (i & Hi & Hlt).
  apply (broadcast2_any f_lt y lo lt NaN NaN H f_lt_nan_l f_lt_nan_r).
  exists i. rewrite (bnth_nth y i NaN Hi). exact Hlt.
Qed.

Lemma TanhBound_backward_out_of_range self _b _a lo hi y :
  self.(a_min) = Some lo -> self.(a_max) = Some hi ->
  out_of_range y (Some lo) (Some hi) ->
  TanhBound_backward self _b _a y = Raise ValueError.
Proof.
  intros Hlo Hhi Hout. unfold TanhBound_backward.
  destruct (_check_shape self y) as [u|e] eqn:Ec;
    [|apply _check_shape_raises in Ec; subst; reflexivity].
  simpl. rewrite Hlo, Hhi. unfold py_or, cmp_attr. simpl.
  destruct (broadcast2 f_gt y hi) as [gt|e] eqn:Eg;
    [|apply broadcast2_raises in Eg; subst; reflexivity].
  simpl. destruct (any gt) eqn:Hg; [reflexivity|].
  destruct (broadcast2 f_lt y lo) as [lt|e] eqn:El;
    [|apply broadcast2_raises in El; subst; reflexivity].
  simpl. destruct (any lt) eqn:Hl; [reflexivity|].
  exfalso. destruct Hout as [H | H].
  - rewrite (above_any _ _ _ Eg H) in Hg. discriminate.
  - rewrite (below_any _ _ _ El H) in Hl. discriminate.
Qed.

(** The test [np.max(y) > a_max or np.min(y) < a_min] of
    [ArctanBound.backward] and [Clipping.backward] on an array without NaN
    that has an element out of range: it is true or it raises a value error. *)
Lemma max_min_test_out_of_range (y : ndarray) (lo hi : option ndarray)
    (none : result bool) :
  no_nan y -> out_of_range y lo hi ->
  let test :=
    py_or match hi with
          | None => none
          | Some h => m <- np_max y ;; truth (map (f_gt m) h)
          end
          match lo with
          | None => none
          | Some l => m <- np_min y ;; truth (map (f_lt m) l)
          end in
  (none = Ok false \/ (lo <> None /\ hi <> None)) ->
  test = Ok true \/ test = Raise ValueError.
Proof.
  intros Hf Hout test Hnone.
  assert (y <> []) as Hne.
  { destruct Hout as [H | H].
    - destruct hi; [|contradiction]. destruct H as (i & Hi & _).
      destruct y; [simpl in Hi; lia | discriminate].
    - destruct lo; [|contradiction]. destruct H as (i & Hi & _).
      destruct y; [simpl in Hi; lia | discriminate]. }
  destruct (np_max_no_nan y Hf Hne) as (M & EM & HMn & HM).
  destruct (np_min_no_nan y Hf Hne) as (m & Em & Hmn & Hm).
  assert (forall h, above y [h] -> f_gt M h = true) as Habove.
  { intros h (i & Hi & Hgt). cbn [bnth] in Hgt. unfold f_gt in *.
    apply (f_lt_above h (nth i y NaN) M Hgt); [|exact HMn].
    apply HM. apply nth_In. exact Hi. }
  assert (forall l, below y [l] -> f_lt m l = true) as Hbelow.
  { intros l (i & Hi & Hlt). cbn [bnth] in Hlt.
    apply (f_lt_below l (nth i y NaN) m Hlt); [|exact Hmn].
    apply Hm. apply nth_In. exact Hi. }
  assert (forall i, ~ (f_gt (nth i y NaN) (bnth [] i NaN) = true)) as Hnil1.
  { intros i. simpl. destruct i; rewrite f_gt_nan_r; discriminate. }
  assert (forall i, ~ (f_lt (nth i y NaN) (bnth [] i NaN) = true)) as Hnil2.
  { intros i. simpl. destruct i; rewrite f_lt_nan_r; discriminate. }
  subst test. unfold py_or.
  destruct hi as [h|].
  - rewrite EM. cbn [bind].
    destruct h as [|h0 [|h1 h]].
    + cbn [bind truth map]. destruct lo as [l|].
      * rewrite Em. cbn [bind].
        destruct l as [|l0 [|l1 l]]; cbn [bind truth map]; auto.
        -- exfalso. destruct Hout as [(i & _ & H) | (i & _ & H)].
           ++ exact (Hnil1 i H).
           ++ exact (Hnil2 i H).
        -- destruct Hout as [(i & _ & H) | H]; [exfalso; exact (Hnil1 i H)|].
           rewrite (Hbelow l0 H). auto.
      * destruct Hnone as [-> | [Hn _]]; [|contradiction Hn; reflexivity].
        exfalso. destruct Hout as [(i & _ & H) | []]. exact (Hnil1 i H).
    + cbn [bind truth map]. destruct (f_gt M h0) eqn:Eh; [auto|].
      destruct lo as [l|].
      * rewrite Em. cbn [bind].
        destruct l as [|l0 [|l1 l]]; cbn [bind truth map]; auto.
        -- exfalso. destruct Hout as [H | (i & _ & H)].
           ++ rewrite (Habove h0 H) in Eh. discriminate.
           ++ exact (Hnil2 i H).
        -- destruct Hout as [H | H].
           ++ rewrite (Habove h0 H) in Eh. discriminate.
           ++ rewrite (Hbelow l0 H). auto.
      * destruct Hnone as [-> | [Hn _]]; [|contradiction Hn; reflexivity].
        exfalso. destruct Hout as [H | []].
        rewrite (Habove h0 H) in Eh. discriminate.
    + cbn [bind truth map]. auto.
  - destruct Hnone as [-> | [_ Hn]]; [|contradiction Hn; reflexivity].
    cbn [bind]. destruct lo as [l|].
    + rewrite Em. cbn [bind]. destruct Hout as [[] | H].
      destruct l as [|l0 [|l1 l]]; cbn [bind truth map]; auto.
      * exfalso. destruct H as (i & _ & H). exact (Hnil2 i H).
      * rewrite (Hbelow l0 H). auto.
    + destruct Hout as [[] | []].
Qed.

Lemma ArctanBound_backward_out_of_range self _b _a lo hi y :
  self.(a_min) = Some lo -> self.(a_max) = Some hi ->
  no_nan y -> out_of_range y (Some lo) (Some hi) ->
  ArctanBound_backward self _b _a y = Raise ValueError.
Proof.
  intros Hlo Hhi Hf Hout. unfold ArctanBound_backward.
  destruct (_check_shape self y) as [u|e] eqn:Ec;
    [|apply _check_shape_raises in Ec; subst; reflexivity].
  cbn [bind]. rewrite Hlo, Hhi.
  destruct (max_min_test_out_of_range y (Some lo) (Some hi) (Raise TypeError)
              Hf Hout) as [E | E].
  { right. split; discriminate. }
  - cbv zeta in E. rewrite E. reflexivity.
  - cbv zeta in E. rewrite E. reflexivity.
Qed.

Lemma Clipping_backward_out_of_range self y :
  no_nan y -> out_of_range y self.(a_min) self.(a_max) ->
  Clipping_backward self y = Raise ValueError.
Proof.
  intros Hf Hout. unfold Clipping_backward.
  destruct (_check_shape self y) as [u|e] eqn:Ec;
    [|apply _check_shape_raises in Ec; subst; reflexivity].
  cbn [bind].
  destruct (max_min_test_out_of_range y self.(a_min) self.(a_max) (Ok false)
              Hf Hout) as [E | E].
  { left. reflexivity. }
  - cbv zeta in E. rewrite E. reflexivity.
  - cbv zeta in E. rewrite E. reflexivity.
Qed.

Lemma CumulativeDensity_backward_out_of_range y :
  no_nan y -> out_of_range y (Some [Fin 0]) (Some [Fin 1]) ->
  CumulativeDensity_backward norm_ppf_R y = Raise ValueError.
Proof.
  intros Hf Hout. unfold CumulativeDensity_backward.
  destruct (max_min_test_out_of_range y (Some [Fin 0]) (Some [Fin 1])
              (Ok false) Hf Hout) as [E | E].
  { left. reflexivity. }
  - cbv zeta in E. cbn [map truth] in E. rewrite E. reflexivity.
  - cbv zeta in E. cbn [map truth] in E. rewrite E. reflexivity.
Qed.

Lemma fdiv_nan_l (d : fnum) : fdiv NaN d = NaN.
Proof. destruct d; reflexivity. Qed.

Lemma flog_negative (e : R) : e < 0 -> flog (Fin e) = NaN.
Proof.
  intros H. simpl. destruct (Rlt_dec 0 e); [lra|].
  destruct (Req_dec_T e 0); [lra | reflexivity].
Qed.

Lemma flog_zero : flog (Fin 0) = NInf.
Proof.
  simpl. destruct (Rlt_dec 0 0); [lra|].
  destruct (Req_dec_T 0 0); [reflexivity | lra].
Qed.

Lemma fdiv_ninf_l (d : fnum) : ~ is_fin (fdiv NInf d).
Proof.
  destruct d as [b| | |]; simpl; auto.
  destruct (Req_dec_T b 0); [auto|]. unfold inf_scaled.
  destruct (Rlt_dec 0 b); [auto|]. destruct (Rlt_dec b 0); simpl; auto.
Qed.

(** C7, for the transforms that validate their backward input.
    [TanhBound.backward] raises a value error on every input with an
    element outside the range.  [ArctanBound.backward], [Clipping.backward]
    and [CumulativeDensity.backward], which test [np.max(y)] and
    [np.min(y)], do so on every input without NaN (infinite elements
    included).  [Exponentiate.backward] validates nothing: it returns an
    array of the shape of its input for every input, with NaN where the
    element is negative and an infinity or NaN where it is zero. *)
Theorem backward_out_of_range_raises :
  (forall (a_min a_max : option bound_arg) (t : Transform) (y : ndarray),
     TanhBound a_min a_max = Ok t ->
     out_of_range y (option_map as_array a_min) (option_map as_array a_max) ->
     backward t y = Raise ValueError)
  /\ (forall (a_min a_max : option bound_arg) (t : Transform) (y : ndarray),
        ArctanBound a_min a_max = Ok t \/ Clipping a_min a_max = Ok t ->
        no_nan y ->
        out_of_range y (option_map as_array a_min)
                       (option_map as_array a_max) ->
        backward t y = Raise ValueError)
  /\ (forall y : ndarray,
        no_nan y -> out_of_range y (Some [Fin 0]) (Some [Fin 1]) ->
        backward CumulativeDensityT y = Raise ValueError)
  /\ (forall (base coeff : fnum) (y : ndarray),
        exists z,
          backward (ExponentiateT base coeff) y = Ok z
          /\ length z = length y
          /\ forall i, (i < length y)%nat ->
               (forall e, nth i y NaN = Fin e -> e < 0 -> nth i z NaN = NaN)
               /\ (nth i y NaN = Fin 0 -> ~ is_fin (nth i z NaN))).
Proof.
  split; [|split; [|split]].
  - intros a_min a_max t y H Hout.
    destruct (TanhBound_inv _ _ _ H)
      as (lo & hi & ge & s & d & -> & -> & _ & _ & _ & _ & ->).
    simpl. eapply TanhBound_backward_out_of_range; eauto; reflexivity.
  - intros a_min a_max t y [H | H] Hf Hout.
    + destruct (ArctanBound_inv _ _ _ H)
        as (lo & hi & ge & s & d & -> & -> & _ & _ & _ & _ & ->).
      simpl. eapply ArctanBound_backward_out_of_range; eauto; reflexivity.
    + destruct (Clipping_inv _ _ _ H) as (self & Hs & ->).
      destruct (BoundTransform_init_inv _ _ _ Hs) as (Elo & Ehi & _).
      simpl. apply Clipping_backward_out_of_range; [exact Hf|].
      rewrite Elo, Ehi. exact Hout.
  - intros y Hf Hout. simpl.
    apply CumulativeDensity_backward_out_of_range; assumption.
  - intros base coeff y. cbn [Transforms.backward].
    unfold Exponentiate_backward.
    set (f := fun v => fdiv (flog v) (fmul coeff (flog base))).
    exists (map f y). split; [reflexivity|].
    split; [apply length_map|].
    intros i Hi.
    assert (nth i (map f y) NaN = f (nth i y NaN)) as ->.
    { rewrite (nth_indep (map f y) NaN (f NaN));
        [apply map_nth | rewrite length_map; exact Hi]. }
    unfold f. split.
    + intros e -> He. rewrite (flog_negative e He). apply fdiv_nan_l.
    + intros ->. rewrite flog_zero. apply fdiv_ninf_l.
Qed.


(** *** Elementwise view of valid shapes *)

Lemma valid_shape_index {A : Type} (n : nat) (y : list A) (i : nat) :
  valid_shape n y -> (i < length y)%nat -> valid_index n i.
Proof. unfold valid_shape, valid_index. intros [H | H] Hi; [right | left]; lia. Qed.

Lemma bnth_map {A B : Type} (g : A -> B) (l : list A) (i : nat) d d' :
  valid_index (length l) i -> bnth (map g l) i d' = g (bnth l i d).
Proof.
  intros Hv. destruct l as [|v [|v' l]].
  - destruct Hv as [H | H]; simpl in H; [lia | discriminate].
  - reflexivity.
  - destruct Hv as [H | H]; [|discriminate H].
    change (bnth (map g (v :: v' :: l)) i d')
      with (nth i (map g (v :: v' :: l)) d').
    change (bnth (v :: v' :: l) i d) with (nth i (v :: v' :: l) d).
    rewrite (nth_indep _ d' (g d)) by (rewrite length_map; exact H).
    apply map_nth.
Qed.

Lemma bnth_combine_map {A B C : Type} (f : A -> B -> C) x y i da db dc :
  length x = length y -> valid_index (length x) i ->
  bnth (map (fun p => f (fst p) (snd p)) (combine x y)) i dc
  = f (bnth x i da) (bnth y i db).
Proof.
  intros Hl Hv. destruct x as [|a [|a' x]]; destruct y as [|b [|b' y]];
    try discriminate Hl.
  - destruct Hv as [H | H]; simpl in H; [lia | discriminate].
  - reflexivity.
  - destruct Hv as [H | H]; [|discriminate H].
    change (bnth (a :: a' :: x) i da) with (nth i (a :: a' :: x) da).
    change (bnth (b :: b' :: y) i db) with (nth i (b :: b' :: y) db).
    rewrite <- (nth_combine_map f (a :: a' :: x) (b :: b' :: y) i da db dc Hl H).
    reflexivity.
Qed.

Lemma broadcast2_valid_r {A B C : Type} (f : A -> B -> C) (y : list A)
    (p : list B) :
  valid_shape (length p) y ->
  exists z, broadcast2 f y p = Ok z /\ length z = length y
            /\ forall i da db dc, (i < length y)%nat ->
                 nth i z dc = f (nth i y da) (bnth p i db).
Proof.
  intros Hv.
  assert (compatible y p) as Hc.
  { destruct Hv as [H | H]; unfold compatible; auto. }
  destruct (broadcast2_compatible f y p Hc) as [z Hz].
  assert (length z = length y) as Hl.
  { apply (broadcast2_length_left f y p z Hz).
    destruct Hv as [H | H]; auto. }
  exists z. repeat split; try assumption.
  intros i da db dc Hi.
  rewrite (broadcast2_nth f y p z da db dc i Hz) by lia.
  rewrite (bnth_nth y i da Hi). reflexivity.
Qed.

Lemma broadcast2_flip {A B C : Type} (f : A -> B -> C) (x : list A)
    (y : list B) :
  broadcast2 f x y = broadcast2 (fun b a => f a b) y x.
Proof.
  unfold broadcast2. rewrite (Nat.eqb_sym (length y) (length x)).
  destruct (Nat.eqb (length x) (length y)) eqn:E.
  - apply Nat.eqb_eq in E. f_equal. revert y E.
    induction x as [|a x IH]; intros [|b y] E; try discriminate E;
      [reflexivity|]. simpl. f_equal. apply IH. simpl in E. lia.
  - destruct x as [|a [|a' x]]; destruct y as [|b [|b' y]];
      try reflexivity; simpl in E; discriminate.
Qed.

Lemma broadcast2_valid_l {A B C : Type} (f : A -> B -> C) (p : list A)
    (y : list B) :
  valid_shape (length p) y ->
  exists z, broadcast2 f p y = Ok z /\ length z = length y
            /\ forall i da db dc, (i < length y)%nat ->
                 nth i z dc = f (bnth p i da) (nth i y db).
Proof.
  intros Hv. rewrite broadcast2_flip.
  destruct (broadcast2_valid_r (fun b a => f a b) y p Hv) as (z & Hz & Hl & Hn).
  exists z. repeat split; try assumption.
  intros i da db dc Hi. apply Hn. exact Hi.
Qed.

Lemma any_false_above (y hi : ndarray) (gt : list bool) :
  broadcast2 f_gt y hi = Ok gt -> valid_shape (length hi) y ->
  any gt = true -> above y hi.
Proof.
  intros H Hv Hany. apply any_true in Hany. destruct Hany as (i & Hi & Hn).
  destruct (broadcast2_valid_r f_gt y hi Hv) as (z & Hz & Hl & Hnth).
  rewrite H in Hz. injection Hz as <-. rewrite Hl in Hi.
  exists i. split; [exact Hi|].
  rewrite <- (Hnth i NaN NaN false Hi). exact Hn.
Qed.

Lemma any_false_below (y lo : ndarray) (lt : list bool) :
  broadcast2 f_lt y lo = Ok lt -> valid_shape (length lo) y ->
  any lt = true -> below y lo.
Proof.
  intros H Hv Hany. apply any_true in Hany. destruct Hany as (i & Hi & Hn).
  destruct (broadcast2_valid_r f_lt y lo Hv) as (z & Hz & Hl & Hnth).
  rewrite H in Hz. injection Hz as <-. rewrite Hl in Hi.
  exists i. split; [exact Hi|].
  rewrite <- (Hnth i NaN NaN false Hi). exact Hn.
Qed.

(** *** Transforms built from finite bounds of one shape *)

Lemma combine_map_Fin (f : fnum -> fnum -> fnum) (g : R -> R -> R) :
  (forall a b, f (Fin a) (Fin b) = Fin (g a b)) ->
  forall x y,
    map (fun p => f (fst p) (snd p)) (combine (map Fin x) (map Fin y))
    = map Fin (map (fun p => g (fst p) (snd p)) (combine x y)).
Proof.
  intros Hfg. induction x as [|a x IH]; intros [|b y]; simpl; try reflexivity.
  rewrite Hfg, IH. reflexivity.
Qed.

Lemma PI_neq0' : PI <> 0.
Proof. pose proof PI_RGT_0. lra. Qed.

Lemma bounds_ordered (lo hi : list R) (ge : list bool) :
  length lo = length hi ->
  broadcast2 f_ge (map Fin lo) (map Fin hi) = Ok ge -> any ge = false ->
  forall i, valid_index (length lo) i -> bnth lo i 0 < bnth hi i 0.
Proof.
  intros Hl Hge Hany i Hv.
  destruct (Rlt_dec (bnth lo i 0) (bnth hi i 0)) as [H | H]; [exact H|].
  exfalso. assert (any ge = true) as Ht; [|congruence].
  apply (broadcast2_any f_ge _ _ _ NaN NaN Hge f_ge_nan_l f_ge_nan_r).
  exists i.
  rewrite (bnth_map Fin lo i 0 NaN Hv).
  rewrite (bnth_map Fin hi i 0 NaN) by (rewrite <- Hl; exact Hv).
  unfold f_ge. apply f_le_fin. lra.
Qed.

Lemma TanhBound_built a_min a_max t lo hi :
  TanhBound (Some a_min) (Some a_max) = Ok t ->
  as_array a_min = map Fin lo -> as_array a_max = map Fin hi ->
  length lo = length hi ->
  t = TanhBoundT
        (mkBoundTransform (Some (map Fin lo)) (Some (map Fin hi)) (length lo))
        (map Fin (centers hi lo)) (map Fin (halfwidths hi lo))
  /\ forall i, valid_index (length lo) i -> bnth lo i 0 < bnth hi i 0.
Proof.
  intros H Elo Ehi Hl.
  destruct (TanhBound_inv _ _ _ H)
    as (lo' & hi' & ge & s & d & E1 & E2 & Hge & Hany & Hs & Hd & ->).
  injection E1 as <-. injection E2 as <-. rewrite Elo, Ehi in *.
  rewrite broadcast2_equal in Hs, Hd by (rewrite !length_map; lia).
  injection Hs as <-. injection Hd as <-.
  rewrite (combine_map_Fin fadd Rplus) by reflexivity.
  rewrite (combine_map_Fin fsub Rminus) by reflexivity.
  rewrite length_map. unfold centers, halfwidths. rewrite !map_map. split.
  - reflexivity.
  - exact (bounds_ordered lo hi ge Hl Hge Hany).
Qed.

Lemma ArctanBound_built a_min a_max t lo hi :
  ArctanBound (Some a_min) (Some a_max) = Ok t ->
  as_array a_min = map Fin lo -> as_array a_max = map Fin hi ->
  length lo = length hi ->
  t = ArctanBoundT
        (mkBoundTransform (Some (map Fin lo)) (Some (map Fin hi)) (length lo))
        (map Fin (centers hi lo)) (map Fin (widths_over_pi hi lo))
  /\ forall i, valid_index (length lo) i -> bnth lo i 0 < bnth hi i 0.
Proof.
  intros H Elo Ehi Hl.
  destruct (ArctanBound_inv _ _ _ H)
    as (lo' & hi' & ge & s & d & E1 & E2 & Hge & Hany & Hs & Hd & ->).
  injection E1 as <-. injection E2 as <-. rewrite Elo, Ehi in *.
  rewrite broadcast2_equal in Hs, Hd by (rewrite !length_map; lia).
  injection Hs as <-. injection Hd as <-.
  rewrite (combine_map_Fin fadd Rplus) by reflexivity.
  rewrite (combine_map_Fin fsub Rminus) by reflexivity.
  rewrite length_map. unfold centers, widths_over_pi. rewrite !map_map. split.
  - f_equal. apply map_ext. intros [a b]. simpl.
    destruct (Req_dec_T PI 0) as [E | _]; [exfalso; exact (PI_neq0' E)|].
    reflexivity.
  - exact (bounds_ordered lo hi ge Hl Hge Hany).
Qed.

Lemma bnth_centers (hi lo : list R) (i : nat) :
  length lo = length hi -> valid_index (length lo) i ->
  bnth (centers hi lo) i 0 = 5 / 10 * (bnth hi i 0 + bnth lo i 0).
Proof.
  intros Hl Hv. unfold centers.
  apply (bnth_combine_map (fun h l => 5 / 10 * (h + l)) hi lo i 0 0 0);
    [lia | rewrite <- Hl; exact Hv].
Qed.

Lemma bnth_halfwidths (hi lo : list R) (i : nat) :
  length lo = length hi -> valid_index (length lo) i ->
  bnth (halfwidths hi lo) i 0 = 5 / 10 * (bnth hi i 0 - bnth lo i 0).
Proof.
  intros Hl Hv. unfold halfwidths.
  apply (bnth_combine_map (fun h l => 5 / 10 * (h - l)) hi lo i 0 0 0);
    [lia | rewrite <- Hl; exact Hv].
Qed.

Lemma bnth_widths_over_pi (hi lo : list R) (i : nat) :
  length lo = length hi -> valid_index (length lo) i ->
  bnth (widths_over_pi hi lo) i 0 = (bnth hi i 0 - bnth lo i 0) / PI.
Proof.
  intros Hl Hv. unfold widths_over_pi.
  apply (bnth_combine_map (fun h l => (h - l) / PI) hi lo i 0 0 0);
    [lia | rewrite <- Hl; exact Hv].
Qed.

Lemma length_centers (hi lo : list R) :
  length lo = length hi -> length (centers hi lo) = length lo.
Proof. intros H. unfold centers. rewrite length_map, length_combine. lia. Qed.

Lemma length_halfwidths (hi lo : list R) :
  length lo = length hi -> length (halfwidths hi lo) = length lo.
Proof. intros H. unfold halfwidths. rewrite length_map, length_combine. lia. Qed.

Lemma length_widths_over_pi (hi lo : list R) :
  length lo = length hi -> length (widths_over_pi hi lo) = length lo.
Proof.
  intros H. unfold widths_over_pi. rewrite length_map, length_combine. lia.
Qed.

(** [_b + _a * g(x)], element by element. *)
Lemma scale_shift_elements (g : fnum -> fnum) (bs ws : list R) (x : ndarray) :
  length ws = length bs -> valid_shape (length bs) x ->
  exists z,
    (m <- broadcast2 fmul (map Fin ws) (map g x) ;;
     broadcast2 fadd (map Fin bs) m) = Ok z
    /\ length z = length x
    /\ forall i, (i < length x)%nat ->
         nth i z NaN
         = fadd (Fin (bnth bs i 0))
                (fmul (Fin (bnth ws i 0)) (g (nth i x NaN))).
Proof.
  intros Hl Hv.
  assert (valid_shape (length (map Fin ws)) (map g x)) as Hv1.
  { unfold valid_shape in *. rewrite !length_map. lia. }
  destruct (broadcast2_valid_l fmul (map Fin ws) (map g x) Hv1)
    as (m & Hm & Hlm & Hnm).
  rewrite length_map in Hlm.
  assert (valid_shape (length (map Fin bs)) m) as Hv2.
  { unfold valid_shape in *. rewrite length_map. lia. }
  destruct (broadcast2_valid_l fadd (map Fin bs) m Hv2)
    as (z & Hz & Hlz & Hnz).
  exists z. rewrite Hm. simpl. split; [exact Hz|]. split; [lia|].
  intros i Hi.
  rewrite (Hnz i NaN NaN NaN) by lia.
  rewrite (Hnm i NaN (g NaN) NaN) by (rewrite length_map; exact Hi).
  rewrite map_nth.
  rewrite (bnth_map Fin bs i 0 NaN)
    by (apply (valid_shape_index _ x); assumption).
  rewrite (bnth_map Fin ws i 0 NaN)
    by (rewrite Hl; apply (valid_shape_index _ x); assumption).
  reflexivity.
Qed.

(** [h((y - _b) / _a)], element by element. *)
Lemma unshift_unscale_elements (h : fnum -> fnum) (bs ws : list R)
    (y : ndarray) :
  length ws = length bs -> valid_shape (length bs) y ->
  exists z,
    (d <- broadcast2 fsub y (map Fin bs) ;;
     q <- broadcast2 fdiv d (map Fin ws) ;;
     Ok (map h q)) = Ok z
    /\ length z = length y
    /\ forall i, (i < length y)%nat ->
         nth i z (h NaN)
         = h (fdiv (fsub (nth i y NaN) (Fin (bnth bs i 0)))
                   (Fin (bnth ws i 0))).
Proof.
  intros Hl Hv.
  assert (valid_shape (length (map Fin bs)) y) as Hv1.
  { unfold valid_shape in *. rewrite length_map. lia. }
  destruct (broadcast2_valid_r fsub y (map Fin bs) Hv1) as (d & Hd & Hld & Hnd).
  assert (valid_shape (length (map Fin ws)) d) as Hv2.
  { unfold valid_shape in *. rewrite length_map. lia. }
  destruct (broadcast2_valid_r fdiv d (map Fin ws) Hv2) as (q & Hq & Hlq & Hnq).
  exists (map h q). rewrite Hd. simpl. rewrite Hq. simpl.
  split; [reflexivity|]. split; [rewrite length_map; lia|].
  intros i Hi. rewrite map_nth.
  rewrite (Hnq i NaN NaN NaN) by lia.
  rewrite (Hnd i NaN NaN NaN) by lia.
  rewrite (bnth_map Fin bs i 0 NaN)
    by (apply (valid_shape_index _ y); assumption).
  rewrite (bnth_map Fin ws i 0 NaN)
    by (rewrite Hl; apply (valid_shape_index _ y); assumption).
  reflexivity.
Qed.

(** The range test of [TanhBound.backward] on an input of valid shape. *)
Lemma TanhBound_range_test (lo hi y : ndarray) :
  length lo = length hi -> valid_shape (length lo) y ->
  exists out,
    py_or (gt <- cmp_attr f_gt y (Some hi) ;; Ok (any gt))
          (lt <- cmp_attr f_lt y (Some lo) ;; Ok (any lt)) = Ok out
    /\ (out = true <-> out_of_range y (Some lo) (Some hi)).
Proof.
  intros Hl Hv.
  assert (valid_shape (length hi) y) as Hv' by (rewrite <- Hl; exact Hv).
  destruct (broadcast2_valid_r f_gt y hi Hv') as (gt & Hgt & _).
  destruct (broadcast2_valid_r f_lt y lo Hv) as (lt & Hlt & _).
  unfold py_or, cmp_attr. rewrite Hgt. cbn [bind].
  destruct (any gt) eqn:Eg.
  - exists true. split; [reflexivity|]. split; [|reflexivity].
    intros _. left. exact (any_false_above y hi gt Hgt Hv' Eg).
  - rewrite Hlt. cbn [bind]. exists (any lt). split; [reflexivity|].
    split.
    + intros E. right. exact (any_false_below y lo lt Hlt Hv E).
    + intros [H | H].
      * rewrite (above_any _ _ _ Hgt H) in Eg. discriminate.
      * exact (below_any _ _ _ Hlt H).
Qed.

Lemma TanhBound_backward_spec (lo hi : list R) (y : ndarray) :
  length lo = length hi -> valid_shape (length lo) y ->
  (forall i, valid_index (length lo) i -> bnth lo i 0 < bnth hi i 0) ->
  let self := mkBoundTransform (Some (map Fin lo)) (Some (map Fin hi))
                               (length lo) in
  let r := TanhBound_backward self (map Fin (centers hi lo))
                              (map Fin (halfwidths hi lo)) y in
  (r = Raise ValueError
   <-> out_of_range y (Some (map Fin lo)) (Some (map Fin hi)))
  /\ (~ out_of_range y (Some (map Fin lo)) (Some (map Fin hi)) ->
      exists z, r = Ok z /\ length z = length y
        /\ forall i, (i < length y)%nat ->
             nth i z NaN
             = farctanh
                 (fdiv (fsub (nth i y NaN)
                             (Fin (5 / 10 * (bnth hi i 0 + bnth lo i 0))))
                       (Fin (5 / 10 * (bnth hi i 0 - bnth lo i 0))))).
Proof.
  intros Hl Hv Hord self r. subst self.
  assert (_check_shape (mkBoundTransform (Some (map Fin lo))
                          (Some (map Fin hi)) (length lo)) y = Ok tt) as Hc.
  { destruct Hv as [H | H].
    - apply _check_shape_singleton. exact H.
    - apply _check_shape_equal. exact H. }
  destruct (TanhBound_range_test (map Fin lo) (map Fin hi) y) as (out & Ho & Hout).
  { rewrite !length_map. exact Hl. }
  { rewrite length_map. exact Hv. }
  destruct (unshift_unscale_elements farctanh (centers hi lo)
              (halfwidths hi lo) y) as (z & Hz & Hlz & Hnz).
  { rewrite length_centers, length_halfwidths by exact Hl. reflexivity. }
  { rewrite length_centers by exact Hl. exact Hv. }
  assert (r = if out then Raise ValueError else Ok z) as Hr.
  { subst r. unfold TanhBound_backward. rewrite Hc. cbn [bind].
    cbn [a_max a_min].
    match goal with
    | |- bind ?t _ = _ => replace t with (Ok out) by (symmetry; exact Ho)
    end. cbn [bind].
    destruct out; [reflexivity | exact Hz]. }
  split.
  - rewrite Hr. destruct out.
    + split; [intros _; apply Hout; reflexivity | reflexivity].
    + split; [discriminate|]. intros H. apply Hout in H. discriminate.
  - intros Hn. destruct out.
    + exfalso. apply Hn. apply Hout. reflexivity.
    + exists z. split; [exact Hr|]. split; [exact Hlz|].
      intros i Hi. change NaN with (farctanh NaN) at 1.
      rewrite (Hnz i Hi).
      assert (valid_index (length lo) i) as Hvi
        by (apply (valid_shape_index _ y); assumption).
      rewrite (bnth_centers hi lo i Hl Hvi).
      rewrite (bnth_halfwidths hi lo i Hl Hvi). reflexivity.
Qed.

(** The test [np.max(y) > hi or np.min(y) < lo] with one-element bounds on
    a finite, non-empty array. *)
Lemma max_min_test_singleton (y : ndarray) (l h : fnum) :
  finite y -> y <> [] ->
  exists out,
    py_or (m <- np_max y ;; truth (map (f_gt m) [h]))
          (m <- np_min y ;; truth (map (f_lt m) [l])) = Ok out
    /\ (out = true <-> out_of_range y (Some [l]) (Some [h])).
Proof.
  intros Hf Hne.
  destruct (np_max_finite y Hf Hne) as (M & EM & HM & HMin).
  destruct (np_min_finite y Hf Hne) as (m & Em & Hm & Hmin).
  assert (exists out,
            py_or (m <- np_max y ;; truth (map (f_gt m) [h]))
                  (m <- np_min y ;; truth (map (f_lt m) [l])) = Ok out
            /\ (out = true -> out_of_range y (Some [l]) (Some [h])))
    as (out & Ho & Hout).
  { unfold py_or. rewrite EM, Em. cbn [bind truth map].
    destruct (f_gt (Fin M) h) eqn:E1.
    - exists true. split; [reflexivity|]. intros _. left.
      destruct (In_nth y (Fin M) NaN HMin) as (i & Hi & Hn).
      exists i. split; [exact Hi|]. rewrite Hn. exact E1.
    - exists (f_lt (Fin m) l). split; [reflexivity|]. intros E2. right.
      destruct (In_nth y (Fin m) NaN Hmin) as (i & Hi & Hn).
      exists i. split; [exact Hi|]. rewrite Hn. exact E2. }
  exists out. split; [exact Ho|]. split; [exact Hout|].
  intros H.
  destruct (max_min_test_out_of_range y (Some [l]) (Some [h]) (Ok false)
              (finite_no_nan y Hf) H)
    as [E | E].
  { left. reflexivity. }
  - cbv zeta in E. rewrite Ho in E. injection E as ->. reflexivity.
  - cbv zeta in E. rewrite Ho in E. discriminate.
Qed.

Lemma CumulativeDensity_backward_spec (y : ndarray) :
  finite y -> y <> [] ->
  (CumulativeDensity_backward norm_ppf_R y = Raise ValueError
   <-> out_of_range y (Some [Fin 0]) (Some [Fin 1]))
  /\ (~ out_of_range y (Some [Fin 0]) (Some [Fin 1]) ->
      CumulativeDensity_backward norm_ppf_R y
      = Ok (map (norm_ppf norm_ppf_R) y)).
Proof.
  intros Hf Hne.
  destruct (max_min_test_singleton y (Fin 0) (Fin 1) Hf Hne)
    as (out & Ho & Hout).
  cbn [map truth] in Ho.
  unfold CumulativeDensity_backward. rewrite Ho. cbn [bind].
  destruct out.
  - split.
    + split; [intros _; apply Hout; reflexivity | reflexivity].
    + intros Hn. exfalso. apply Hn. apply Hout. reflexivity.
  - split.
    + split; [discriminate|]. intros H. apply Hout in H. discriminate.
    + reflexivity.
Qed.

Lemma farctanh_one : farctanh (Fin 1) = PInf.
Proof. simpl. destruct (Req_dec_T 1 1); [reflexivity | lra]. Qed.

Lemma farctanh_minus_one : farctanh (Fin (-1)) = NInf.
Proof.
  simpl. destruct (Req_dec_T (-1) 1); [lra|].
  destruct (Req_dec_T (-1) (-1)); [reflexivity | lra].
Qed.



(** [(y - _b) / _a] for a finite [y] between bounds [l < h]. *)
Lemma normalized (l h e : R) :
  l < h ->
  fdiv (fsub (Fin e) (Fin (5 / 10 * (h + l)))) (Fin (5 / 10 * (h - l)))
  = Fin ((2 * e - (h + l)) / (h - l)).
Proof.
  intros H. simpl.
  destruct (Req_dec_T (5 / 10 * (h - l)) 0) as [E | _]; [lra|].
  f_equal. field. lra.
Qed.


(** *** Images of the forward maps on the reals *)

(** In exact arithmetic the maps stay within the bounds; the round trips
    below rest on this.  In double precision [TanhBound.forward] does not
    ([Transforms64Facts]). *)

Lemma tanh_bounds (x : R) : -1 < tanh x < 1.
Proof.
  unfold tanh, sinh, cosh.
  pose proof (exp_pos x) as Hp. pose proof (exp_pos (- x)) as Hq.
  set (p := exp x) in *. set (q := exp (- x)) in *.
  replace ((p - q) / 2 / ((p + q) / 2)) with ((p - q) / (p + q))
    by (field; lra).
  split.
  - apply (Rmult_lt_reg_r (p + q)); [lra|].
    unfold Rdiv. rewrite Rmult_assoc, Rinv_l by lra. lra.
  - apply (Rmult_lt_reg_r (p + q)); [lra|].
    unfold Rdiv. rewrite Rmult_assoc, Rinv_l by lra. lra.
Qed.

Lemma tanh_image (l h e : R) :
  l < h ->
  l < 5 / 10 * (h + l) + 5 / 10 * (h - l) * tanh e < h.
Proof.
  intros H. pose proof (tanh_bounds e) as [H1 H2].
  set (t := tanh e) in *. split; nra.
Qed.

Lemma atan_image (l h e : R) :
  l < h ->
  l < 5 / 10 * (h + l) + (h - l) / PI * atan e < h.
Proof.
  intros H. pose proof (atan_bound e) as [H1 H2]. pose proof PI_RGT_0 as HPI.
  set (c := atan e / PI).
  assert (- (1 / 2) < c < 1 / 2) as [Hc1 Hc2].
  { unfold c. split.
    - apply (Rmult_lt_reg_r PI); [lra|].
      unfold Rdiv at 2. rewrite Rmult_assoc, Rinv_l by lra. lra.
    - apply (Rmult_lt_reg_r PI); [lra|].
      unfold Rdiv at 1. rewrite Rmult_assoc, Rinv_l by lra. lra. }
  replace ((h - l) / PI * atan e) with ((h - l) * c)
    by (unfold c; field; lra).
  split; nra.
Qed.

Lemma clip_image (l h e : R) :
  l < h ->
  exists c, fminimum (fmaximum (Fin e) (Fin l)) (Fin h) = Fin c /\ l <= c <= h.
Proof.
  intros H. unfold fmaximum. simpl.
  destruct (Rlt_dec e l); unfold fminimum; simpl.
  - destruct (Rlt_dec h l); [lra|]. exists l. split; [reflexivity | lra].
  - destruct (Rlt_dec h e).
    + exists h. split; [reflexivity | lra].
    + exists e. split; [reflexivity | lra].
Qed.

Lemma Clipping_built a_min a_max t lo hi :
  Clipping (Some a_min) (Some a_max) = Ok t ->
  as_array a_min = map Fin lo -> as_array a_max = map Fin hi ->
  length lo = length hi ->
  t = ClippingT
        (mkBoundTransform (Some (map Fin lo)) (Some (map Fin hi)) (length lo))
  /\ forall i, valid_index (length lo) i -> bnth lo i 0 < bnth hi i 0.
Proof.
  intros H Elo Ehi Hl.
  destruct (Clipping_inv _ _ _ H) as (self & Hs & ->).
  destruct (BoundTransform_init_inv _ _ _ Hs)
    as (E1 & E2 & E3 & _ & ge & Hge & Hany).
  simpl in E1, E2. rewrite Elo, Ehi in *. rewrite length_map in E3.
  split.
  - destruct self; simpl in *; subst. reflexivity.
  - exact (bounds_ordered lo hi ge Hl Hge Hany).
Qed.

Lemma Clipping_forward_elements (lo hi : list R) (x : ndarray) :
  length lo = length hi -> valid_shape (length lo) x ->
  exists z,
    Clipping_forward
      (mkBoundTransform (Some (map Fin lo)) (Some (map Fin hi)) (length lo)) x
    = Ok z
    /\ length z = length x
    /\ forall i, (i < length x)%nat ->
         nth i z NaN
         = fminimum (fmaximum (nth i x NaN) (Fin (bnth lo i 0)))
                    (Fin (bnth hi i 0)).
Proof.
  intros Hl Hv. unfold Clipping_forward.
  assert (_check_shape (mkBoundTransform (Some (map Fin lo))
                          (Some (map Fin hi)) (length lo)) x = Ok tt) as Hc.
  { destruct Hv as [H | H].
    - apply _check_shape_singleton. exact H.
    - apply _check_shape_equal. exact H. }
  rewrite Hc. cbn [bind a_min a_max np_clip].
  assert (valid_shape (length (map Fin lo)) x) as Hv1
    by (rewrite length_map; exact Hv).
  destruct (broadcast2_valid_r fmaximum x (map Fin lo) Hv1)
    as (x1 & H1 & Hl1 & Hn1).
  assert (valid_shape (length (map Fin hi)) x1) as Hv2.
  { unfold valid_shape in *. rewrite length_map in *. lia. }
  destruct (broadcast2_valid_r fminimum x1 (map Fin hi) Hv2)
    as (z & Hz & Hlz & Hnz).
  exists z. rewrite H1. cbn [bind]. split; [exact Hz|]. split; [lia|].
  intros i Hi.
  assert (valid_index (length lo) i) as Hvi
    by (apply (valid_shape_index _ x); assumption).
  rewrite (Hnz i NaN NaN NaN) by lia.
  rewrite (Hn1 i NaN NaN NaN) by lia.
  rewrite (bnth_map Fin lo i 0 NaN Hvi).
  rewrite (bnth_map Fin hi i 0 NaN) by (rewrite <- Hl; exact Hvi).
  reflexivity.
Qed.

Lemma bound_forward_spec (g : fnum -> fnum) (self : BoundTransform)
    (bs ws : list R) (x : ndarray) :
  length ws = length bs -> self.(shape) = length bs ->
  valid_shape (length bs) x ->
  exists z,
    (_check_shape self x ;;;
     m <- broadcast2 fmul (map Fin ws) (map g x) ;;
     broadcast2 fadd (map Fin bs) m) = Ok z
    /\ length z = length x
    /\ forall i, (i < length x)%nat ->
         nth i z NaN
         = fadd (Fin (bnth bs i 0))
                (fmul (Fin (bnth ws i 0)) (g (nth i x NaN))).
Proof.
  intros Hl Hs Hv.
  assert (_check_shape self x = Ok tt) as Hc.
  { destruct Hv as [H | H].
    - apply _check_shape_singleton. lia.
    - apply _check_shape_equal. unfold ashape. lia. }
  rewrite Hc. cbn [bind]. apply scale_shift_elements; assumption.
Qed.

(** *** Backward maps whose range test takes the truth value of an array *)

(** [ArctanBound.backward] compares [np.max(y)] with the whole array
    [a_max] and takes the truth value of the result: with bounds of two or
    more elements this raises a value error whatever the input. *)
Lemma ArctanBound_backward_vector_bounds self _b _a lo hi y :
  self.(a_min) = Some lo -> self.(a_max) = Some hi ->
  (2 <= length hi)%nat \/ (2 <= length lo)%nat ->
  ArctanBound_backward self _b _a y = Raise ValueError.
Proof.
  intros Hlo Hhi Hlen. unfold ArctanBound_backward.
  destruct (_check_shape self y) as [u|e] eqn:Ec;
    [|apply _check_shape_raises in Ec; subst; reflexivity].
  cbn [bind]. rewrite Hlo, Hhi. unfold py_or.
  destruct y as [|v y]; [reflexivity|].
  cbn [np_max np_min bind].
  destruct hi as [|h0 [|h1 hi]].
  - destruct Hlen as [H | H]; [simpl in H; lia|].
    destruct lo as [|l0 [|l1 lo]]; try (simpl in H; lia). reflexivity.
  - cbn [map truth bind].
    destruct (f_gt (fold_left fmaximum y v) h0); [reflexivity|].
    destruct Hlen as [H | H]; [simpl in H; lia|].
    destruct lo as [|l0 [|l1 lo]]; try (simpl in H; lia). reflexivity.
  - reflexivity.
Qed.

(** C2 fails on [ArctanBound] with array bounds: the transform is built,
    [forward] maps [[0, 0]] to [[0.5, 0.5]], and [backward] of that raises
    a value error instead of returning [[0, 0]]. *)
Theorem ArctanBound_roundtrip_raises :
  exists self _b _a,
    ArctanBound (Some (Array [Fin 0; Fin 0])) (Some (Array [Fin 1; Fin 1]))
    = Ok (ArctanBoundT self _b _a)
    /\ ArctanBound_forward self _b _a [Fin 0; Fin 0]
       = Ok [Fin (5 / 10); Fin (5 / 10)]
    /\ ArctanBound_backward self _b _a [Fin (5 / 10); Fin (5 / 10)]
       = Raise ValueError.
Proof.
  destruct (TanhBound_ok (Some (Array [Fin 0; Fin 0]))
              (Some (Array [Fin 1; Fin 1])))
    as (lo & hi & s & d & E1 & E2 & Hs & Hd & _ & Ha).
  { left. reflexivity. }
  { intros [[H | H] | (i & H)]; try discriminate.
    destruct i as [|[|i]]; simpl in H;
      try (destruct (Rle_dec 1 0); [lra | discriminate]).
    destruct i; discriminate. }
  injection E1 as <-. injection E2 as <-.
  cbn [as_array] in *. rewrite broadcast2_equal in Hs, Hd by reflexivity.
  injection Hs as <-. injection Hd as <-.
  eexists _, _, _. split; [exact Ha|]. split.
  - unfold ArctanBound_forward. cbn.
    destruct (Req_dec_T PI 0) as [E | _]; [exfalso; exact (PI_neq0' E)|].
    rewrite atan_0. cbn [fmul].
    replace (5 / 10 * (1 + 0) + (1 + - 0) / PI * 0) with (5 / 10)
      by (field; exact PI_neq0').
    reflexivity.
  - eapply ArctanBound_backward_vector_bounds;
      [reflexivity | reflexivity | left; simpl; lia].
Qed.

(** *** Inputs of any shape for one-element bounds *)

(** The test of [Clipping.backward] with one-element or missing bounds on
    a finite, non-empty array: it returns, and is true only for an input
    out of range. *)
Lemma clipping_test_singleton (y : ndarray) (lo hi : option ndarray) :
  finite y -> y <> [] ->
  match lo with Some l => length l = 1%nat | None => True end ->
  match hi with Some h => length h = 1%nat | None => True end ->
  exists out,
    py_or match hi with
          | None => Ok false
          | Some h => m <- np_max y ;; truth (map (f_gt m) h)
          end
          match lo with
          | None => Ok false
          | Some l => m <- np_min y ;; truth (map (f_lt m) l)
          end = Ok out
    /\ (out = true -> out_of_range y lo hi).
Proof.
  intros Hf Hne Hlo Hhi.
  destruct (np_max_finite y Hf Hne) as (M & EM & _ & HMin).
  destruct (np_min_finite y Hf Hne) as (m & Em & _ & Hmin).
  destruct (In_nth y (Fin M) NaN HMin) as (iM & HiM & HnM).
  destruct (In_nth y (Fin m) NaN Hmin) as (im & Him & Hnm).
  unfold py_or, out_of_range.
  destruct hi as [h|]; [destruct (singleton_inv _ Hhi) as [h0 ->]|];
    (destruct lo as [l|]; [destruct (singleton_inv _ Hlo) as [l0 ->]|]);
    rewrite ?EM, ?Em; cbn [bind truth map].
  - destruct (f_gt (Fin M) h0) eqn:E1.
    + exists true. split; [reflexivity|]. intros _. left.
      exists iM. split; [exact HiM|]. rewrite HnM. exact E1.
    + exists (f_lt (Fin m) l0). split; [reflexivity|]. intros E2. right.
      exists im. split; [exact Him|]. rewrite Hnm. exact E2.
  - destruct (f_gt (Fin M) h0) eqn:E1.
    + exists true. split; [reflexivity|]. intros _. left.
      exists iM. split; [exact HiM|]. rewrite HnM. exact E1.
    + exists false. split; [reflexivity | discriminate].
  - exists (f_lt (Fin m) l0). split; [reflexivity|]. intros E2. right.
    exists im. split; [exact Him|]. rewrite Hnm. exact E2.
  - exists false. split; [reflexivity | discriminate].
Qed.

Lemma backward_singleton_bounds a_min a_max t y :
  singleton_bounds a_min a_max ->
  TanhBound a_min a_max = Ok t \/ ArctanBound a_min a_max = Ok t
  \/ Clipping a_min a_max = Ok t ->
  finite y -> y <> [] ->
  ~ out_of_range y (option_map as_array a_min) (option_map as_array a_max) ->
  succeeds (backward t y).
Proof.
  intros [Hlo Hhi] Ht Hf Hne Hin. destruct Ht as [H | [H | H]].
  - destruct (TanhBound_inv _ _ _ H)
      as (lo & hi & ge & s & d & -> & -> & _ & _ & Hs & Hd & ->).
    destruct (singleton_inv _ Hlo) as [l El].
    destruct (singleton_inv _ Hhi) as [h Eh].
    cbn [option_map] in Hin. rewrite El, Eh in *.
    rewrite broadcast2_left in Hs, Hd. injection Hs as <-. injection Hd as <-.
    destruct (TanhBound_range_test [l] [h] y) as (out & Ho & Hout);
      [reflexivity | left; reflexivity |].
    cbn [Transforms.backward]. unfold TanhBound_backward.
    rewrite _check_shape_singleton by reflexivity.
    cbn [bind a_min a_max map].
    match goal with
    | |- succeeds (bind ?t _) => replace t with (Ok out) by (symmetry; exact Ho)
    end. cbn [bind]. destruct out.
    + exfalso. apply Hin. apply Hout. reflexivity.
    + rewrite broadcast2_right. cbn [bind]. rewrite broadcast2_right.
      eexists; reflexivity.
  - destruct (ArctanBound_inv _ _ _ H)
      as (lo & hi & ge & s & d & -> & -> & _ & _ & Hs & Hd & ->).
    destruct (singleton_inv _ Hlo) as [l El].
    destruct (singleton_inv _ Hhi) as [h Eh].
    cbn [option_map] in Hin. rewrite El, Eh in *.
    rewrite broadcast2_left in Hs, Hd. injection Hs as <-. injection Hd as <-.
    destruct (max_min_test_singleton y l h Hf Hne) as (out & Ho & Hout).
    cbn [Transforms.backward]. unfold ArctanBound_backward.
    rewrite _check_shape_singleton by reflexivity.
    cbn [bind a_min a_max].
    match goal with
    | |- succeeds (bind ?t _) => replace t with (Ok out) by (symmetry; exact Ho)
    end. cbn [bind]. destruct out.
    + exfalso. apply Hin. apply Hout. reflexivity.
    + cbn [map]. rewrite broadcast2_right. cbn [bind].
      rewrite broadcast2_right. eexists; reflexivity.
  - destruct (Clipping_inv _ _ _ H) as (self & Hs & ->).
    destruct (BoundTransform_init_inv _ _ _ Hs) as (Elo & Ehi & Esh & Hnb & _).
    assert (self.(shape) = 1%nat) as Hsh.
    { rewrite Esh. destruct a_min as [lo|]; [exact Hlo|].
      destruct a_max as [hi|]; [exact Hhi|].
      exfalso. apply Hnb. split; reflexivity. }
    destruct (clipping_test_singleton y self.(Transforms.a_min)
                self.(Transforms.a_max) Hf Hne)
      as (out & Ho & Hout).
    { rewrite Elo. destruct a_min; [exact Hlo | exact I]. }
    { rewrite Ehi. destruct a_max; [exact Hhi | exact I]. }
    cbn [Transforms.backward]. unfold Clipping_backward.
    rewrite (_check_shape_singleton _ _ Hsh). cbn [bind].
    rewrite Ho. cbn [bind]. destruct out.
    + exfalso. apply Hin. rewrite <- Elo, <- Ehi. apply Hout. reflexivity.
    + eexists; reflexivity.
Qed.

(** The guard of [_check_shape], on the attribute [shape] of the
    transform.  When the attribute is not [(1,)], [forward] and [backward]
    raise a value error on an input of another shape.  When it is [(1,)]
    the shape check accepts every input; [forward] of a transform whose
    bounds all have one element then returns for an input of any shape, and
    so does [backward] for a finite, non-empty input of any shape that is
    within the bounds. *)
Theorem shape_mismatch_raises :
  forall (self : BoundTransform) (_b _a x : ndarray),
    (self.(shape) <> 1%nat -> ashape x <> self.(shape) ->
     forall t,
       In t [TanhBoundT self _b _a; ClippingT self; ArctanBoundT self _b _a] ->
       forward t x = Raise ValueError /\ backward t x = Raise ValueError)
    /\ (self.(shape) = 1%nat -> _check_shape self x = Ok tt)
    /\ (forall a_min a_max t,
          singleton_bounds a_min a_max ->
          TanhBound a_min a_max = Ok t \/ ArctanBound a_min a_max = Ok t
          \/ Clipping a_min a_max = Ok t ->
          succeeds (forward t x)
          /\ (finite x -> x <> [] ->
              ~ out_of_range x (option_map as_array a_min)
                               (option_map as_array a_max) ->
              succeeds (backward t x))).
Proof.
  intros self _b _a x. split; [|split].
  - intros H1 H2 t Ht.
    pose proof (_check_shape_mismatch self x H1 H2) as Hc.
    simpl in Ht. destruct Ht as [<- | [<- | [<- | []]]]; simpl;
      unfold TanhBound_forward, TanhBound_backward, Clipping_forward,
        Clipping_backward, ArctanBound_forward, ArctanBound_backward;
      rewrite Hc; split; reflexivity.
  - apply _check_shape_singleton.
  - intros a_min a_max t Hs Ht. split.
    + exact (forward_singleton_bounds a_min a_max t x Hs Ht).
    + intros Hf Hne Hin.
      exact (backward_singleton_bounds a_min a_max t x Hs Ht Hf Hne Hin).
Qed.

(** *** Inverse pairs on the reals *)

Lemma exp_double (x : R) : exp x / exp (- x) = exp (2 * x).
Proof.
  rewrite exp_Ropp. unfold Rdiv. rewrite Rinv_inv.
  rewrite <- exp_plus. f_equal. lra.
Qed.

Lemma arctanh_tanh (x : R) : arctanh (tanh x) = x.
Proof.
  unfold arctanh, tanh, sinh, cosh.
  pose proof (exp_pos x) as Hp. pose proof (exp_pos (- x)) as Hq.
  replace ((1 + (exp x - exp (- x)) / 2 / ((exp x + exp (- x)) / 2))
           / (1 - (exp x - exp (- x)) / 2 / ((exp x + exp (- x)) / 2)))
    with (exp x / exp (- x)) by (field; lra).
  rewrite exp_double, ln_exp. lra.
Qed.

Lemma tanh_arctanh (u : R) : -1 < u < 1 -> tanh (arctanh u) = u.
Proof.
  intros [H1 H2]. unfold arctanh.
  set (w := (1 + u) / (1 - u)).
  assert (0 < w) as Hw.
  { unfold w. apply Rdiv_lt_0_compat; lra. }
  set (v := / 2 * ln w).
  assert (exp v / exp (- v) = w) as Hv.
  { rewrite exp_double. unfold v.
    replace (2 * (/ 2 * ln w)) with (ln w) by lra. apply exp_ln. exact Hw. }
  unfold tanh, sinh, cosh.
  pose proof (exp_pos v) as Hp. pose proof (exp_pos (- v)) as Hq.
  replace ((exp v - exp (- v)) / 2 / ((exp v + exp (- v)) / 2))
    with ((exp v / exp (- v) - 1) / (exp v / exp (- v) + 1))
    by (field; lra).
  rewrite Hv. unfold w. field. lra.
Qed.

Lemma farctanh_fin (u : R) : -1 < u < 1 -> farctanh (Fin u) = Fin (arctanh u).
Proof.
  intros [H1 H2]. simpl.
  destruct (Req_dec_T u 1); [lra|]. destruct (Req_dec_T u (-1)); [lra|].
  destruct (Rlt_dec (-1) u); [|lra]. destruct (Rlt_dec u 1); [|lra].
  reflexivity.
Qed.

Lemma ln_eq_0 (y : R) : 0 < y -> ln y = 0 -> y = 1.
Proof.
  intros Hy H. destruct (Req_dec_T y 1) as [E | E]; [exact E|].
  exfalso. exact (ln_neq_0 y E Hy H).
Qed.

Lemma map_finite_id (k : fnum -> fnum) (x : ndarray) :
  finite x -> (forall e, k (Fin e) = Fin e) -> map k x = x.
Proof.
  intros Hf Hk. induction Hf as [|v x Hv Hx IH]; [reflexivity|].
  simpl. rewrite IH. destruct v; try contradiction. rewrite Hk. reflexivity.
Qed.

Lemma map_Forall_id {A : Type} (P : A -> Prop) (k : A -> A) (x : list A) :
  Forall P x -> (forall v, P v -> k v = v) -> map k x = x.
Proof.
  intros Hf Hk. induction Hf as [|v x Hv Hx IH]; [reflexivity|].
  simpl. rewrite IH, (Hk v Hv). reflexivity.
Qed.

(** *** Round trips of the scalar maps *)

Lemma Affine_roundtrip (ra rb e : R) :
  ra <> 0 ->
  fdiv (fsub (fadd (fmul (Fin ra) (Fin e)) (Fin rb)) (Fin rb)) (Fin ra) = Fin e
  /\ fadd (fmul (Fin ra) (fdiv (fsub (Fin e) (Fin rb)) (Fin ra))) (Fin rb)
     = Fin e.
Proof.
  intros H. simpl. destruct (Req_dec_T ra 0) as [E | _]; [contradiction|].
  simpl. split; f_equal; field; exact H.
Qed.

Lemma Exponentiate_forward_fin (rb rc e : R) :
  0 < rb ->
  fpow (Fin rb) (fmul (Fin rc) (Fin e))
  = Fin (if Req_dec_T (rc * e) 0 then 1 else Rpower rb (rc * e)).
Proof.
  intros H. simpl. destruct (Req_dec_T (rc * e) 0); [reflexivity|].
  unfold Rpow. destruct (Rlt_dec 0 rb); [reflexivity | lra].
Qed.

Lemma Exponentiate_backward_fin (rb rc v : R) :
  0 < rb -> rb <> 1 -> rc <> 0 -> 0 < v ->
  fdiv (flog (Fin v)) (fmul (Fin rc) (flog (Fin rb)))
  = Fin (ln v / (rc * ln rb)).
Proof.
  intros Hb Hb1 Hc Hv. pose proof (ln_neq_0 rb Hb1 Hb) as Hl. simpl.
  destruct (Rlt_dec 0 v); [|lra]. destruct (Rlt_dec 0 rb); [|lra].
  simpl. destruct (Req_dec_T (rc * ln rb) 0) as [E | _]; [|reflexivity].
  exfalso. apply Rmult_integral in E. tauto.
Qed.

Lemma Exponentiate_roundtrip (rb rc e : R) :
  0 < rb -> rb <> 1 -> rc <> 0 ->
  fdiv (flog (fpow (Fin rb) (fmul (Fin rc) (Fin e))))
       (fmul (Fin rc) (flog (Fin rb))) = Fin e.
Proof.
  intros Hb Hb1 Hc. pose proof (ln_neq_0 rb Hb1 Hb) as Hl.
  rewrite (Exponentiate_forward_fin rb rc e Hb).
  destruct (Req_dec_T (rc * e) 0) as [E | E].
  - rewrite (Exponentiate_backward_fin rb rc 1 Hb Hb1 Hc) by lra.
    rewrite ln_1. f_equal.
    apply Rmult_integral in E. destruct E as [E | E]; [contradiction|].
    rewrite E. field. split; assumption.
  - rewrite (Exponentiate_backward_fin rb rc _ Hb Hb1 Hc)
      by (unfold Rpower; apply exp_pos).
    unfold Rpower. rewrite ln_exp. f_equal. field. split; assumption.
Qed.

Lemma Exponentiate_roundtrip_back (rb rc v : R) :
  0 < rb -> rb <> 1 -> rc <> 0 -> 0 < v ->
  fpow (Fin rb)
       (fmul (Fin rc) (fdiv (flog (Fin v)) (fmul (Fin rc) (flog (Fin rb)))))
  = Fin v.
Proof.
  intros Hb Hb1 Hc Hv. pose proof (ln_neq_0 rb Hb1 Hb) as Hl.
  rewrite (Exponentiate_backward_fin rb rc v Hb Hb1 Hc Hv).
  rewrite (Exponentiate_forward_fin rb rc _ Hb).
  replace (rc * (ln v / (rc * ln rb))) with (ln v / ln rb)
    by (field; split; assumption).
  destruct (Req_dec_T (ln v / ln rb) 0) as [E | E].
  - f_equal. symmetry. apply ln_eq_0; [exact Hv|].
    apply (Rmult_eq_compat_r (ln rb)) in E.
    unfold Rdiv in E. rewrite Rmult_assoc, Rinv_l in E by exact Hl. lra.
  - f_equal. unfold Rpower.
    replace (ln v / ln rb * ln rb) with (ln v) by (field; exact Hl).
    apply exp_ln. exact Hv.
Qed.

(** *** Bijective transforms and their domains *)

Lemma finite_of_nth (z : ndarray) :
  (forall i, (i < length z)%nat -> exists e, nth i z NaN = Fin e) ->
  finite z.
Proof.
  intros H. apply Forall_forall. intros v Hin.
  destruct (In_nth z v NaN Hin) as (i & Hi & Hn).
  destruct (H i Hi) as (e & He). subst v. rewrite He. exact I.
Qed.

Lemma inside_fin (y : ndarray) (lo hi : list R) (i : nat) :
  inside y (Some (map Fin lo)) (Some (map Fin hi)) ->
  (i < length y)%nat ->
  valid_index (length lo) i -> valid_index (length hi) i ->
  exists e, nth i y NaN = Fin e /\ bnth lo i 0 < e < bnth hi i 0.
Proof.
  intros Hin Hi Hlo Hhi. destruct (Hin i Hi) as [H1 H2].
  rewrite (bnth_map Fin lo i 0 NaN Hlo) in H1.
  rewrite (bnth_map Fin hi i 0 NaN Hhi) in H2.
  destruct (nth i y NaN) as [e| | |]; try discriminate.
  exists e. split; [reflexivity|].
  apply f_lt_fin in H1. apply f_lt_fin in H2. lra.
Qed.

Lemma inside_finite (y : ndarray) (lo hi : list R) :
  inside y (Some (map Fin lo)) (Some (map Fin hi)) ->
  valid_shape (length lo) y -> length lo = length hi -> finite y.
Proof.
  intros Hin Hv Hl. apply finite_of_nth. intros i Hi.
  assert (valid_index (length lo) i) as Hvi
    by (apply (valid_shape_index _ y); assumption).
  assert (valid_index (length hi) i) as Hvi' by (rewrite <- Hl; exact Hvi).
  destruct (inside_fin y lo hi i Hin Hi Hvi Hvi') as (e & He & _).
  exists e. exact He.
Qed.

Lemma inside_in_range (y : ndarray) (lo hi : ndarray) :
  inside y (Some lo) (Some hi) -> ~ out_of_range y (Some lo) (Some hi).
Proof.
  intros Hin [(i & Hi & H) | (i & Hi & H)];
    destruct (Hin i Hi) as [H1 H2]; unfold f_gt in *;
    destruct (nth i y NaN) as [e| | |], (bnth hi i NaN) as [h| | |],
      (bnth lo i NaN) as [l| | |]; simpl in *; try discriminate;
    repeat match goal with
           | H : (if Rlt_dec ?a ?b then _ else _) = _ |- _ =>
               destruct (Rlt_dec a b)
           end; try discriminate; lra.
Qed.

Lemma within_strictly_inside (z : ndarray) (lo hi : list R) :
  length lo = length hi -> valid_shape (length lo) z ->
  (forall i, (i < length z)%nat ->
     exists v, nth i z NaN = Fin v /\ bnth lo i 0 < v < bnth hi i 0) ->
  inside z (Some (map Fin lo)) (Some (map Fin hi)).
Proof.
  intros Hl Hv H i Hi.
  assert (valid_index (length lo) i) as Hvi
    by (apply (valid_shape_index _ z); assumption).
  destruct (H i Hi) as (v & Ev & Hlt). rewrite Ev.
  rewrite (bnth_map Fin lo i 0 NaN Hvi).
  rewrite (bnth_map Fin hi i 0 NaN) by (rewrite <- Hl; exact Hvi).
  split; apply f_lt_fin; lra.
Qed.

Lemma ArctanBound_backward_spec (l h : R) (y : ndarray) :
  finite y -> y <> [] ->
  ~ out_of_range y (Some [Fin l]) (Some [Fin h]) ->
  exists z,
    ArctanBound_backward
      (mkBoundTransform (Some (map Fin [l])) (Some (map Fin [h])) (length [l]))
      (map Fin (centers [h] [l])) (map Fin (widths_over_pi [h] [l])) y = Ok z
    /\ length z = length y
    /\ forall i, (i < length y)%nat ->
         nth i z NaN
         = ftan (fdiv (fsub (nth i y NaN) (Fin (5 / 10 * (h + l))))
                      (Fin ((h - l) / PI))).
Proof.
  intros Hf Hne Hin.
  destruct (max_min_test_singleton y (Fin l) (Fin h) Hf Hne)
    as (out & Ho & Hout).
  destruct (unshift_unscale_elements ftan (centers [h] [l])
              (widths_over_pi [h] [l]) y) as (z & Hz & Hlz & Hnz).
  { reflexivity. }
  { left. reflexivity. }
  exists z. split; [|split; [exact Hlz|]].
  - unfold ArctanBound_backward.
    rewrite _check_shape_singleton by reflexivity.
    cbn [bind a_min a_max].
    match goal with
    | |- bind ?t _ = _ => replace t with (Ok out) by (symmetry; exact Ho)
    end. cbn [bind]. destruct out.
    + exfalso. apply Hin. apply Hout. reflexivity.
    + exact Hz.
  - intros i Hi. change NaN with (ftan NaN) at 1. rewrite (Hnz i Hi).
    reflexivity.
Qed.

(** *** Round trips of the bound transforms *)

Lemma normalized_image (l h e : R) :
  l < h ->
  (2 * (5 / 10 * (h + l) + 5 / 10 * (h - l) * e) - (h + l)) / (h - l) = e.
Proof. intros H. field. lra. Qed.

Lemma normalized_bounds (l h e : R) :
  l < e < h -> -1 < (2 * e - (h + l)) / (h - l) < 1.
Proof.
  intros [H1 H2]. set (u := (2 * e - (h + l)) / (h - l)).
  assert (u * (h - l) = 2 * e - (h + l)) as Hu by (unfold u; field; lra).
  split; nra.
Qed.

Lemma TanhBound_roundtrip (lo hi : list R) (x : ndarray) :
  length lo = length hi ->
  (forall i, valid_index (length lo) i -> bnth lo i 0 < bnth hi i 0) ->
  finite x -> valid_shape (length lo) x ->
  let self := mkBoundTransform (Some (map Fin lo)) (Some (map Fin hi))
                               (length lo) in
  exists y,
    TanhBound_forward self (map Fin (centers hi lo))
                      (map Fin (halfwidths hi lo)) x = Ok y
    /\ TanhBound_backward self (map Fin (centers hi lo))
                          (map Fin (halfwidths hi lo)) y = Ok x.
Proof.
  intros Hl Hord Hf Hv self.
  destruct (bound_forward_spec ftanh self (centers hi lo) (halfwidths hi lo) x)
    as (z & Hz & Hlz & Hnz).
  { rewrite length_centers, length_halfwidths by exact Hl. reflexivity. }
  { rewrite length_centers by exact Hl. reflexivity. }
  { rewrite length_centers by exact Hl. exact Hv. }
  assert (valid_shape (length lo) z) as Hvz.
  { unfold valid_shape in *. lia. }
  assert (forall i, (i < length x)%nat ->
            exists e, nth i x NaN = Fin e
              /\ nth i z NaN
                 = Fin (5 / 10 * (bnth hi i 0 + bnth lo i 0)
                        + 5 / 10 * (bnth hi i 0 - bnth lo i 0) * tanh e))
    as Helem.
  { intros i Hi.
    assert (valid_index (length lo) i) as Hvi
      by (apply (valid_shape_index _ x); assumption).
    destruct (finite_nth x i Hf Hi) as (e & Ee & _). exists e.
    split; [exact Ee|].
    rewrite (Hnz i Hi), Ee, (bnth_centers hi lo i Hl Hvi),
      (bnth_halfwidths hi lo i Hl Hvi). reflexivity. }
  assert (inside z (Some (map Fin lo)) (Some (map Fin hi))) as Hin.
  { apply (within_strictly_inside z lo hi Hl Hvz). intros i Hi.
    rewrite Hlz in Hi. destruct (Helem i Hi) as (e & _ & Ez).
    eexists. split; [exact Ez|].
    apply tanh_image. apply Hord.
    apply (valid_shape_index _ x); assumption. }
  destruct (TanhBound_backward_spec lo hi z Hl Hvz Hord) as [_ Hok].
  cbv zeta in Hok.
  destruct (Hok (inside_in_range _ _ _ Hin)) as (z' & Hz' & Hlz' & Hnz').
  exists z. split; [exact Hz|]. fold self in Hz'. rewrite Hz'. apply f_equal.
  apply (nth_ext z' x NaN NaN); [lia|].
  intros i Hi. rewrite Hlz', Hlz in Hi.
  destruct (Helem i Hi) as (e & Ee & Ez).
  assert (bnth lo i 0 < bnth hi i 0) as Hlt
    by (apply Hord; apply (valid_shape_index _ x); assumption).
  rewrite (Hnz' i) by lia. rewrite Ez, Ee, (normalized _ _ _ Hlt).
  rewrite (normalized_image _ _ (tanh e) Hlt).
  rewrite (farctanh_fin _ (tanh_bounds e)), arctanh_tanh. reflexivity.
Qed.

Lemma TanhBound_roundtrip_back (lo hi : list R) (y : ndarray) :
  length lo = length hi ->
  (forall i, valid_index (length lo) i -> bnth lo i 0 < bnth hi i 0) ->
  valid_shape (length lo) y ->
  inside y (Some (map Fin lo)) (Some (map Fin hi)) ->
  let self := mkBoundTransform (Some (map Fin lo)) (Some (map Fin hi))
                               (length lo) in
  exists x,
    TanhBound_backward self (map Fin (centers hi lo))
                       (map Fin (halfwidths hi lo)) y = Ok x
    /\ TanhBound_forward self (map Fin (centers hi lo))
                         (map Fin (halfwidths hi lo)) x = Ok y.
Proof.
  intros Hl Hord Hv Hin self.
  destruct (TanhBound_backward_spec lo hi y Hl Hv Hord) as [_ Hok].
  cbv zeta in Hok.
  destruct (Hok (inside_in_range _ _ _ Hin)) as (z & Hz & Hlz & Hnz).
  fold self in Hz.
  assert (forall i, (i < length y)%nat ->
            exists e, nth i y NaN = Fin e
              /\ bnth lo i 0 < e < bnth hi i 0
              /\ nth i z NaN
                 = Fin (arctanh ((2 * e - (bnth hi i 0 + bnth lo i 0))
                                 / (bnth hi i 0 - bnth lo i 0))))
    as Helem.
  { intros i Hi.
    assert (valid_index (length lo) i) as Hvi
      by (apply (valid_shape_index _ y); assumption).
    assert (valid_index (length hi) i) as Hvi' by (rewrite <- Hl; exact Hvi).
    destruct (inside_fin y lo hi i Hin Hi Hvi Hvi') as (e & Ee & He).
    exists e. split; [exact Ee|]. split; [exact He|].
    rewrite (Hnz i Hi), Ee, normalized by lra.
    apply farctanh_fin. apply normalized_bounds. exact He. }
  assert (valid_shape (length lo) z) as Hvz.
  { unfold valid_shape in *. lia. }
  destruct (bound_forward_spec ftanh self (centers hi lo) (halfwidths hi lo) z)
    as (w & Hw & Hlw & Hnw).
  { rewrite length_centers, length_halfwidths by exact Hl. reflexivity. }
  { rewrite length_centers by exact Hl. reflexivity. }
  { rewrite length_centers by exact Hl. exact Hvz. }
  exists z. split; [exact Hz|]. unfold TanhBound_forward. rewrite Hw. apply f_equal.
  apply (nth_ext w y NaN NaN); [lia|].
  intros i Hi. rewrite Hlw, Hlz in Hi.
  destruct (Helem i Hi) as (e & Ee & He & Ez).
  assert (valid_index (length lo) i) as Hvi
    by (apply (valid_shape_index _ y); assumption).
  rewrite (Hnw i) by lia.
  rewrite Ez, Ee, (bnth_centers hi lo i Hl Hvi),
    (bnth_halfwidths hi lo i Hl Hvi).
  cbn [ftanh fmul fadd]. f_equal.
  rewrite (tanh_arctanh _ (normalized_bounds _ _ _ He)). field. lra.
Qed.

Lemma atan_normalized (l h e : R) :
  l < h ->
  fdiv (fsub (Fin (5 / 10 * (h + l) + (h - l) / PI * e))
             (Fin (5 / 10 * (h + l))))
       (Fin ((h - l) / PI)) = Fin e.
Proof.
  intros H. pose proof PI_RGT_0 as HPI. simpl.
  destruct (Req_dec_T ((h - l) / PI) 0) as [E | _].
  - exfalso. assert ((h - l) / PI * PI = 0) as E' by (rewrite E; lra).
    unfold Rdiv in E'. rewrite Rmult_assoc, Rinv_l in E' by lra. lra.
  - f_equal. field. split; lra.
Qed.

Lemma tan_normalized (l h e : R) :
  l < e < h ->
  exists u,
    fdiv (fsub (Fin e) (Fin (5 / 10 * (h + l)))) (Fin ((h - l) / PI)) = Fin u
    /\ - (PI / 2) < u < PI / 2
    /\ 5 / 10 * (h + l) + (h - l) / PI * u = e.
Proof.
  intros [H1 H2]. pose proof PI_RGT_0 as HPI.
  exists ((e - 5 / 10 * (h + l)) / ((h - l) / PI)). split; [|split].
  - simpl. destruct (Req_dec_T ((h - l) / PI) 0) as [E | _]; [|reflexivity].
    exfalso. assert ((h - l) / PI * PI = 0) as E' by (rewrite E; lra).
    unfold Rdiv in E'. rewrite Rmult_assoc, Rinv_l in E' by lra. lra.
  - set (c := (2 * e - (h + l)) / (h - l)).
    pose proof (normalized_bounds l h e (conj H1 H2)) as Hc. fold c in Hc.
    replace ((e - 5 / 10 * (h + l)) / ((h - l) / PI)) with (c * (PI / 2))
      by (unfold c; field; split; lra).
    split; nra.
  - field. split; lra.
Qed.

Lemma ArctanBound_roundtrip (l h : R) (x : ndarray) :
  l < h -> finite x -> x <> [] ->
  let self := mkBoundTransform (Some (map Fin [l])) (Some (map Fin [h]))
                               (length [l]) in
  exists y,
    ArctanBound_forward self (map Fin (centers [h] [l]))
                        (map Fin (widths_over_pi [h] [l])) x = Ok y
    /\ ArctanBound_backward self (map Fin (centers [h] [l]))
                            (map Fin (widths_over_pi [h] [l])) y = Ok x.
Proof.
  intros Hlt Hf Hne self.
  destruct (bound_forward_spec farctan self (centers [h] [l])
              (widths_over_pi [h] [l]) x) as (z & Hz & Hlz & Hnz);
    [reflexivity | reflexivity | left; reflexivity |].
  assert (forall i, (i < length x)%nat ->
            exists e, nth i x NaN = Fin e
              /\ nth i z NaN = Fin (5 / 10 * (h + l) + (h - l) / PI * atan e))
    as Helem.
  { intros i Hi. destruct (finite_nth x i Hf Hi) as (e & Ee & _). exists e.
    split; [exact Ee|]. rewrite (Hnz i Hi), Ee. reflexivity. }
  assert (inside z (Some (map Fin [l])) (Some (map Fin [h]))) as Hin.
  { apply (within_strictly_inside z [l] [h]);
      [reflexivity | left; reflexivity |].
    intros i Hi. rewrite Hlz in Hi. destruct (Helem i Hi) as (e & _ & Ez).
    eexists. split; [exact Ez|]. apply atan_image. exact Hlt. }
  assert (finite z) as Hfz.
  { apply finite_of_nth. intros i Hi. rewrite Hlz in Hi.
    destruct (Helem i Hi) as (e & _ & Ez). eexists. exact Ez. }
  assert (z <> []) as Hnz0.
  { intros E. rewrite E in Hlz. destruct x; [contradiction | discriminate]. }
  destruct (ArctanBound_backward_spec l h z Hfz Hnz0
              (inside_in_range _ _ _ Hin)) as (z' & Hz' & Hlz' & Hnz').
  exists z. split; [exact Hz|]. fold self in Hz'. rewrite Hz'. apply f_equal.
  apply (nth_ext z' x NaN NaN); [lia|].
  intros i Hi. rewrite Hlz', Hlz in Hi.
  destruct (Helem i Hi) as (e & Ee & Ez).
  rewrite (Hnz' i) by lia. rewrite Ez, Ee, (atan_normalized _ _ _ Hlt).
  cbn [ftan]. rewrite tan_atan. reflexivity.
Qed.

Lemma ArctanBound_roundtrip_back (l h : R) (y : ndarray) :
  l < h -> y <> [] ->
  inside y (Some (map Fin [l])) (Some (map Fin [h])) ->
  let self := mkBoundTransform (Some (map Fin [l])) (Some (map Fin [h]))
                               (length [l]) in
  exists x,
    ArctanBound_backward self (map Fin (centers [h] [l]))
                         (map Fin (widths_over_pi [h] [l])) y = Ok x
    /\ ArctanBound_forward self (map Fin (centers [h] [l]))
                           (map Fin (widths_over_pi [h] [l])) x = Ok y.
Proof.
  intros Hlt Hne Hin self.
  assert (finite y) as Hf.
  { apply (inside_finite y [l] [h] Hin); [left|]; reflexivity. }
  destruct (ArctanBound_backward_spec l h y Hf Hne (inside_in_range _ _ _ Hin))
    as (z & Hz & Hlz & Hnz).
  fold self in Hz.
  assert (forall i, (i < length y)%nat ->
            exists e u, nth i y NaN = Fin e /\ nth i z NaN = Fin (tan u)
              /\ - (PI / 2) < u < PI / 2
              /\ 5 / 10 * (h + l) + (h - l) / PI * u = e) as Helem.
  { intros i Hi.
    destruct (inside_fin y [l] [h] i Hin Hi) as (e & Ee & He);
      [right; reflexivity | right; reflexivity |].
    cbn [bnth] in He.
    destruct (tan_normalized l h e He) as (u & Eu & Hu & Hue).
    exists e, u. split; [exact Ee|]. split; [|split; assumption].
    rewrite (Hnz i Hi), Ee, Eu. reflexivity. }
  destruct (bound_forward_spec farctan self (centers [h] [l])
              (widths_over_pi [h] [l]) z) as (w & Hw & Hlw & Hnw);
    [reflexivity | reflexivity | left; reflexivity |].
  exists z. split; [exact Hz|]. unfold ArctanBound_forward. rewrite Hw.
  apply f_equal. apply (nth_ext w y NaN NaN); [lia|].
  intros i Hi. rewrite Hlw, Hlz in Hi.
  destruct (Helem i Hi) as (e & u & Ee & Ez & Hu & Hue).
  rewrite (Hnw i) by lia. rewrite Ez, Ee.
  cbn [bnth centers widths_over_pi combine map fst snd farctan fmul fadd].
  rewrite (atan_tan u Hu). f_equal. exact Hue.
Qed.

Lemma constructors_bijective :
  (forall ra rb t, Affine (Fin ra) (Fin rb) = Ok t -> bijective t)
  /\ (forall rb rc t,
        0 < rb -> rb <> 1 -> rc <> 0 ->
        Exponentiate (Fin rb) (Fin rc) = Ok t -> bijective t)
  /\ (forall a_min a_max t lo hi,
        TanhBound (Some a_min) (Some a_max) = Ok t ->
        as_array a_min = map Fin lo -> as_array a_max = map Fin hi ->
        length lo = length hi -> bijective t)
  /\ (forall a_min a_max t l h,
        ArctanBound (Some a_min) (Some a_max) = Ok t ->
        as_array a_min = [Fin l] -> as_array a_max = [Fin h] -> bijective t)
  /\ (forall t, CumulativeDensity = Ok t -> bijective t)
  /\ (forall T t, bijective T -> Reverted T = Ok t -> bijective t).
Proof.
  split; [|split; [|split; [|split; [|split]]]].
  - intros ra rb t. unfold Affine. simpl.
    destruct (Req_dec_T ra 0) as [E | E]; simpl; intros H; [discriminate|].
    injection H as <-. constructor. exact E.
  - intros rb rc t H1 H2 H3 H. injection H as <-. constructor; assumption.
  - intros a_min a_max t lo hi H Elo Ehi Hl.
    destruct (TanhBound_built _ _ _ lo hi H Elo Ehi Hl) as [-> Hord].
    constructor; assumption.
  - intros a_min a_max t l h H Elo Ehi.
    destruct (ArctanBound_built _ _ _ [l] [h] H Elo Ehi eq_refl) as [-> Hord].
    constructor. apply (Hord 0%nat). right. reflexivity.
  - intros t H. injection H as <-. constructor.
  - intros T t HT H. injection H as <-. constructor. exact HT.
Qed.

Section Roundtrip.

(** What is used of the normal distribution: its distribution function
    takes its values strictly between 0 and 1 and the quantile function is
    its inverse. *)
Hypothesis norm_cdf_range : forall x, 0 < norm_cdf_R x < 1.
Hypothesis norm_ppf_cdf : forall x, norm_ppf_R (norm_cdf_R x) = x.
Hypothesis norm_cdf_ppf : forall q, 0 < q < 1 -> norm_cdf_R (norm_ppf_R q) = q.

Lemma probability_inside (z : ndarray) :
  Forall probability z <-> inside z (Some [Fin 0]) (Some [Fin 1]).
Proof.
  split.
  - intros H i Hi. rewrite Forall_forall in H.
    destruct (H _ (nth_In z NaN Hi)) as (q & -> & Hq).
    cbn [bnth]. split; apply f_lt_fin; lra.
  - intros H. apply Forall_forall. intros v Hv.
    destruct (In_nth z v NaN Hv) as (i & Hi & <-).
    destruct (H i Hi) as [H1 H2]. cbn [bnth] in H1, H2.
    destruct (nth i z NaN) as [q| | |]; try discriminate.
    exists q. split; [reflexivity|].
    apply f_lt_fin in H1. apply f_lt_fin in H2. lra.
Qed.

Lemma probability_finite (z : ndarray) : Forall probability z -> finite z.
Proof.
  intros H. apply Forall_forall. intros v Hv. rewrite Forall_forall in H.
  destruct (H v Hv) as (q & -> & _). exact I.
Qed.

Lemma norm_ppf_fin (q : R) :
  0 < q < 1 -> norm_ppf norm_ppf_R (Fin q) = Fin (norm_ppf_R q).
Proof.
  intros [H1 H2]. simpl.
  destruct (Req_dec_T q 0); [lra|]. destruct (Req_dec_T q 1); [lra|].
  destruct (Rlt_dec 0 q); [|lra]. destruct (Rlt_dec q 1); [|lra].
  reflexivity.
Qed.

Lemma CumulativeDensity_roundtrip (x : ndarray) :
  finite x -> x <> [] ->
  CumulativeDensity_backward norm_ppf_R (map (norm_cdf norm_cdf_R) x) = Ok x.
Proof.
  intros Hf Hne. set (z := map (norm_cdf norm_cdf_R) x).
  assert (Forall probability z) as Hp.
  { unfold z. apply Forall_forall. intros v Hv. apply in_map_iff in Hv.
    destruct Hv as (u & <- & Hu). unfold finite in Hf.
    rewrite Forall_forall in Hf. specialize (Hf u Hu).
    destruct u as [e| | |]; try contradiction.
    exists (norm_cdf_R e). split; [reflexivity | apply norm_cdf_range]. }
  assert (z <> []) as Hnz.
  { unfold z. destruct x; [contradiction | discriminate]. }
  destruct (CumulativeDensity_backward_spec z (probability_finite z Hp) Hnz)
    as [_ Hok].
  rewrite (Hok (inside_in_range _ _ _ (proj1 (probability_inside z) Hp))).
  apply f_equal. unfold z. rewrite map_map.
  apply map_finite_id; [exact Hf|].
  intros e. cbn [norm_cdf]. rewrite norm_ppf_fin by apply norm_cdf_range.
  rewrite norm_ppf_cdf. reflexivity.
Qed.

Lemma CumulativeDensity_roundtrip_back (y : ndarray) :
  y <> [] -> inside y (Some [Fin 0]) (Some [Fin 1]) ->
  CumulativeDensity_backward norm_ppf_R y = Ok (map (norm_ppf norm_ppf_R) y)
  /\ map (norm_cdf norm_cdf_R) (map (norm_ppf norm_ppf_R) y) = y.
Proof.
  intros Hne Hin. pose proof (proj2 (probability_inside y) Hin) as Hp.
  destruct (CumulativeDensity_backward_spec y (probability_finite y Hp) Hne)
    as [_ Hok].
  split; [exact (Hok (inside_in_range _ _ _ Hin))|].
  rewrite map_map. apply (map_Forall_id probability); [exact Hp|].
  intros v (q & -> & Hq). rewrite norm_ppf_fin by exact Hq.
  cbn [norm_cdf]. rewrite norm_cdf_ppf by exact Hq. reflexivity.
Qed.

(** The bijection property, on the reals: for a bijective transform [T],
    [backward] undoes [forward] on the domain of [forward], and [forward]
    undoes [backward] on the domain of [backward]. *)
Theorem bijective_roundtrip :
  forall T : Transform,
    bijective T ->
    (forall x, forward_domain T x ->
       exists y, forward T x = Ok y /\ backward T y = Ok x)
    /\ (forall y, backward_domain T y ->
          exists x, backward T y = Ok x /\ forward T x = Ok y).
Proof.
  intros T HT. induction HT as [ra rb Ha | rb rc Hb Hb1 Hc | lo hi Hl Hord
                               | l h Hlt | | T HT [IHf IHb]].
  - split; intros x Hx; cbn [forward_domain backward_domain] in Hx;
      eexists; (split; [reflexivity|]); cbn [Transforms.forward
        Transforms.backward]; unfold Affine_forward, Affine_backward;
      rewrite map_map; apply f_equal; apply map_finite_id; try exact Hx;
      intros e; apply (Affine_roundtrip ra rb e Ha).
  - split; intros x Hx; cbn [forward_domain backward_domain] in Hx;
      eexists; (split; [reflexivity|]); cbn [Transforms.forward
        Transforms.backward];
      unfold Exponentiate_forward, Exponentiate_backward;
      rewrite map_map; apply f_equal.
    + apply map_finite_id; [exact Hx|].
      intros e. apply Exponentiate_roundtrip; assumption.
    + apply (map_Forall_id (fun v => exists e, v = Fin e /\ 0 < e));
        [exact Hx|].
      intros v (e & -> & He). apply Exponentiate_roundtrip_back; assumption.
  - split.
    + intros x [Hf Hv]. cbn [shape] in Hv.
      exact (TanhBound_roundtrip lo hi x Hl Hord Hf Hv).
    + intros y [Hv Hin]. cbn [shape a_min a_max] in Hv, Hin.
      exact (TanhBound_roundtrip_back lo hi y Hl Hord Hv Hin).
  - split.
    + intros x [Hf Hne]. exact (ArctanBound_roundtrip l h x Hlt Hf Hne).
    + intros y [Hne Hin]. cbn [a_min a_max] in Hin.
      exact (ArctanBound_roundtrip_back l h y Hlt Hne Hin).
  - split.
    + intros x [Hf Hne]. eexists. split; [reflexivity|].
      exact (CumulativeDensity_roundtrip x Hf Hne).
    + intros y [Hne Hin].
      destruct (CumulativeDensity_roundtrip_back y Hne Hin) as [H1 H2].
      eexists. split; [exact H1|]. cbn [Transforms.forward]. apply f_equal.
      exact H2.
  - split.
    + intros x Hx. destruct (IHb x Hx) as (y & H1 & H2).
      exists y. split; assumption.
    + intros y Hy. destruct (IHf y Hy) as (x & H1 & H2).
      exists x. split; assumption.
Qed.

End Roundtrip.

End Facts.

Local Abbreviation forward := Transforms.forward.
Local Abbreviation backward := Transforms.backward.

(** *** Closed instances *)

Lemma f_ge_0_1 : f_ge (Fin 0) (Fin 1) = false.
Proof. unfold f_ge. simpl. destruct (Rle_dec 1 0); [lra | reflexivity]. Qed.

Lemma TanhBound_0_1 :
  TanhBound (Some (Scalar (Fin 0))) (Some (Scalar (Fin 1))) = Ok unit_tanh.
Proof.
  unfold TanhBound, BoundTransform_init, broadcast2.
  cbn [option_map as_array length Nat.eqb combine map fst snd bind any existsb].
  rewrite f_ge_0_1. reflexivity.
Qed.

Lemma no_conflict_0_1 :
  ~ bounds_conflict (Some (Scalar (Fin 0))) (Some (Scalar (Fin 1))).
Proof.
  intros (i & H). cbn [as_array bnth] in H. rewrite f_ge_0_1 in H.
  discriminate.
Qed.

Lemma finite_2 : finite [Fin 2].
Proof. repeat constructor. Qed.

Lemma above_2 : above [Fin 2] [Fin 1].
Proof.
  exists 0%nat. split; [simpl; lia|]. simpl.
  destruct (Rlt_dec 1 2); [reflexivity | lra].
Qed.

Lemma in_range_1_0 : ~ out_of_range [Fin 1; Fin 0] (Some [Fin 0]) (Some [Fin 1]).
Proof.
  intros [(i & Hi & H) | (i & Hi & H)];
    destruct i as [|[|i]]; simpl in Hi; try lia; simpl in H.
  - destruct (Rlt_dec 1 1); [lra | discriminate].
  - destruct (Rlt_dec 1 0); [lra | discriminate].
  - destruct (Rlt_dec 1 0); [lra | discriminate].
  - destruct (Rlt_dec 0 0); [lra | discriminate].
Qed.

Lemma construction_errors_witness :
  Affine (Fin 0) (Fin 1) = Raise ValueError
  /\ Affine (Fin 2) (Fin 1) = Ok (AffineT (Fin 2) (Fin 1))
  /\ (TanhBound None (Some (Scalar (Fin 1))) = Raise ValueError
      /\ ArctanBound None (Some (Scalar (Fin 1))) = Raise ValueError)
  /\ (BoundTransform_init None None = Raise ValueError
      /\ Clipping None None = Raise ValueError)
  /\ (succeeds (BoundTransform_init None (Some (Scalar (Fin 1))))
      /\ succeeds (Clipping None (Some (Scalar (Fin 1)))))
  /\ (succeeds (TanhBound (Some (Scalar (Fin 0))) (Some (Scalar (Fin 1))))
      /\ succeeds (ArctanBound (Some (Scalar (Fin 0)))
                               (Some (Scalar (Fin 1))))).
Proof.
  split; [|split; [|split; [|split; [|split]]]].
  - apply (proj1 construction_errors (Fin 0) (Fin 1)). reflexivity.
  - apply (proj1 construction_errors (Fin 2) (Fin 1)).
    intros H. injection H as H. lra.
  - apply (proj2 construction_errors None (Some (Scalar (Fin 1)))).
    left. left. reflexivity.
  - apply (proj2 construction_errors None None). left. split; reflexivity.
  - apply (proj2 construction_errors None (Some (Scalar (Fin 1)))).
    intros [[_ H] | [[] | H]]; [discriminate | apply H; exact I].
  - apply (proj2 construction_errors (Some (Scalar (Fin 0)))
             (Some (Scalar (Fin 1)))).
    intros [[H | H] | [H | H]]; try discriminate.
    + exact (no_conflict_0_1 H).
    + apply H. left. reflexivity.
Defined.

(** C5, as stated, leaves out a configuration: two bounds of shapes [(2,)]
    and [(3,)] are both given and [a_min >= a_max] holds at no element, yet
    the construction raises a value error (from the comparison of the two
    arrays). *)
Lemma incompatible_bounds_raise :
  ~ missing_one (Some (Array [Fin 0; Fin 0]))
                (Some (Array [Fin 1; Fin 1; Fin 1]))
  /\ ~ bounds_conflict (Some (Array [Fin 0; Fin 0]))
                       (Some (Array [Fin 1; Fin 1; Fin 1]))
  /\ Clipping (Some (Array [Fin 0; Fin 0]))
              (Some (Array [Fin 1; Fin 1; Fin 1])) = Raise ValueError
  /\ TanhBound (Some (Array [Fin 0; Fin 0]))
               (Some (Array [Fin 1; Fin 1; Fin 1])) = Raise ValueError.
Proof.
  split; [|split; [|split]].
  - intros [H | H]; discriminate.
  - intros (i & H). cbn [as_array bnth] in H.
    destruct i as [|[|[|i]]]; cbn [nth] in H.
    + rewrite f_ge_0_1 in H. discriminate.
    + rewrite f_ge_0_1 in H. discriminate.
    + rewrite f_ge_nan_l in H. discriminate.
    + rewrite f_ge_nan_l in H. discriminate.
  - reflexivity.
  - reflexivity.
Qed.

Lemma shape_mismatch_raises_witness :
  (forward cauchy_cdf cauchy_ppf
     (ClippingT (mkBoundTransform (Some [Fin 0; Fin 0]) (Some [Fin 1; Fin 1]) 2))
     [Fin 0] = Raise ValueError
   /\ backward cauchy_cdf cauchy_ppf
        (ClippingT (mkBoundTransform (Some [Fin 0; Fin 0])
                                     (Some [Fin 1; Fin 1]) 2))
        [Fin 0] = Raise ValueError)
  /\ _check_shape unit_self [Fin 0; Fin 0; Fin 0] = Ok tt
  /\ succeeds (forward cauchy_cdf cauchy_ppf unit_tanh [Fin 0; Fin 0; Fin 0])
  /\ succeeds (backward cauchy_cdf cauchy_ppf unit_tanh [Fin 1; Fin 0]).
Proof.
  split; [|split; [|split]].
  - apply (proj1 (shape_mismatch_raises cauchy_cdf cauchy_ppf
                    (mkBoundTransform (Some [Fin 0; Fin 0])
                                      (Some [Fin 1; Fin 1]) 2)
                    [] [] [Fin 0])).
    + simpl. lia.
    + simpl. lia.
    + simpl. auto.
  - apply (proj1 (proj2 (shape_mismatch_raises cauchy_cdf cauchy_ppf
                           unit_self [] [] [Fin 0; Fin 0; Fin 0]))).
    reflexivity.
  - apply (proj2 (proj2 (shape_mismatch_raises cauchy_cdf cauchy_ppf
                           unit_self [] [] [Fin 0; Fin 0; Fin 0]))
             (Some (Scalar (Fin 0))) (Some (Scalar (Fin 1)))).
    + split; reflexivity.
    + left. exact TanhBound_0_1.
  - apply (proj2 (proj2 (shape_mismatch_raises cauchy_cdf cauchy_ppf
                           unit_self [] [] [Fin 1; Fin 0]))
             (Some (Scalar (Fin 0))) (Some (Scalar (Fin 1)))).
    + split; reflexivity.
    + left. exact TanhBound_0_1.
    + repeat constructor.
    + discriminate.
    + exact in_range_1_0.
Defined.

(** C6.  The attribute [shape] is the shape of [a_min] alone, not the
    broadcast of the two bounds.  [TanhBound(0., [1., 2., 3.])] has bounds
    that broadcast to [(3,)] (its [_b] has three elements) but [shape]
    [(1,)]: an input of shape [(1,)] passes the shape check and [forward]
    returns three elements, where an input whose shape differs from the
    transform's should be refused.  The mirrored
    [TanhBound([0., 0., 0.], 1.)] has [shape] [(3,)] and does refuse the
    same input with a value error. *)
Theorem shape_ignores_a_max :
  exists self _b _a self' _b' _a',
    TanhBound (Some (Scalar (Fin 0))) (Some (Array [Fin 1; Fin 2; Fin 3]))
    = Ok (TanhBoundT self _b _a)
    /\ self.(shape) = 1%nat /\ length _b = 3%nat
    /\ _check_shape self [Fin 0] = Ok tt
    /\ (exists y, TanhBound_forward self _b _a [Fin 0] = Ok y
                  /\ length y = 3%nat)
    /\ TanhBound (Some (Array [Fin 0; Fin 0; Fin 0])) (Some (Scalar (Fin 1)))
       = Ok (TanhBoundT self' _b' _a')
    /\ self'.(shape) = 3%nat /\ length _b' = 3%nat
    /\ TanhBound_forward self' _b' _a' [Fin 0] = Raise ValueError.
Proof.
  destruct (TanhBound_ok (Some (Scalar (Fin 0)))
              (Some (Array [Fin 1; Fin 2; Fin 3])))
    as (lo & hi & s & d & E1 & E2 & Hs & Hd & Ht & _).
  { right. left. reflexivity. }
  { intros [[H | H] | (i & H)]; try discriminate.
    cbn [as_array bnth] in H. unfold f_ge in H.
    destruct i as [|[|[|i]]]; cbn [nth] in H.
    - apply f_le_fin in H. lra.
    - apply f_le_fin in H. lra.
    - apply f_le_fin in H. lra.
    - destruct i; discriminate. }
  injection E1 as <-. injection E2 as <-. cbn [as_array] in *.
  rewrite broadcast2_right in Hs, Hd. injection Hs as <-. injection Hd as <-.
  destruct (TanhBound_ok (Some (Array [Fin 0; Fin 0; Fin 0]))
              (Some (Scalar (Fin 1))))
    as (lo & hi & s & d & E1 & E2 & Hs & Hd & Ht' & _).
  { right. right. reflexivity. }
  { intros [[H | H] | (i & H)]; try discriminate.
    cbn [as_array bnth] in H. unfold f_ge in H.
    destruct i as [|[|[|i]]]; cbn [nth] in H.
    - apply f_le_fin in H. lra.
    - apply f_le_fin in H. lra.
    - apply f_le_fin in H. lra.
    - destruct i; discriminate. }
  injection E1 as <-. injection E2 as <-. cbn [as_array] in *.
  rewrite broadcast2_left in Hs, Hd. injection Hs as <-. injection Hd as <-.
  eexists _, _, _, _, _, _. split; [exact Ht|].
  split; [reflexivity|]. split; [reflexivity|]. split; [reflexivity|].
  split; [eexists; split; reflexivity|].
  split; [exact Ht'|].
  split; [reflexivity|]. split; reflexivity.
Qed.

Lemma Clipping_0_1 :
  Clipping (Some (Scalar (Fin 0))) (Some (Scalar (Fin 1)))
  = Ok (ClippingT unit_self).
Proof.
  unfold Clipping, BoundTransform_init. cbn.
  destruct (Rle_dec 1 0); [lra|]. reflexivity.
Qed.

Lemma above_nan_2 : above [NaN; Fin 2] [Fin 1].
Proof.
  exists 1%nat. split; [simpl; lia|]. simpl.
  destruct (Rlt_dec 1 2); [reflexivity | lra].
Qed.

Lemma above_inf : above [PInf] [Fin 1].
Proof. exists 0%nat. split; [simpl; lia | reflexivity]. Qed.

Lemma backward_out_of_range_raises_witness :
  backward cauchy_cdf cauchy_ppf unit_tanh [NaN; Fin 2] = Raise ValueError
  /\ backward cauchy_cdf cauchy_ppf (ClippingT unit_self) [PInf]
     = Raise ValueError
  /\ backward cauchy_cdf cauchy_ppf CumulativeDensityT [Fin 2]
     = Raise ValueError.
Proof.
  destruct (backward_out_of_range_raises cauchy_cdf cauchy_ppf)
    as (H1 & H2 & H3 & _).
  split; [|split].
  - apply (H1 (Some (Scalar (Fin 0))) (Some (Scalar (Fin 1)))).
    + exact TanhBound_0_1.
    + left. exact above_nan_2.
  - apply (H2 (Some (Scalar (Fin 0))) (Some (Scalar (Fin 1)))).
    + right. exact Clipping_0_1.
    + repeat constructor; discriminate.
    + left. exact above_inf.
  - apply H3.
    + repeat constructor; discriminate.
    + left. exact above_2.
Defined.



(** C7, as stated, fails for [Exponentiate]: the object is built, and
    [backward] of a negative value returns NaN instead of raising. *)
Lemma Exponentiate_backward_negative :
  Exponentiate (Fin 10) (Fin 1) = Ok (ExponentiateT (Fin 10) (Fin 1))
  /\ backward cauchy_cdf cauchy_ppf (ExponentiateT (Fin 10) (Fin 1)) [Fin (-1)]
     = Exponentiate_backward (Fin 10) (Fin 1) [Fin (-1)]
  /\ Exponentiate_backward (Fin 10) (Fin 1) [Fin (-1)] = Ok [NaN]
  /\ Exponentiate_backward (Fin 10) (Fin 1) [Fin (-1)] <> Raise ValueError.
Proof.
  assert (flog (Fin (-1)) = NaN) as E.
  { simpl. destruct (Rlt_dec 0 (-1)); [lra|].
    destruct (Req_dec_T (-1) 0); [lra | reflexivity]. }
  split; [reflexivity|]. split; [reflexivity|].
  unfold Exponentiate_backward. cbn [map]. rewrite E.
  split; [reflexivity | discriminate].
Qed.

(** The Cauchy pair has the properties assumed of the normal pair, so
    the bijection property has instances. *)
Lemma cauchy_cdf_range (x : R) : 0 < cauchy_cdf x < 1.
Proof.
  unfold cauchy_cdf. pose proof (atan_bound x) as [H1 H2].
  pose proof PI_RGT_0 as HPI.
  assert (- (1 / 2) < atan x / PI < 1 / 2) as [H3 H4].
  { split.
    - apply (Rmult_lt_reg_r PI); [lra|].
      unfold Rdiv at 2. rewrite Rmult_assoc, Rinv_l by lra. lra.
    - apply (Rmult_lt_reg_r PI); [lra|].
      unfold Rdiv at 1. rewrite Rmult_assoc, Rinv_l by lra. lra. }
  lra.
Qed.

Lemma cauchy_ppf_cdf (x : R) : cauchy_ppf (cauchy_cdf x) = x.
Proof.
  unfold cauchy_ppf, cauchy_cdf. pose proof PI_RGT_0 as HPI.
  replace (PI * (1 / 2 + atan x / PI - 1 / 2)) with (atan x)
    by (field; lra).
  apply tan_atan.
Qed.

Lemma cauchy_cdf_ppf (q : R) : 0 < q < 1 -> cauchy_cdf (cauchy_ppf q) = q.
Proof.
  intros [H1 H2]. unfold cauchy_ppf, cauchy_cdf. pose proof PI_RGT_0 as HPI.
  rewrite atan_tan by (split; nra). field. lra.
Qed.

Lemma bijective_roundtrip_cauchy (T : Transform) (x : ndarray) :
  bijective T -> forward_domain T x ->
  exists y, forward cauchy_cdf cauchy_ppf T x = Ok y
            /\ backward cauchy_cdf cauchy_ppf T y = Ok x.
Proof.
  intros HT Hx.
  exact (proj1 (bijective_roundtrip cauchy_cdf cauchy_ppf cauchy_cdf_range
                  cauchy_ppf_cdf cauchy_cdf_ppf T HT) x Hx).
Qed.

End TransformsFacts.

(** ** [TanhBound] in double precision *)

Module Transforms64Facts.
Import Transforms64.
Local Open Scope R_scope.

(** [exp 64] is larger than [2 ^ 64]: from [2 < exp 1] by squaring. *)
Lemma exp_64 : 2 ^ 64 < exp 64.
Proof.
  assert (2 < exp 1) as H1 by (pose proof (exp_ineq1 1); lra).
  assert (forall a b, 0 < a -> a < exp b -> a * a < exp (b + b)) as Hsq.
  { intros a b Ha H. rewrite exp_plus.
    apply Rmult_le_0_lt_compat; lra. }
  pose proof (Hsq 2 1 ltac:(lra) H1) as H2.
  set (a2 := 2 * 2) in *. set (b2 := 1 + 1) in *.
  pose proof (Hsq a2 b2 ltac:(unfold a2; lra) H2) as H4.
  set (a4 := a2 * a2) in *. set (b4 := b2 + b2) in *.
  pose proof (Hsq a4 b4 ltac:(unfold a4, a2; lra) H4) as H8.
  set (a8 := a4 * a4) in *. set (b8 := b4 + b4) in *.
  pose proof (Hsq a8 b8 ltac:(unfold a8, a4, a2; lra) H8) as H16.
  set (a16 := a8 * a8) in *. set (b16 := b8 + b8) in *.
  pose proof (Hsq a16 b16 ltac:(unfold a16, a8, a4, a2; lra) H16) as H32.
  set (a32 := a16 * a16) in *. set (b32 := b16 + b16) in *.
  pose proof (Hsq a32 b32 ltac:(unfold a32, a16, a8, a4, a2; lra) H32) as H64.
  replace (b32 + b32) with 64 in H64
    by (unfold b32, b16, b8, b4, b2; lra).
  replace (a32 * a32) with (2 ^ 64) in H64
    by (unfold a32, a16, a8, a4, a2; ring).
  exact H64.
Qed.

(** Saturation of [tanh]: from 40 on, [tanh x] is nearer to 1 than the
    midpoint [1 - 2^-54] of 1 and the double below it, [1 - 2^-53]. *)
Lemma tanh_saturates (x : R) : 40 <= x -> 1 - / 2 ^ 54 < tanh x < 1.
Proof.
  intros Hx. split; [|apply TransformsFacts.tanh_bounds].
  unfold tanh, sinh, cosh.
  pose proof (exp_pos x) as Hp. pose proof (exp_pos (- x)) as Hq.
  assert (exp x * exp (- x) = 1) as Hpq.
  { rewrite <- exp_plus. replace (x + - x) with 0 by lra. apply exp_0. }
  assert (2 ^ 64 < exp x * exp x) as Hbig.
  { rewrite <- exp_plus. apply (Rlt_le_trans _ (exp 64)); [exact exp_64|].
    destruct (Req_dec_T (x + x) 64) as [-> | Hne]; [apply Rle_refl|].
    apply Rlt_le. apply exp_increasing. lra. }
  set (p := exp x) in *. set (q := exp (- x)) in *.
  replace ((p - q) / 2 / ((p + q) / 2)) with (1 - 2 * q / (p + q))
    by (field; lra).
  assert (2 * q / (p + q) < / 2 ^ 54); [|lra].
  assert (0 < 2 ^ 54) as H54 by (apply pow_lt; lra).
  apply (Rmult_lt_reg_r (p + q)); [lra|].
  unfold Rdiv. rewrite Rmult_assoc, Rinv_l by lra.
  apply (Rmult_lt_reg_r (2 ^ 54)); [exact H54|].
  replace (/ 2 ^ 54 * (p + q) * 2 ^ 54) with (p + q) by (field; lra).
  apply (Rmult_lt_reg_r p); [exact Hp|].
  replace (2 * q * 1 * 2 ^ 54 * p) with (2 ^ 55 * (p * q)) by ring.
  rewrite Hpq.
  assert (2 ^ 55 < 2 ^ 64) by lra.
  nra.
Qed.

Import PrimFloat Float64.
Local Open Scope float_scope.
#[local] Set Warnings "-inexact-float".

(** C3.  In double precision [forward] leaves the bounds.
    [TanhBound(0.7, 0.9)] is built with [_b = 0.8] and
    [_a = 0.10000000000000003]; [np.tanh(40.)] is [1.0], and
    [_b + _a * 1.0] rounds to [0.9000000000000001], which is greater than
    [a_max].  [backward] of the same object refuses that value with a value
    error. *)
Theorem forward_exceeds_bound :
  exists (t : TanhBoundT) (y : float),
    TanhBound (Some (Scalar 0.7)) (Some (Scalar 0.9)) = Ok t
    /\ t.(_b) = [0.8] /\ t.(_a) = [0.10000000000000003]
    /\ TanhBound_forward t [40] = Ok [Some y]
    /\ y = 0.9000000000000001
    /\ (0.9 <? y) = true
    /\ TanhBound_backward t [y] = Raise ValueError.
Proof.
  eexists. exists 0.9000000000000001.
  split; [reflexivity|].
  split; [reflexivity|]. split; [reflexivity|].
  split; [vm_compute; reflexivity|].
  split; [reflexivity|].
  split; vm_compute; reflexivity.
Qed.

(** With bounds whose difference overflows, [_a] is infinite:
    [TanhBound(-1.7e308, 1.7e308).forward([0., 40.])] is [[nan, inf]]. *)
Lemma forward_overflows :
  exists t : TanhBoundT,
    TanhBound (Some (Scalar (-1.7e308))) (Some (Scalar 1.7e308)) = Ok t
    /\ t.(_a) = [infinity]
    /\ TanhBound_forward t [0; 40] = Ok [Some nan; Some infinity].
Proof.
  eexists. split; [reflexivity|].
  split; vm_compute; reflexivity.
Qed.


End Transforms64Facts.

(** ** Further properties of the transforms *)

Module TransformsExtra.
Import Transforms TransformsSpec ExtraSpec TransformsFacts.
Local Open Scope R_scope.

Section Extra.

Variables norm_cdf_R norm_ppf_R : R -> R.

Local Abbreviation forward := (Transforms.forward norm_cdf_R norm_ppf_R).
Local Abbreviation backward := (Transforms.backward norm_cdf_R norm_ppf_R).

(** *** Bounds of two or more elements *)

(** [Clipping.backward] takes the truth value of [np.max(y) > self.a_max]
    and of [np.min(y) < self.a_min]: a bound of two or more elements makes
    one of them ambiguous. *)
Lemma Clipping_backward_vector_bounds (self : BoundTransform) (y : ndarray) :
  (exists b, (self.(a_min) = Some b \/ self.(a_max) = Some b)
             /\ (2 <= length b)%nat) ->
  Clipping_backward self y = Raise ValueError.
Proof.
  intros (b & Hb & Hlen). unfold Clipping_backward.
  destruct (_check_shape self y) as [u|e] eqn:Ec;
    [|apply _check_shape_raises in Ec; subst; reflexivity].
  cbn [bind]. unfold py_or.
  destruct y as [|v y].
  - destruct (a_max self) as [hi|]; [reflexivity|]. cbn [bind].
    destruct (a_min self) as [lo|]; [reflexivity|].
    destruct Hb; discriminate.
  - cbn [np_max np_min bind].
    destruct (a_max self) as [hi|] eqn:Ehi.
    + destruct hi as [|h0 [|h1 hi]]; [| |reflexivity]; cbn [map truth bind].
      * destruct (a_min self) as [lo|] eqn:Elo.
        -- destruct Hb as [Hb | Hb]; injection Hb as <-;
             [|simpl in Hlen; lia].
           destruct lo as [|l0 [|l1 lo]]; try (simpl in Hlen; lia).
           reflexivity.
        -- destruct Hb as [Hb | Hb]; [discriminate|]. injection Hb as <-.
           simpl in Hlen. lia.
      * destruct (f_gt (fold_left fmaximum y v) h0); [reflexivity|].
        destruct (a_min self) as [lo|] eqn:Elo.
        -- destruct Hb as [Hb | Hb]; injection Hb as <-;
             [|simpl in Hlen; lia].
           destruct lo as [|l0 [|l1 lo]]; try (simpl in Hlen; lia).
           reflexivity.
        -- destruct Hb as [Hb | Hb]; [discriminate|]. injection Hb as <-.
           simpl in Hlen. lia.
    + cbn [bind]. destruct (a_min self) as [lo|] eqn:Elo.
      * destruct Hb as [Hb | Hb]; [|discriminate]. injection Hb as <-.
        destruct lo as [|l0 [|l1 lo]]; try (simpl in Hlen; lia).
        reflexivity.
      * destruct Hb; discriminate.
Qed.

(** X2.  When [ArctanBound] or [Clipping] has been built with a bound of
    two or more elements, [backward] raises a value error on every input,
    whatever its shape and values: the range test takes the truth value of
    the comparison of [np.max(y)] or [np.min(y)] with the whole bound
    array. *)
Theorem backward_array_bounds_raise
    (a_min a_max : option bound_arg) (t : Transform) (y : ndarray) :
  ArctanBound a_min a_max = Ok t \/ Clipping a_min a_max = Ok t ->
  (exists b, (a_min = Some b \/ a_max = Some b)
             /\ (2 <= length (as_array b))%nat) ->
  backward t y = Raise ValueError.
Proof.
  intros [Ht | Ht] (b & Hb & Hlen).
  - destruct (ArctanBound_inv _ _ _ Ht)
      as (lo & hi & ge & s & d & -> & -> & _ & _ & _ & _ & ->).
    cbn [Transforms.backward].
    apply (ArctanBound_backward_vector_bounds _ _ _ (as_array lo)
             (as_array hi)); [reflexivity | reflexivity |].
    destruct Hb as [Hb | Hb]; injection Hb as ->; [right | left]; exact Hlen.
  - destruct (Clipping_inv _ _ _ Ht) as (self & Hs & ->).
    destruct (BoundTransform_init_inv _ _ _ Hs) as (E1 & E2 & _).
    cbn [Transforms.backward]. apply Clipping_backward_vector_bounds.
    exists (as_array b). split; [|exact Hlen].
    rewrite E1, E2. destruct Hb as [-> | ->]; [left | right]; reflexivity.
Qed.

(** *** [Clipping] *)

(** [np.clip] on one element with finite bounds [l < h]. *)
Lemma clip_cases (l h : R) (v : fnum) :
  l < h ->
  (forall e, v = Fin e ->
     (l <= e <= h -> fminimum (fmaximum v (Fin l)) (Fin h) = Fin e)
     /\ (e < l -> fminimum (fmaximum v (Fin l)) (Fin h) = Fin l)
     /\ (h < e -> fminimum (fmaximum v (Fin l)) (Fin h) = Fin h))
  /\ (v = PInf -> fminimum (fmaximum v (Fin l)) (Fin h) = Fin h)
  /\ (v = NInf -> fminimum (fmaximum v (Fin l)) (Fin h) = Fin l)
  /\ (v = NaN -> fminimum (fmaximum v (Fin l)) (Fin h) = NaN).
Proof.
  intros Hlh. split; [|split; [|split]].
  - intros e ->. unfold fmaximum, fminimum. simpl.
    destruct (Rlt_dec e l); simpl.
    + destruct (Rlt_dec h l); [lra|].
      repeat split; intros; try reflexivity; exfalso; lra.
    + destruct (Rlt_dec h e); repeat split; intros; try reflexivity;
        exfalso; lra.
  - intros ->. reflexivity.
  - intros ->. unfold fmaximum, fminimum. simpl.
    destruct (Rlt_dec h l); [lra | reflexivity].
  - intros ->. reflexivity.
Qed.

(** X6.  [Clipping.forward] with two finite bounds of one shape moves each
    element to the nearest point of its interval: the call returns an array
    of the shape of the input in which an element within the bounds is
    unchanged, an element below the lower bound (or [-inf]) is replaced by
    the lower bound, an element above the upper bound (or [+inf]) by the
    upper bound, and NaN stays NaN. *)
Theorem Clipping_forward_nearest
    (a_min a_max : bound_arg) (t : Transform) (lo hi : list R) (x : ndarray) :
  Clipping (Some a_min) (Some a_max) = Ok t ->
  as_array a_min = map Fin lo -> as_array a_max = map Fin hi ->
  length lo = length hi -> valid_shape (length lo) x ->
  exists y,
    forward t x = Ok y /\ length y = length x
    /\ forall i, (i < length x)%nat ->
         (forall e, nth i x NaN = Fin e ->
            (bnth lo i 0 <= e <= bnth hi i 0 -> nth i y NaN = Fin e)
            /\ (e < bnth lo i 0 -> nth i y NaN = Fin (bnth lo i 0))
            /\ (bnth hi i 0 < e -> nth i y NaN = Fin (bnth hi i 0)))
         /\ (nth i x NaN = PInf -> nth i y NaN = Fin (bnth hi i 0))
         /\ (nth i x NaN = NInf -> nth i y NaN = Fin (bnth lo i 0))
         /\ (nth i x NaN = NaN -> nth i y NaN = NaN).
Proof.
  intros Ht Elo Ehi Hl Hv.
  destruct (Clipping_built _ _ _ lo hi Ht Elo Ehi Hl) as [-> Hord].
  destruct (Clipping_forward_elements lo hi x Hl Hv) as (y & Hy & Hly & Hn).
  exists y. split; [exact Hy|]. split; [exact Hly|].
  intros i Hi.
  assert (valid_index (length lo) i) as Hvi
    by (apply (valid_shape_index _ x); assumption).
  rewrite (Hn i Hi).
  exact (clip_cases _ _ (nth i x NaN) (Hord i Hvi)).
Qed.

Lemma _check_shape_valid (self : BoundTransform) (x : ndarray) :
  valid_shape self.(shape) x -> _check_shape self x = Ok tt.
Proof.
  intros [H | H].
  - apply _check_shape_singleton. exact H.
  - apply _check_shape_equal. exact H.
Qed.

(** X7.  [Clipping] accepts a single bound, and [forward] then cuts on that
    side only: with a lower bound alone an element below it is replaced by
    the bound and every other element, [+inf] included, is unchanged; with
    an upper bound alone an element above it is replaced by the bound and
    every other element, [-inf] included, is unchanged. *)
Theorem Clipping_forward_one_bound
    (bound : bound_arg) (b : list R) (x : ndarray) :
  as_array bound = map Fin b -> valid_shape (length b) x ->
  (exists t y,
     Clipping (Some bound) None = Ok t
     /\ forward t x = Ok y /\ length y = length x
     /\ forall i, (i < length x)%nat ->
          (f_lt (nth i x NaN) (Fin (bnth b i 0)) = true ->
           nth i y NaN = Fin (bnth b i 0))
          /\ (f_lt (nth i x NaN) (Fin (bnth b i 0)) = false ->
              nth i y NaN = nth i x NaN))
  /\ (exists t y,
        Clipping None (Some bound) = Ok t
        /\ forward t x = Ok y /\ length y = length x
        /\ forall i, (i < length x)%nat ->
             (f_gt (nth i x NaN) (Fin (bnth b i 0)) = true ->
              nth i y NaN = Fin (bnth b i 0))
             /\ (f_gt (nth i x NaN) (Fin (bnth b i 0)) = false ->
                 nth i y NaN = nth i x NaN)).
Proof.
  intros Eb Hv.
  assert (valid_shape (length (map Fin b)) x) as Hv1
    by (rewrite length_map; exact Hv).
  split.
  - destruct (broadcast2_valid_r fmaximum x (map Fin b) Hv1)
      as (y & Hy & Hly & Hn).
    eexists _, y. split; [reflexivity|]. cbn [option_map].
    rewrite Eb. cbn [Transforms.forward]. unfold Clipping_forward.
    rewrite _check_shape_valid by exact Hv1.
    cbn [bind a_min a_max np_clip]. rewrite Hy. cbn [bind].
    split; [reflexivity|]. split; [exact Hly|].
    intros i Hi.
    assert (valid_index (length b) i) as Hvi
      by (apply (valid_shape_index _ x); assumption).
    rewrite (Hn i NaN NaN NaN Hi), (bnth_map Fin b i 0 NaN Hvi).
    unfold fmaximum.
    destruct (nth i x NaN) as [e| | |]; simpl;
      try (split; intros H; (discriminate || reflexivity)).
    destruct (Rlt_dec e (bnth b i 0)); split; intros H;
      (discriminate || reflexivity).
  - destruct (broadcast2_valid_r fminimum x (map Fin b) Hv1)
      as (y & Hy & Hly & Hn).
    eexists _, y. split; [reflexivity|]. cbn [option_map].
    rewrite Eb. cbn [Transforms.forward]. unfold Clipping_forward.
    rewrite _check_shape_valid by exact Hv1.
    cbn [bind a_min a_max np_clip]. rewrite Hy.
    split; [reflexivity|]. split; [exact Hly|].
    intros i Hi.
    assert (valid_index (length b) i) as Hvi
      by (apply (valid_shape_index _ x); assumption).
    rewrite (Hn i NaN NaN NaN Hi), (bnth_map Fin b i 0 NaN Hvi).
    unfold fminimum, f_gt.
    destruct (nth i x NaN) as [e| | |]; simpl;
      try (split; intros H; (discriminate || reflexivity)).
    destruct (Rlt_dec (bnth b i 0) e); split; intros H;
      (discriminate || reflexivity).
Qed.

Lemma Clipping_backward_identity (self : BoundTransform) (y z : ndarray) :
  Clipping_backward self y = Ok z -> z = y.
Proof.
  unfold Clipping_backward.
  destruct (_check_shape self y); [|discriminate]. cbn [bind].
  match goal with
  | |- bind ?t _ = _ -> _ => destruct t as [[|]|]
  end; cbn [bind]; intros H; try discriminate.
  injection H as <-. reflexivity.
Qed.

(** X8.  [Clipping.backward] is the identity where it returns, so it does
    not undo [forward]: with two finite one-element bounds and a finite,
    non-empty input [x], [forward] returns the clipped array [y],
    [backward] of [y] returns [y] itself (not [x]), and clipping [y]
    again changes nothing. *)
Theorem Clipping_backward_of_forward
    (a_min a_max : bound_arg) (t : Transform) (l h : R) (x : ndarray) :
  Clipping (Some a_min) (Some a_max) = Ok t ->
  as_array a_min = [Fin l] -> as_array a_max = [Fin h] ->
  finite x -> x <> [] ->
  (forall y z, backward t y = Ok z -> z = y)
  /\ exists y,
       forward t x = Ok y /\ backward t y = Ok y /\ forward t y = Ok y.
Proof.
  intros Ht Elo Ehi Hf Hne.
  destruct (Clipping_built _ _ _ [l] [h] Ht Elo Ehi eq_refl) as [-> Hord].
  assert (l < h) as Hlh by (apply (Hord 0%nat); right; reflexivity).
  split.
  - intros y z. cbn [Transforms.backward]. apply Clipping_backward_identity.
  - destruct (Clipping_forward_elements [l] [h] x eq_refl)
      as (y & Hy & Hly & Hn); [left; reflexivity|].
    cbn [bnth] in Hn.
    assert (forall i, (i < length y)%nat ->
              exists c, nth i y NaN = Fin c /\ l <= c <= h) as Hin.
    { intros i Hi. rewrite Hly in Hi.
      destruct (finite_nth x i Hf Hi) as (e & Ee & _).
      rewrite (Hn i Hi), Ee. apply clip_image. exact Hlh. }
    assert (finite y) as Hfy.
    { apply finite_of_nth. intros i Hi.
      destruct (Hin i Hi) as (c & Ec & _). exists c. exact Ec. }
    assert (y <> []) as Hney.
    { intros ->. destruct x; [contradiction | discriminate]. }
    exists y. cbn [Transforms.forward Transforms.backward].
    split; [exact Hy|]. split.
    + unfold Clipping_backward.
      rewrite _check_shape_singleton by reflexivity. cbn [bind Transforms.a_min Transforms.a_max].
      destruct (clipping_test_singleton y (Some [Fin l]) (Some [Fin h])
                  Hfy Hney eq_refl eq_refl) as (out & Ho & Hout).
      match goal with
      | |- bind ?t _ = _ => replace t with (Ok out) by (symmetry; exact Ho)
      end.
      cbn [bind]. destruct out; [|reflexivity].
      exfalso. destruct (Hout eq_refl) as [(i & Hi & Hgt) | (i & Hi & Hlt)];
        destruct (Hin i Hi) as (c & Ec & Hc); rewrite Ec in *;
        cbn [bnth] in *.
      * apply f_lt_fin in Hgt. lra.
      * apply f_lt_fin in Hlt. lra.
    + destruct (Clipping_forward_elements [l] [h] y eq_refl)
        as (z & Hz & Hlz & Hnz); [left; reflexivity|].
      rewrite Hz. f_equal. apply (nth_ext _ _ NaN NaN); [exact Hlz|].
      intros i Hi. rewrite Hlz in Hi. rewrite (Hnz i Hi). cbn [bnth].
      destruct (Hin i Hi) as (c & Ec & Hc). rewrite Ec.
      destruct (clip_cases l h (Fin c) Hlh) as [Hcase _].
      apply (Hcase c eq_refl). exact Hc.
Qed.

(** *** [Exponentiate] *)

Lemma map_finite_ext (k k' : fnum -> fnum) (x : ndarray) :
  finite x -> (forall e, k (Fin e) = k' (Fin e)) -> map k x = map k' x.
Proof.
  intros Hf Hk. induction Hf as [|v x Hv Hx IH]; [reflexivity|].
  simpl. rewrite IH. destruct v; try contradiction. rewrite Hk. reflexivity.
Qed.

Lemma Rpower_or_one (rb u : R) :
  0 < rb -> (if Req_dec_T u 0 then 1 else Rpower rb u) = Rpower rb u.
Proof.
  intros H. destruct (Req_dec_T u 0) as [-> | _]; [|reflexivity].
  symmetry. apply Rpower_O. exact H.
Qed.

Lemma Exponentiate_forward_power (rb rc e : R) :
  0 < rb -> fpow (Fin rb) (fmul (Fin rc) (Fin e)) = Fin (Rpower rb (rc * e)).
Proof.
  intros H. rewrite (Exponentiate_forward_fin rb rc e H).
  rewrite (Rpower_or_one rb _ H). reflexivity.
Qed.

(** X11.  [Exponentiate] checks nothing at construction, unlike [Affine]
    with its zero scale: with base 1, or with coefficient 0 (and a
    positive finite base), the transform is built, [forward] maps every
    finite input to the constant 1, and [backward] of that result returns
    NaN everywhere without raising. *)
Theorem Exponentiate_degenerate (rb rc : R) (x : ndarray) :
  0 < rb -> rb = 1 \/ rc = 0 -> finite x ->
  exists t,
    Exponentiate (Fin rb) (Fin rc) = Ok t
    /\ forward t x = Ok (map (fun _ => Fin 1) x)
    /\ backward t (map (fun _ => Fin 1) x) = Ok (map (fun _ => NaN) x).
Proof.
  intros Hb Hd Hf. eexists. split; [reflexivity|].
  cbn [Transforms.forward Transforms.backward].
  unfold Exponentiate_forward, Exponentiate_backward. split.
  - f_equal. apply map_finite_ext; [exact Hf|]. intros e.
    rewrite (Exponentiate_forward_power rb rc e Hb). f_equal.
    destruct Hd as [-> | ->].
    + unfold Rpower. rewrite ln_1, Rmult_0_r. apply exp_0.
    + rewrite Rmult_0_l. apply Rpower_O. exact Hb.
  - rewrite map_map. f_equal. apply map_ext. intros _.
    simpl. destruct (Rlt_dec 0 1) as [_|]; [|lra].
    destruct (Rlt_dec 0 rb) as [_|]; [|lra]. simpl.
    assert (rc * ln rb = 0) as E.
    { destruct Hd as [-> | ->]; [rewrite ln_1|]; ring. }
    destruct (Req_dec_T (rc * ln rb) 0) as [_|]; [|contradiction].
    rewrite ln_1. unfold inf_scaled.
    destruct (Rlt_dec 0 0); [lra|]. reflexivity.
Qed.

(** *** NaN and empty inputs of the backward maps *)

Lemma fold_fmaximum_nan (r : ndarray) : fold_left fmaximum r NaN = NaN.
Proof. induction r as [|a r IH]; [reflexivity | exact IH]. Qed.

Lemma fold_fminimum_nan (r : ndarray) : fold_left fminimum r NaN = NaN.
Proof. induction r as [|a r IH]; [reflexivity | exact IH]. Qed.

Lemma fmaximum_nan_r (v : fnum) : fmaximum v NaN = NaN.
Proof. destruct v; reflexivity. Qed.

Lemma fminimum_nan_r (v : fnum) : fminimum v NaN = NaN.
Proof. destruct v; reflexivity. Qed.

(** [np.max] and [np.min] of an array with a NaN element are NaN. *)
Lemma np_max_nan (y : ndarray) : In NaN y -> np_max y = Ok NaN.
Proof.
  destruct y as [|v r]; [intros []|]. cbn [np_max]. revert v.
  induction r as [|a r IH]; intros v [H | H].
  - subst. reflexivity.
  - destruct H.
  - subst. cbn [fold_left]. change (fmaximum NaN a) with NaN.
    rewrite fold_fmaximum_nan. reflexivity.
  - cbn [fold_left]. destruct H as [H | H].
    + subst. rewrite fmaximum_nan_r, fold_fmaximum_nan. reflexivity.
    + apply IH. right. exact H.
Qed.

Lemma np_min_nan (y : ndarray) : In NaN y -> np_min y = Ok NaN.
Proof.
  destruct y as [|v r]; [intros []|]. cbn [np_min]. revert v.
  induction r as [|a r IH]; intros v [H | H].
  - subst. reflexivity.
  - destruct H.
  - subst. cbn [fold_left]. change (fminimum NaN a) with NaN.
    rewrite fold_fminimum_nan. reflexivity.
  - cbn [fold_left]. destruct H as [H | H].
    + subst. rewrite fminimum_nan_r, fold_fminimum_nan. reflexivity.
    + apply IH. right. exact H.
Qed.

(** X12.  A NaN element switches off the range test of the backward maps
    that compare [np.max(y)] and [np.min(y)] with the bounds, because the
    maximum and the minimum are then NaN and every comparison with NaN is
    false.  Whatever the other elements are, [CumulativeDensity.backward]
    returns [norm.ppf(y)], [Clipping.backward] with one-element bounds
    returns [y], and [ArctanBound.backward] with one-element bounds
    returns: elements outside the range are not reported. *)
Theorem nan_disables_range_check :
  (forall y : ndarray,
     In NaN y ->
     backward CumulativeDensityT y = Ok (map (norm_ppf norm_ppf_R) y))
  /\ (forall (a_min a_max : option bound_arg) (t : Transform) (y : ndarray),
        singleton_bounds a_min a_max -> Clipping a_min a_max = Ok t ->
        In NaN y -> backward t y = Ok y)
  /\ (forall (a_min a_max : option bound_arg) (t : Transform) (y : ndarray),
        singleton_bounds a_min a_max -> ArctanBound a_min a_max = Ok t ->
        In NaN y -> succeeds (backward t y)).
Proof.
  split; [|split].
  - intros y Hy. cbn [Transforms.backward].
    unfold CumulativeDensity_backward, py_or.
    rewrite (np_max_nan y Hy), (np_min_nan y Hy). reflexivity.
  - intros a_min a_max t y [Hlo Hhi] Ht Hy.
    destruct (Clipping_inv _ _ _ Ht) as (self & Hs & ->).
    destruct (BoundTransform_init_inv _ _ _ Hs) as (Elo & Ehi & Esh & Hnb & _).
    assert (self.(shape) = 1%nat) as Hsh.
    { rewrite Esh. destruct a_min as [lo|]; [exact Hlo|].
      destruct a_max as [hi|]; [exact Hhi|].
      exfalso. apply Hnb. split; reflexivity. }
    cbn [Transforms.backward]. unfold Clipping_backward, py_or.
    rewrite (_check_shape_singleton _ _ Hsh). cbn [bind].
    rewrite Elo, Ehi, (np_max_nan y Hy), (np_min_nan y Hy).
    destruct a_max as [hi|]; cbn [option_map bind].
    + destruct (singleton_inv _ Hhi) as [h ->]. cbn [map truth bind].
      rewrite f_gt_nan_l.
      destruct a_min as [lo|]; cbn [option_map bind]; [|reflexivity].
      destruct (singleton_inv _ Hlo) as [l ->]. cbn [map truth bind].
      rewrite f_lt_nan_l. reflexivity.
    + destruct a_min as [lo|]; cbn [option_map bind]; [|reflexivity].
      destruct (singleton_inv _ Hlo) as [l ->]. cbn [map truth bind].
      rewrite f_lt_nan_l. reflexivity.
  - intros a_min a_max t y [Hlo Hhi] Ht Hy.
    destruct (ArctanBound_inv _ _ _ Ht)
      as (lo & hi & ge & s & d & -> & -> & _ & _ & Hs & Hd & ->).
    destruct (singleton_inv _ Hlo) as [l El].
    destruct (singleton_inv _ Hhi) as [h Eh].
    rewrite El, Eh in *.
    rewrite broadcast2_left in Hs, Hd. injection Hs as <-. injection Hd as <-.
    cbn [Transforms.backward]. unfold ArctanBound_backward, py_or.
    rewrite _check_shape_singleton by reflexivity.
    cbn [bind Transforms.a_min Transforms.a_max].
    rewrite (np_max_nan y Hy), (np_min_nan y Hy). cbn [map truth bind].
    rewrite f_gt_nan_l, f_lt_nan_l. cbn [bind].
    rewrite broadcast2_right. cbn [bind]. rewrite broadcast2_right.
    eexists; reflexivity.
Qed.

(** X13.  The empty array.  [np.max] and [np.min] have no value on it, so
    [backward] of [ArctanBound], of [Clipping] and of [CumulativeDensity]
    raises a value error on the empty array, whatever the bounds.  The
    forward maps and [TanhBound.backward], which work element by element,
    return the empty array (for one-element bounds, whose shape check
    accepts every input). *)
Theorem empty_input :
  (forall (a_min a_max : option bound_arg) (t : Transform),
     ArctanBound a_min a_max = Ok t \/ Clipping a_min a_max = Ok t ->
     backward t [] = Raise ValueError)
  /\ backward CumulativeDensityT [] = Raise ValueError
  /\ forward CumulativeDensityT [] = Ok []
  /\ (forall (a_min a_max : option bound_arg) (t : Transform),
        singleton_bounds a_min a_max ->
        TanhBound a_min a_max = Ok t \/ ArctanBound a_min a_max = Ok t
        \/ Clipping a_min a_max = Ok t ->
        forward t [] = Ok [])
  /\ (forall (a_min a_max : option bound_arg) (t : Transform),
        singleton_bounds a_min a_max -> TanhBound a_min a_max = Ok t ->
        backward t [] = Ok []).
Proof.
  split; [|split; [|split; [|split]]].
  - intros a_min a_max t [Ht | Ht].
    + destruct (ArctanBound_inv _ _ _ Ht)
        as (lo & hi & ge & s & d & -> & -> & _ & _ & _ & _ & ->).
      cbn [Transforms.backward]. unfold ArctanBound_backward.
      match goal with
      | |- bind (_check_shape ?s ?x) _ = _ =>
          destruct (_check_shape s x) as [u|e] eqn:Ec;
            [|apply _check_shape_raises in Ec; subst; reflexivity]
      end.
      reflexivity.
    + destruct (Clipping_inv _ _ _ Ht) as (self & Hs & ->).
      destruct (BoundTransform_init_inv _ _ _ Hs) as (Elo & Ehi & _ & Hnb & _).
      cbn [Transforms.backward]. unfold Clipping_backward.
      destruct (_check_shape self []) as [u|e] eqn:Ec;
        [|apply _check_shape_raises in Ec; subst; reflexivity].
      cbn [bind]. rewrite Elo, Ehi.
      destruct a_max as [hi|]; [reflexivity|].
      destruct a_min as [lo|]; [reflexivity|].
      exfalso. apply Hnb. split; reflexivity.
  - reflexivity.
  - reflexivity.
  - intros a_min a_max t [Hlo Hhi] [Ht | [Ht | Ht]].
    + destruct (TanhBound_inv _ _ _ Ht)
        as (lo & hi & ge & s & d & -> & -> & _ & _ & Hs & Hd & ->).
      destruct (singleton_inv _ Hlo) as [l El].
      destruct (singleton_inv _ Hhi) as [h Eh].
      rewrite El, Eh in *.
      rewrite broadcast2_left in Hs, Hd. injection Hs as <-.
      injection Hd as <-. reflexivity.
    + destruct (ArctanBound_inv _ _ _ Ht)
        as (lo & hi & ge & s & d & -> & -> & _ & _ & Hs & Hd & ->).
      destruct (singleton_inv _ Hlo) as [l El].
      destruct (singleton_inv _ Hhi) as [h Eh].
      rewrite El, Eh in *.
      rewrite broadcast2_left in Hs, Hd. injection Hs as <-.
      injection Hd as <-. reflexivity.
    + destruct (Clipping_inv _ _ _ Ht) as (self & Hs & ->).
      destruct (BoundTransform_init_inv _ _ _ Hs)
        as (Elo & Ehi & Esh & Hnb & _).
      assert (self.(shape) = 1%nat) as Hsh.
      { rewrite Esh. destruct a_min as [lo|]; [exact Hlo|].
        destruct a_max as [hi|]; [exact Hhi|].
        exfalso. apply Hnb. split; reflexivity. }
      cbn [Transforms.forward]. unfold Clipping_forward.
      rewrite (_check_shape_singleton _ _ Hsh). cbn [bind].
      rewrite Elo, Ehi.
      destruct a_min as [lo|], a_max as [hi|]; cbn [option_map].
      * destruct (singleton_inv _ Hlo) as [l ->].
        destruct (singleton_inv _ Hhi) as [h ->]. reflexivity.
      * destruct (singleton_inv _ Hlo) as [l ->]. reflexivity.
      * destruct (singleton_inv _ Hhi) as [h ->]. reflexivity.
      * exfalso. apply Hnb. split; reflexivity.
  - intros a_min a_max t [Hlo Hhi] Ht.
    destruct (TanhBound_inv _ _ _ Ht)
      as (lo & hi & ge & s & d & -> & -> & _ & _ & Hs & Hd & ->).
    destruct (singleton_inv _ Hlo) as [l El].
    destruct (singleton_inv _ Hhi) as [h Eh].
    rewrite El, Eh in *.
    rewrite broadcast2_left in Hs, Hd. injection Hs as <-.
    injection Hd as <-. reflexivity.
Qed.

(** *** Shapes of the results *)

Lemma _check_shape_ok (self : BoundTransform) (x : ndarray) :
  _check_shape self x = Ok tt -> valid_shape self.(shape) x.
Proof.
  unfold _check_shape, valid_shape, ashape.
  destruct (Nat.eqb self.(shape) 1) eqn:E1.
  - apply Nat.eqb_eq in E1. intros _. left. exact E1.
  - destruct (Nat.eqb (length x) self.(shape)) eqn:E2; simpl.
    + apply Nat.eqb_eq in E2. intros _. right. exact E2.
    + discriminate.
Qed.

Lemma broadcast2_length_r {A B C : Type} (f : A -> B -> C) (y : list A)
    (p : list B) (z : list C) :
  valid_shape (length p) y -> broadcast2 f y p = Ok z -> length z = length y.
Proof.
  intros Hv Hz. destruct (broadcast2_valid_r f y p Hv) as (z' & Hz' & Hl & _).
  rewrite Hz in Hz'. injection Hz' as ->. exact Hl.
Qed.

Lemma broadcast2_length_l {A B C : Type} (f : A -> B -> C) (p : list A)
    (y : list B) (z : list C) :
  valid_shape (length p) y -> broadcast2 f p y = Ok z -> length z = length y.
Proof.
  intros Hv Hz. destruct (broadcast2_valid_l f p y Hv) as (z' & Hz' & Hl & _).
  rewrite Hz in Hz'. injection Hz' as ->. exact Hl.
Qed.

(** [_b + _a * g(x)] and [h((y - _b) / _a)] keep the shape of an input the
    shape check accepts, when [_b] and [_a] have the shape of the
    transform. *)
Lemma scale_shift_length (g : fnum -> fnum) (self : BoundTransform)
    (_b _a x y : ndarray) :
  length _b = self.(shape) -> length _a = self.(shape) ->
  (_check_shape self x ;;;
   m <- broadcast2 fmul _a (map g x) ;; broadcast2 fadd _b m) = Ok y ->
  length y = length x.
Proof.
  intros Hb Ha H.
  destruct (_check_shape self x) as [[]|] eqn:Ec; [|discriminate].
  apply _check_shape_ok in Ec. cbn [bind] in H.
  destruct (broadcast2 fmul _a (map g x)) as [m|] eqn:Em; [|discriminate].
  cbn [bind] in H.
  assert (length m = length x) as Hm.
  { rewrite <- (length_map g x). apply (broadcast2_length_l fmul _a _ m);
      [|exact Em]. unfold valid_shape in *. rewrite length_map. lia. }
  rewrite <- Hm. apply (broadcast2_length_l fadd _b m y); [|exact H].
  unfold valid_shape in *. lia.
Qed.

Lemma unshift_unscale_length (h : fnum -> fnum) (self : BoundTransform)
    (_b _a y z : ndarray) :
  length _b = self.(shape) -> length _a = self.(shape) ->
  valid_shape self.(shape) y ->
  (d <- broadcast2 fsub y _b ;; q <- broadcast2 fdiv d _a ;; Ok (map h q))
  = Ok z ->
  length z = length y.
Proof.
  intros Hb Ha Hv H.
  destruct (broadcast2 fsub y _b) as [d|] eqn:Ed; [|discriminate].
  cbn [bind] in H.
  destruct (broadcast2 fdiv d _a) as [q|] eqn:Eq; [|discriminate].
  cbn [bind] in H. injection H as <-. rewrite length_map.
  assert (length d = length y) as Hd.
  { apply (broadcast2_length_r fsub y _b d); [|exact Ed].
    unfold valid_shape in *. lia. }
  rewrite <- Hd. apply (broadcast2_length_r fdiv d _a q); [|exact Eq].
  unfold valid_shape in *. lia.
Qed.

Lemma broadcast2_length_equal {A B C : Type} (f : A -> B -> C) (x : list A)
    (y : list B) (z : list C) :
  length x = length y -> broadcast2 f x y = Ok z -> length z = length y.
Proof.
  intros Hl Hz. rewrite broadcast2_equal in Hz by exact Hl.
  injection Hz as <-. rewrite length_map, length_combine. lia.
Qed.

(** X14.  No transform changes the shape of an array.  For every transform
    the constructors return when the bounds given have one shape (and for
    [Reverted] of such a transform, at any depth), whenever [forward] or
    [backward] returns, the result has the length of the input. *)
Theorem shape_preserved (t : Transform) :
  uniform t ->
  forall x y : ndarray,
    (forward t x = Ok y -> length y = length x)
    /\ (backward t x = Ok y -> length y = length x).
Proof.
  intros H. induction H as [a b t H | base coeff t H
                           | a_min a_max t Hl H | a_min a_max t Hl H
                           | a_min a_max t Hl H | t H | T t HT IH H];
    intros x y.
  - unfold Affine in H. destruct (negb (f_truth a)); [discriminate|].
    injection H as <-. cbn [Transforms.forward Transforms.backward].
    unfold Affine_forward, Affine_backward.
    split; intros E; injection E as <-; apply length_map.
  - injection H as <-. cbn [Transforms.forward Transforms.backward].
    unfold Exponentiate_forward, Exponentiate_backward.
    split; intros E; injection E as <-; apply length_map.
  - destruct (TanhBound_inv _ _ _ H)
      as (lo & hi & ge & s & d & E1 & E2 & _ & _ & Hs & Hd & ->).
    injection E1 as <-. injection E2 as <-.
    assert (length (map (fmul half) s) = length (as_array a_min)) as Hb.
    { rewrite length_map.
      apply (broadcast2_length_equal fadd (as_array a_max) _ s);
        [lia | exact Hs]. }
    assert (length (map (fmul half) d) = length (as_array a_min)) as Ha.
    { rewrite length_map.
      apply (broadcast2_length_equal fsub (as_array a_max) _ d);
        [lia | exact Hd]. }
    cbn [Transforms.forward Transforms.backward]. split.
    + apply scale_shift_length; assumption.
    + unfold TanhBound_backward. intros E.
      match type of E with
      | bind (_check_shape ?s ?v) _ = _ =>
          destruct (_check_shape s v) as [[]|] eqn:Ec; [|discriminate]
      end.
      apply _check_shape_ok in Ec. cbn [bind] in E.
      match type of E with
      | bind ?c _ = _ => destruct c as [[|]|]; try discriminate
      end.
      cbn [bind] in E.
      eapply unshift_unscale_length; [| |exact Ec|exact E]; assumption.
  - destruct (ArctanBound_inv _ _ _ H)
      as (lo & hi & ge & s & d & E1 & E2 & _ & _ & Hs & Hd & ->).
    injection E1 as <-. injection E2 as <-.
    assert (length (map (fmul half) s) = length (as_array a_min)) as Hb.
    { rewrite length_map.
      apply (broadcast2_length_equal fadd (as_array a_max) _ s);
        [lia | exact Hs]. }
    assert (length (map (fun v => fdiv v (Fin PI)) d)
            = length (as_array a_min)) as Ha.
    { rewrite length_map.
      apply (broadcast2_length_equal fsub (as_array a_max) _ d);
        [lia | exact Hd]. }
    cbn [Transforms.forward Transforms.backward]. split.
    + apply scale_shift_length; assumption.
    + unfold ArctanBound_backward. intros E.
      match type of E with
      | bind (_check_shape ?s ?v) _ = _ =>
          destruct (_check_shape s v) as [[]|] eqn:Ec; [|discriminate]
      end.
      apply _check_shape_ok in Ec. cbn [bind] in E.
      match type of E with
      | bind ?c _ = _ => destruct c as [[|]|]; try discriminate
      end.
      cbn [bind] in E.
      eapply unshift_unscale_length; [| |exact Ec|exact E]; assumption.
  - destruct (Clipping_inv _ _ _ H) as (self & Hs & ->).
    destruct (BoundTransform_init_inv _ _ _ Hs) as (E1 & E2 & E3 & Hnb & _).
    cbn [Transforms.forward Transforms.backward]. split.
    + unfold Clipping_forward. intros E.
      destruct (_check_shape self x) as [[]|] eqn:Ec; [|discriminate].
      apply _check_shape_ok in Ec. cbn [bind] in E.
      rewrite E1, E2 in E. rewrite E3 in Ec.
      destruct a_min as [lo|], a_max as [hi|]; cbn [option_map np_clip] in E.
      * destruct (broadcast2 fmaximum x (as_array lo)) as [x1|] eqn:Ex1;
          [|discriminate]. cbn [bind] in E.
        assert (length x1 = length x) as Hx1
          by (apply (broadcast2_length_r fmaximum x (as_array lo) x1);
              assumption).
        rewrite <- Hx1.
        apply (broadcast2_length_r fminimum x1 (as_array hi) y); [|exact E].
        unfold valid_shape in *. lia.
      * destruct (broadcast2 fmaximum x (as_array lo)) as [x1|] eqn:Ex1;
          [|discriminate]. cbn [bind] in E. injection E as <-.
        apply (broadcast2_length_r fmaximum x (as_array lo) x1); assumption.
      * cbn [bind] in E.
        apply (broadcast2_length_r fminimum x (as_array hi) y); assumption.
      * discriminate.
    + intros E. apply Clipping_backward_identity in E. subst. reflexivity.
  - injection H as <-. cbn [Transforms.forward Transforms.backward]. split.
    + intros E. injection E as <-. apply length_map.
    + unfold CumulativeDensity_backward. intros E.
      match type of E with
      | bind ?c _ = _ => destruct c as [[|]|]; try discriminate
      end.
      cbn [bind] in E. injection E as <-. apply length_map.
  - injection H as <-. cbn [Transforms.forward Transforms.backward].
    destruct (IH x y) as [IHf IHb]. split; assumption.
Qed.

End Extra.

(** *** Closed instances *)

Local Abbreviation forward := (Transforms.forward cauchy_cdf cauchy_ppf).
Local Abbreviation backward := (Transforms.backward cauchy_cdf cauchy_ppf).

Lemma Clipping_two_elements :
  Clipping (Some (Array [Fin 0; Fin 0])) (Some (Scalar (Fin 1)))
  = Ok (ClippingT (mkBoundTransform (Some [Fin 0; Fin 0]) (Some [Fin 1]) 2)).
Proof.
  unfold Clipping, BoundTransform_init. cbn.
  destruct (Rle_dec 1 0); [lra|]. reflexivity.
Qed.

Lemma backward_array_bounds_raise_witness :
  Transforms.backward cauchy_cdf cauchy_ppf
    (ClippingT (mkBoundTransform (Some [Fin 0; Fin 0]) (Some [Fin 1]) 2))
    [Fin (1 / 2); Fin (1 / 2)]
  = Raise ValueError.
Proof.
  apply (backward_array_bounds_raise cauchy_cdf cauchy_ppf
           (Some (Array [Fin 0; Fin 0])) (Some (Scalar (Fin 1)))).
  - right. exact Clipping_two_elements.
  - exists (Array [Fin 0; Fin 0]). split; [left; reflexivity | simpl; lia].
Defined.

Lemma Clipping_forward_nearest_witness :
  exists y,
    forward (ClippingT unit_self) [Fin 2; Fin (- 1)] = Ok y
    /\ length y = length [Fin 2; Fin (- 1)]
    /\ forall i, (i < length [Fin 2; Fin (- 1)])%nat ->
         (forall e, nth i [Fin 2; Fin (- 1)] NaN = Fin e ->
            (bnth [0] i 0 <= e <= bnth [1] i 0 -> nth i y NaN = Fin e)
            /\ (e < bnth [0] i 0 -> nth i y NaN = Fin (bnth [0] i 0))
            /\ (bnth [1] i 0 < e -> nth i y NaN = Fin (bnth [1] i 0)))
         /\ (nth i [Fin 2; Fin (- 1)] NaN = PInf
             -> nth i y NaN = Fin (bnth [1] i 0))
         /\ (nth i [Fin 2; Fin (- 1)] NaN = NInf
             -> nth i y NaN = Fin (bnth [0] i 0))
         /\ (nth i [Fin 2; Fin (- 1)] NaN = NaN -> nth i y NaN = NaN).
Proof.
  apply (Clipping_forward_nearest cauchy_cdf cauchy_ppf
           (Scalar (Fin 0)) (Scalar (Fin 1)) (ClippingT unit_self) [0] [1]).
  - exact Clipping_0_1.
  - reflexivity.
  - reflexivity.
  - reflexivity.
  - left. reflexivity.
Defined.

Lemma Clipping_forward_one_bound_witness :
  exists t y,
    Clipping (Some (Scalar (Fin 0))) None = Ok t
    /\ forward t [Fin (- 1); Fin 3] = Ok y
    /\ length y = length [Fin (- 1); Fin 3]
    /\ forall i, (i < length [Fin (- 1); Fin 3])%nat ->
         (f_lt (nth i [Fin (- 1); Fin 3] NaN) (Fin (bnth [0] i 0)) = true ->
          nth i y NaN = Fin (bnth [0] i 0))
         /\ (f_lt (nth i [Fin (- 1); Fin 3] NaN) (Fin (bnth [0] i 0)) = false
             -> nth i y NaN = nth i [Fin (- 1); Fin 3] NaN).
Proof.
  apply (proj1 (Clipping_forward_one_bound cauchy_cdf cauchy_ppf
                  (Scalar (Fin 0)) [0] [Fin (- 1); Fin 3] eq_refl
                  (or_introl eq_refl))).
Defined.

Lemma Clipping_backward_of_forward_witness :
  exists y,
    forward (ClippingT unit_self) [Fin 2] = Ok y
    /\ backward (ClippingT unit_self) y = Ok y
    /\ forward (ClippingT unit_self) y = Ok y.
Proof.
  apply (Clipping_backward_of_forward cauchy_cdf cauchy_ppf
           (Scalar (Fin 0)) (Scalar (Fin 1)) (ClippingT unit_self) 0 1).
  - exact Clipping_0_1.
  - reflexivity.
  - reflexivity.
  - repeat constructor.
  - discriminate.
Defined.

Lemma Affine_2_1 : Affine (Fin 2) (Fin 1) = Ok (AffineT (Fin 2) (Fin 1)).
Proof.
  unfold Affine. simpl. destruct (Req_dec_T 2 0); [lra | reflexivity].
Qed.

Lemma Exponentiate_degenerate_witness :
  exists t,
    Exponentiate (Fin 1) (Fin 1) = Ok t
    /\ forward t [Fin 3] = Ok (map (fun _ => Fin 1) [Fin 3])
    /\ backward t (map (fun _ => Fin 1) [Fin 3])
       = Ok (map (fun _ => NaN) [Fin 3]).
Proof.
  apply (Exponentiate_degenerate cauchy_cdf cauchy_ppf 1 1).
  - lra.
  - left. reflexivity.
  - repeat constructor.
Defined.

Lemma nan_disables_range_check_witness :
  backward CumulativeDensityT [Fin 2; NaN]
  = Ok (map (norm_ppf cauchy_ppf) [Fin 2; NaN]).
Proof.
  apply (proj1 (nan_disables_range_check cauchy_cdf cauchy_ppf)).
  right. left. reflexivity.
Defined.

Lemma empty_input_witness :
  backward (ClippingT unit_self) [] = Raise ValueError
  /\ forward unit_tanh [] = Ok []
  /\ backward unit_tanh [] = Ok [].
Proof.
  destruct (empty_input cauchy_cdf cauchy_ppf) as (H1 & _ & _ & H4 & H5).
  split; [|split].
  - apply (H1 (Some (Scalar (Fin 0))) (Some (Scalar (Fin 1)))).
    right. exact Clipping_0_1.
  - apply (H4 (Some (Scalar (Fin 0))) (Some (Scalar (Fin 1)))).
    + split; reflexivity.
    + left. exact TanhBound_0_1.
  - apply (H5 (Some (Scalar (Fin 0))) (Some (Scalar (Fin 1)))).
    + split; reflexivity.
    + exact TanhBound_0_1.
Defined.

Lemma shape_preserved_witness :
  uniform (AffineT (Fin 2) (Fin 1))
  /\ forward (AffineT (Fin 2) (Fin 1)) [Fin 0; Fin 3]
     = Ok (map (fun v => fadd (fmul (Fin 2) v) (Fin 1)) [Fin 0; Fin 3])
  /\ length (map (fun v => fadd (fmul (Fin 2) v) (Fin 1)) [Fin 0; Fin 3])
     = length [Fin 0; Fin 3].
Proof.
  assert (Hu : uniform (AffineT (Fin 2) (Fin 1)))
    by exact (uni_Affine (Fin 2) (Fin 1) _ Affine_2_1).
  split; [exact Hu|]. split; [reflexivity|].
  apply (proj1 (shape_preserved cauchy_cdf cauchy_ppf
                  (AffineT (Fin 2) (Fin 1)) Hu [Fin 0; Fin 3] _)).
  reflexivity.
Defined.

End TransformsExtra.
